(** * Ethereum-Playground-Lab: the DID orchestration service and the
      EIP-4337 wallet contracts, embedded and verified

    The development follows the repository:

    - [Js]: the JavaScript string operations the backend uses (UTF-16 code
      units, [startsWith], [split], [replace], [toLowerCase]);
    - [Keccak], [Bytes] and [Ethers]: the pure helpers of the ethers v5
      library that [did.service.ts] calls ([isAddress], [toUtf8Bytes],
      [formatBytes32String]);
    - [Did]: [back/src/did/did.service.ts], over an abstract JSON-RPC
      environment, with the trace of registry calls it issues;
    - [Registry] and [RawRegistry]: two instances of that environment,
      the ownership logic of the ERC-1056 registry contract behind a
      transport that may fail, and a registry that reports raw owner
      entries;
    - [SimpleAccount], [SimpleAccountFactory] and [VerifyingPaymaster]:
      the Solidity contracts of [EIP-4437/contracts];
    - [Deploy]: the hardhat script that deploys them and keeps
      [deployments.json];
    - [DidSpec], [Scenario], [AccountSpec], [FactoryScenario],
      [WalletSpec], [PaymasterSpec] and [DeploySpec]: the vocabulary of
      the statements and the concrete worlds they are run in;
    - the properties: the claims of the specification (C1 to C10) and
      what the code shows besides (X1 to X30). *)

From Stdlib Require Import ZArith NArith List String Ascii Bool Lia.
From Stdlib Require DecimalString.
From stdpp Require Import base option list gmap.

Open Scope Z_scope.

(* ===================================================================== *)
(** ** JavaScript strings *)
(* ===================================================================== *)

Module Js.

(** A JavaScript string is a sequence of UTF-16 code units; [s.length] is
    the number of code units. *)
Definition jsstring := list N.

(** The source file is UTF-8 text.  [utf16] reads a literal of the source
    (the bytes between its quotes) as the string value it denotes. *)
Fixpoint utf16_of_utf8 (bs : list N) : jsstring :=
  match bs with
  | [] => []
  | b0 :: r0 =>
    if (b0 <? 0x80)%N then b0 :: utf16_of_utf8 r0
    else match r0 with
    | [] => []
    | b1 :: r1 =>
      if (b0 <? 0xE0)%N then
        N.lor (N.shiftl (N.land b0 0x1F) 6) (N.land b1 0x3F) :: utf16_of_utf8 r1
      else match r1 with
      | [] => []
      | b2 :: r2 =>
        if (b0 <? 0xF0)%N then
          N.lor (N.shiftl (N.land b0 0x0F) 12)
            (N.lor (N.shiftl (N.land b1 0x3F) 6) (N.land b2 0x3F))
          :: utf16_of_utf8 r2
        else match r2 with
        | [] => []
        | b3 :: r3 =>
          let cp := N.lor (N.shiftl (N.land b0 0x07) 18)
                      (N.lor (N.shiftl (N.land b1 0x3F) 12)
                         (N.lor (N.shiftl (N.land b2 0x3F) 6) (N.land b3 0x3F))) in
          let v := (cp - 0x10000)%N in
          (0xD800 + N.shiftr v 10)%N :: (0xDC00 + N.land v 0x3FF)%N
          :: utf16_of_utf8 r3
        end
      end
    end
  end.

Definition utf16 (s : string) : jsstring :=
  utf16_of_utf8 (map N_of_ascii (list_ascii_of_string s)).

(** Code units of the characters the service tests for. *)
Definition ch (a : ascii) : N := N_of_ascii a.

(** [s.startsWith(p)] *)
Fixpoint startsWith (p s : jsstring) : bool :=
  match p, s with
  | [], _ => true
  | _ :: _, [] => false
  | a :: p', b :: s' => (a =? b)%N && startsWith p' s'
  end.

(** [s.split(sep)] for a one-character separator: the pieces between the
    separators, in order; never an empty array. *)
Fixpoint split (sep : N) (s : jsstring) : list jsstring :=
  match s with
  | [] => [[]]
  | c :: s' =>
    if (c =? sep)%N then [] :: split sep s'
    else match split sep s' with
         | [] => [[c]]
         | p :: ps => (c :: p) :: ps
         end
  end.

Definition in_range (lo hi : ascii) (c : N) : bool :=
  (ch lo <=? c)%N && (c <=? ch hi)%N.

(** The character class [a-fA-F0-9x] of the service's regular expression. *)
Definition hex_or_x (c : N) : bool :=
  in_range "a" "f" c || in_range "A" "F" c || in_range "0" "9" c
  || (c =? ch "x")%N.

(** [s.replace(/[^a-fA-F0-9x]/g, '')]: every code unit outside the class is
    removed. *)
Definition strip_non_hex (s : jsstring) : jsstring :=
  List.filter hex_or_x s.

(** [s.toLowerCase()] and [s.toUpperCase()] on the ASCII letters.  The
    service and the address helpers only apply them to addresses, which
    are ASCII. *)
Definition lower (c : N) : N :=
  if in_range "A" "Z" c then (c + 32)%N else c.
Definition upper (c : N) : N :=
  if in_range "a" "z" c then (c - 32)%N else c.
Definition toLowerCase (s : jsstring) : jsstring := map lower s.
Definition toUpperCase (s : jsstring) : jsstring := map upper s.

(** [a === b] on strings. *)
Definition str_eqb (a b : jsstring) : bool := bool_decide (a = b).

(** A thrown [Error] is represented by its [message]; an awaited call
    either throws or yields a value. *)
Definition result (A : Type) : Type := jsstring + A.
Definition throw {A} (message : jsstring) : result A := inl message.
Definition ok {A} (a : A) : result A := inr a.

End Js.

Import Js.

(* ===================================================================== *)
(** ** Keccak-256 *)
(* ===================================================================== *)

(** ethers' address checksum hashes with Keccak-256 (the original padding,
    rate 136 bytes).  Bytes are [Z] in [0, 256); lanes are 64-bit [Z]. *)
Module Keccak.

Definition mask64 : Z := 0xFFFFFFFFFFFFFFFF.

Definition rotl64 (x n : Z) : Z :=
  Z.lor (Z.land (Z.shiftl x n) mask64) (Z.shiftr x (64 - n)).

Definition lane (st : list Z) (i : nat) : Z := nth i st 0.

Definition idx5 : list nat := [0; 1; 2; 3; 4]%nat.
Definition idx25 : list nat := seq 0 25.

Definition rotation_offsets : list Z :=
  [ 0;  1; 62; 28; 27;
   36; 44;  6; 55; 20;
    3; 10; 43; 25; 39;
   41; 45; 15; 21;  8;
   18;  2; 61; 56; 14].

Definition round_constants : list Z :=
  [0x0000000000000001; 0x0000000000008082; 0x800000000000808A;
   0x8000000080008000; 0x000000000000808B; 0x0000000080000001;
   0x8000000080008081; 0x8000000000008009; 0x000000000000008A;
   0x0000000000000088; 0x0000000080008009; 0x000000008000000A;
   0x000000008000808B; 0x800000000000008B; 0x8000000000008089;
   0x8000000000008003; 0x8000000000008002; 0x8000000000000080;
   0x000000000000800A; 0x800000008000000A; 0x8000000080008081;
   0x8000000000008080; 0x0000000080000001; 0x8000000080008008].

Definition theta (a : list Z) : list Z :=
  let c := map (fun x =>
             Z.lxor (lane a x) (Z.lxor (lane a (x + 5)) (Z.lxor (lane a (x + 10))
               (Z.lxor (lane a (x + 15)) (lane a (x + 20)))))) idx5 in
  let d := map (fun x =>
             Z.lxor (lane c ((x + 4) mod 5)) (rotl64 (lane c ((x + 1) mod 5)) 1))
             idx5 in
  map (fun i => Z.lxor (lane a i) (lane d (i mod 5))) idx25.

(** rho and pi together: lane (x, y) of the result is lane (x + 3y, x) of
    the argument, rotated by that lane's offset. *)
Definition rho_pi (a : list Z) : list Z :=
  map (fun j =>
         let X := (j mod 5)%nat in
         let Y := (j / 5)%nat in
         let src := ((X + 3 * Y) mod 5 + 5 * X)%nat in
         rotl64 (lane a src) (nth src rotation_offsets 0)) idx25.

Definition chi (b : list Z) : list Z :=
  map (fun i =>
         let x := (i mod 5)%nat in
         let y := (i / 5)%nat in
         Z.lxor (lane b i)
           (Z.ldiff (lane b ((x + 2) mod 5 + 5 * y)) (lane b ((x + 1) mod 5 + 5 * y))))
      idx25.

Definition iota (rc : Z) (a : list Z) : list Z :=
  match a with
  | [] => []
  | a0 :: rest => Z.lxor a0 rc :: rest
  end.

Definition round (a : list Z) (rc : Z) : list Z :=
  iota rc (chi (rho_pi (theta a))).

Definition keccak_f (a : list Z) : list Z := fold_left round round_constants a.

Fixpoint lane_of_bytes (bs : list Z) : Z :=
  match bs with
  | [] => 0
  | b :: r => Z.lor b (Z.shiftl (lane_of_bytes r) 8)
  end.

Fixpoint bytes_of_lane (n : nat) (x : Z) : list Z :=
  match n with
  | O => []
  | S n' => Z.land x 0xFF :: bytes_of_lane n' (Z.shiftr x 8)
  end.

Fixpoint lanes_of_bytes (n : nat) (bs : list Z) : list Z :=
  match n with
  | O => []
  | S n' => lane_of_bytes (firstn 8 bs) :: lanes_of_bytes n' (skipn 8 bs)
  end.

Definition rate : nat := 136.

Definition xor_block (st : list Z) (block : list Z) : list Z :=
  let ls := lanes_of_bytes 17 block in
  map (fun i => Z.lxor (lane st i) (lane ls i)) idx25.

Fixpoint absorb (fuel : nat) (st : list Z) (bs : list Z) : list Z :=
  match fuel with
  | O => st
  | S fuel' =>
    match bs with
    | [] => st
    | _ => absorb fuel' (keccak_f (xor_block st (firstn rate bs))) (skipn rate bs)
    end
  end.

Definition pad (msg : list Z) : list Z :=
  let k := (rate - (length msg mod rate))%nat in
  if (k =? 1)%nat then msg ++ [0x81]
  else msg ++ [0x01] ++ repeat 0 (k - 2) ++ [0x80].

Definition keccak256 (msg : list Z) : list Z :=
  let p := pad msg in
  let st := absorb (length p) (repeat 0 25) p in
  firstn 32 (flat_map (bytes_of_lane 8) st).

End Keccak.

(* ===================================================================== *)
(** ** Bytes, hexadecimal text and big-endian words *)
(* ===================================================================== *)

Module Bytes.

Definition hex_digit (n : Z) : N :=
  if n <? 10 then (48 + Z.to_N n)%N else (87 + Z.to_N n)%N.

(** [hexlify]: ["0x"] and two lower-case digits per byte. *)
Definition hexlify (bs : list Z) : jsstring :=
  utf16 "0x" ++ flat_map (fun b => [hex_digit (Z.shiftr b 4); hex_digit (Z.land b 0x0F)]) bs.

Definition hex_value (c : N) : Z :=
  if in_range "0" "9" c then Z.of_N c - 48
  else if in_range "a" "f" c then Z.of_N c - 87
  else Z.of_N c - 55.

Fixpoint bytes_of_hex (cs : jsstring) : list Z :=
  match cs with
  | hi :: lo :: rest => (16 * hex_value hi + hex_value lo) :: bytes_of_hex rest
  | _ => []
  end.

(** The [n] low bytes of [x], most significant first. *)
Fixpoint big_endian (n : nat) (x : Z) : list Z :=
  match n with
  | O => []
  | S n' => big_endian n' (Z.shiftr x 8) ++ [Z.land x 0xFF]
  end.

(** The number a byte string denotes, most significant byte first. *)
Definition of_big_endian (bs : list Z) : Z :=
  fold_left (fun acc b => Z.lor (Z.shiftl acc 8) b) bs 0.

End Bytes.

(* ===================================================================== *)
(** ** The ethers v5 helpers the service calls *)
(* ===================================================================== *)

(** [ethers] is a dependency of the backend, not part of the repository.
    These are its pure helpers as the service uses them
    ([ethers.utils.isAddress], [toUtf8Bytes], [formatBytes32String],
    [ethers.constants.AddressZero]).  [isAddress] covers the hexadecimal
    form; the ICAP form ([XE..]) that ethers also accepts starts with a
    capital [X], which the service's filter removes before it calls
    [isAddress] (lemma [strip_never_icap] below). *)
Module Ethers.

Definition AddressZero : jsstring :=
  utf16 "0x0000000000000000000000000000000000000000".

Definition is_hex_digit (c : N) : bool :=
  in_range "0" "9" c || in_range "a" "f" c || in_range "A" "F" c.

(** [address.match(/^(0x)?[0-9a-fA-F]{40}$/)] *)
Definition matches_hex_address (address : jsstring) : bool :=
  let body := if startsWith (utf16 "0x") address then skipn 2 address else address in
  (length body =? 40)%nat && forallb is_hex_digit body.

Definition nibble (hashed : list Z) (i : nat) : Z :=
  let b := nth (i / 2) hashed 0 in
  if Nat.even i then Z.shiftr b 4 else Z.land b 0x0F.

(** [getChecksumAddress]: the EIP-55 capitalisation of a ["0x"]-prefixed
    address. *)
Definition getChecksumAddress (address : jsstring) : jsstring :=
  let chars := skipn 2 (toLowerCase address) in
  let hashed := Keccak.keccak256 (map Z.of_N chars) in
  utf16 "0x" ++ imap (fun i c => if 8 <=? nibble hashed i then upper c else c) chars.

(** [address.match(/([A-F].*[a-f])|([a-f].*[A-F])/)]: both an upper-case
    and a lower-case hexadecimal letter occur. *)
Definition mixed_case (address : jsstring) : bool :=
  existsb (in_range "A" "F") address && existsb (in_range "a" "f") address.

(** [getAddress]; [None] when it throws. *)
Definition getAddress (address : jsstring) : option jsstring :=
  if matches_hex_address address then
    let address :=
      if str_eqb (firstn 2 address) (utf16 "0x") then address
      else utf16 "0x" ++ address in
    let result := getChecksumAddress address in
    if mixed_case address && negb (str_eqb result address) then None
    else Some result
  else None.

Definition isAddress (address : jsstring) : bool :=
  match getAddress address with Some _ => true | None => false end.

Definition msg_invalid_utf8 : jsstring := utf16 "invalid utf-8 string".
Definition msg_bytes32_too_long : jsstring :=
  utf16 "bytes32 string must be less than 32 bytes".

Definition byte (n : N) : Z := Z.of_N n.

(** [toUtf8Bytes(str)]: a high surrogate must be followed by a low one. *)
Fixpoint toUtf8Bytes (str : jsstring) : result (list Z) :=
  match str with
  | [] => ok []
  | c :: rest =>
    if (c <? 0x80)%N then
      match toUtf8Bytes rest with
      | inl e => inl e
      | inr bs => ok (byte c :: bs)
      end
    else if (c <? 0x800)%N then
      match toUtf8Bytes rest with
      | inl e => inl e
      | inr bs =>
        ok (byte (N.lor (N.shiftr c 6) 0xc0) :: byte (N.lor (N.land c 0x3f) 0x80) :: bs)
      end
    else if (N.land c 0xfc00 =? 0xd800)%N then
      match rest with
      | [] => throw msg_invalid_utf8
      | c2 :: rest' =>
        if negb (N.land c2 0xfc00 =? 0xdc00)%N then throw msg_invalid_utf8
        else
          let pair := (0x10000 + N.shiftl (N.land c 0x03ff) 10 + N.land c2 0x03ff)%N in
          match toUtf8Bytes rest' with
          | inl e => inl e
          | inr bs =>
            ok (byte (N.lor (N.shiftr pair 18) 0xf0)
                :: byte (N.lor (N.land (N.shiftr pair 12) 0x3f) 0x80)
                :: byte (N.lor (N.land (N.shiftr pair 6) 0x3f) 0x80)
                :: byte (N.lor (N.land pair 0x3f) 0x80) :: bs)
          end
      end
    else
      match toUtf8Bytes rest with
      | inl e => inl e
      | inr bs =>
        ok (byte (N.lor (N.shiftr c 12) 0xe0)
            :: byte (N.lor (N.land (N.shiftr c 6) 0x3f) 0x80)
            :: byte (N.lor (N.land c 0x3f) 0x80) :: bs)
      end
  end.

(** [formatBytes32String(text)]: the UTF-8 bytes, zero-padded to 32 bytes;
    throws when they are more than 31. *)
Definition formatBytes32String (text : jsstring) : result (list Z) :=
  match toUtf8Bytes text with
  | inl e => inl e
  | inr bytes =>
    if (31 <? length bytes)%nat then throw msg_bytes32_too_long
    else ok (firstn 32 (bytes ++ repeat 0 32))
  end.

End Ethers.

(* ===================================================================== *)
(** ** back/src/did/did.service.ts *)
(* ===================================================================== *)

Module Wallet.
(** [ethers.Wallet]: the fields the service reads. *)
Record t := { address : jsstring; publicKey : jsstring; privateKey : jsstring }.
End Wallet.

Module Did.

(** A [TransactionResponse] ([await registry.f(..)]) and the receipt that
    [await tx.wait()] yields. *)
Record Tx := { hash : jsstring }.
Record Receipt := { transactionHash : jsstring }.

(** [signingKey.signDigest(..)]: the fields the service destructures. *)
Record Signature := { v : Z; r : list Z; s : list Z }.

(** The state-changing functions of [registryAbi], with the arguments the
    service passes; [gasLimit] is the override object when there is one. *)
Inductive Write :=
| changeOwner (identity newOwner : jsstring) (gasLimit : option Z)
| changeOwnerSigned (identity : jsstring) (sigV : Z) (sigR sigS : list Z)
    (newOwner : jsstring)
| setAttribute (identity : jsstring) (name value : list Z) (validity : Z)
    (gasLimit : option Z)
| revokeAttribute (identity : jsstring) (name value : list Z)
    (gasLimit : option Z).

(** What the service asks of the chain, in the order it asks. *)
Inductive Call :=
| call_identityOwner (identity : jsstring)
| call_nonce (identity : jsstring)
| call_send (w : Write)
| call_wait (tx : Tx).

(** The typed values handed to [solidityKeccak256]. *)
Inductive SolValue :=
| sol_bytes1 (b : Z)
| sol_address (a : jsstring)
| sol_uint256 (n : Z)
| sol_string (str : jsstring).

(** The result of [registerDid]. *)
Module Registration.
Record t := {
  did : jsstring; address : jsstring; publicKey : jsstring;
  privateKey : jsstring; transactionHash : jsstring; note : jsstring }.
End Registration.

(** The result of [addAttribute], [removeAttribute] and [deleteDid]. *)
Module Outcome.
Record t := { success : bool; transactionHash : jsstring; did : jsstring }.
End Outcome.

(** The JSON-RPC provider, the chain behind it and the key material of
    ethers, over a world [W] of which nothing is assumed: every awaited
    call may throw and may change the world. *)
Record Env (W : Type) := {
  identityOwner : jsstring -> W -> result jsstring * W;
  nonce : jsstring -> W -> result Z * W;
  send : Write -> W -> result Tx * W;
  wait : Tx -> W -> result Receipt * W;
  createRandom : W -> Wallet.t * W;
  solidityKeccak256 : list SolValue -> result (list Z);
  signDigest : jsstring -> list Z -> Signature }.

Arguments identityOwner {W}.
Arguments nonce {W}.
Arguments send {W}.
Arguments wait {W}.
Arguments createRandom {W}.
Arguments solidityKeccak256 {W}.
Arguments signDigest {W}.

(** The fields of a [DidService] instance that the operations read (set
    once by the constructor). *)
Record DidService := { registryAddress : jsstring; adminWallet : Wallet.t }.

(** The inline block "DIDからアドレスを正しく抽出", textually the same in
    [addAttribute], [removeAttribute] and [deleteDid]: the value it leaves
    in [identity], or the error it throws. *)
Definition extractIdentity (did : jsstring) : result jsstring :=
  if startsWith (utf16 "did:ethr:") did then
    let parts := split (ch ":") did in
    let identity := strip_non_hex (List.last parts []) in
    if negb (Ethers.isAddress identity) then
      throw (utf16 "無効なDIDアドレス形式: " ++ identity)
    else ok identity
  else throw (utf16 "サポートされていないDID形式: " ++ did).

Section Service.

Context {W : Type}.
Variable env : Env W.
Variable this : DidService.

(** An [async] computation: the world and the trace of calls issued so
    far go in, a value or a thrown error comes out with the new world and
    trace. *)
Definition M (A : Type) : Type := W * list Call -> result A * (W * list Call).

Definition ret {A} (a : A) : M A := fun st => (ok a, st).
Definition raise {A} (message : jsstring) : M A := fun st => (throw message, st).
Definition lift {A} (x : result A) : M A := fun st => (x, st).
Definition bind {A B} (m : M A) (k : A -> M B) : M B :=
  fun st =>
    match m st with
    | (inl e, st') => (inl e, st')
    | (inr a, st') => k a st'
    end.
(** [try { m } catch (error) { h error.message }] *)
Definition try_catch {A} (m : M A) (h : jsstring -> M A) : M A :=
  fun st =>
    match m st with
    | (inl e, st') => h e st'
    | (inr a, st') => (inr a, st')
    end.
(** One awaited call: it is appended to the trace and handed to [env]. *)
Definition perform {A} (c : Call) (f : W -> result A * W) : M A :=
  fun st =>
    let '(x, w') := f (fst st) in (x, (w', snd st ++ [c])).

#[local] Notation "x <- m ;; k" := (bind m (fun x => k))
  (at level 100, m at next level, right associativity).

Definition registry_identityOwner (identity : jsstring) : M jsstring :=
  perform (call_identityOwner identity) (identityOwner env identity).
Definition registry_nonce (identity : jsstring) : M Z :=
  perform (call_nonce identity) (nonce env identity).
Definition registry_send (w : Write) : M Tx :=
  perform (call_send w) (send env w).
Definition tx_wait (tx : Tx) : M Receipt :=
  perform (call_wait tx) (wait env tx).
Definition Wallet_createRandom : M Wallet.t :=
  fun st => let '(wl, w') := createRandom env (fst st) in (ok wl, (w', snd st)).

Definition admin : jsstring := Wallet.address (adminWallet this).

Definition ensureAdminRegistered : M unit :=
  currentOwner <- registry_identityOwner admin ;;
  if str_eqb currentOwner Ethers.AddressZero then
    tx <- registry_send (changeOwner admin admin None) ;;
    _ <- tx_wait tx ;;
    ret tt
  else ret tt.

Definition registerDid : M Registration.t :=
  _ <- ensureAdminRegistered ;;
  newWallet <- Wallet_createRandom ;;
  let did := utf16 "did:ethr:sepolia:" ++ Wallet.address newWallet in
  try_catch
    (nonce <- registry_nonce (Wallet.address newWallet) ;;
     messageHash <- lift (solidityKeccak256 env
       [sol_bytes1 0x19; sol_bytes1 0x00; sol_address (registryAddress this);
        sol_uint256 nonce; sol_address (Wallet.address newWallet);
        sol_string (utf16 "changeOwner"); sol_address admin]) ;;
     let sig := signDigest env (Wallet.privateKey newWallet) messageHash in
     tx <- registry_send
       (changeOwnerSigned (Wallet.address newWallet) (v sig) (r sig) (s sig) admin) ;;
     receipt <- tx_wait tx ;;
     _ <- try_catch
       (pubKeyName <- lift (Ethers.formatBytes32String
                              (utf16 "did/pub/secp256k1/veriKey")) ;;
        pubKeyValue <- lift (Ethers.toUtf8Bytes (Wallet.publicKey newWallet)) ;;
        let validity := 31536000 in
        pubKeyTx <- registry_send
          (setAttribute (Wallet.address newWallet) pubKeyName pubKeyValue validity
             (Some 300000)) ;;
        _ <- tx_wait pubKeyTx ;;
        ret tt)
       (fun attrError => ret tt) ;;
     ret {| Registration.did := did;
            Registration.address := Wallet.address newWallet;
            Registration.publicKey := Wallet.publicKey newWallet;
            Registration.privateKey := Wallet.privateKey newWallet;
            Registration.transactionHash := transactionHash receipt;
            Registration.note := utf16 "DID登録完了" |})
    (fun error => raise (utf16 "DID登録処理に失敗しました: " ++ error)).

Definition addAttribute (did attributeName attributeValue : jsstring)
  : M Outcome.t :=
  _ <- ensureAdminRegistered ;;
  try_catch
    (identity <- lift (extractIdentity did) ;;
     currentOwner <- registry_identityOwner identity ;;
     if negb (str_eqb (toLowerCase currentOwner) (toLowerCase admin)) then
       raise (utf16 "権限不足: adminWallet (" ++ admin ++ utf16 ") は DID "
              ++ identity ++ utf16 " の所有者ではありません。現在の所有者: "
              ++ currentOwner)
     else if (31 <? length attributeName)%nat then
       raise (utf16 "属性名が長すぎます（31文字以内）: " ++ attributeName)
     else
       name <- lift (Ethers.formatBytes32String attributeName) ;;
       value <- lift (Ethers.toUtf8Bytes attributeValue) ;;
       let validity := 31536000 in
       tx <- registry_send (setAttribute identity name value validity (Some 300000)) ;;
       receipt <- tx_wait tx ;;
       ret {| Outcome.success := true;
              Outcome.transactionHash := transactionHash receipt;
              Outcome.did := did |})
    (fun error => raise (utf16 "属性追加に失敗しました: " ++ error)).

Definition removeAttribute (did attributeName : jsstring) : M Outcome.t :=
  _ <- ensureAdminRegistered ;;
  try_catch
    (identity <- lift (extractIdentity did) ;;
     name <- lift (Ethers.formatBytes32String attributeName) ;;
     value <- lift (Ethers.toUtf8Bytes (utf16 "")) ;;
     tx <- registry_send (revokeAttribute identity name value (Some 200000)) ;;
     receipt <- tx_wait tx ;;
     ret {| Outcome.success := true;
            Outcome.transactionHash := transactionHash receipt;
            Outcome.did := did |})
    (fun error => raise (utf16 "属性削除に失敗しました: " ++ error)).

Definition deleteDid (did : jsstring) : M Outcome.t :=
  _ <- ensureAdminRegistered ;;
  try_catch
    (identity <- lift (extractIdentity did) ;;
     tx <- registry_send (changeOwner identity Ethers.AddressZero (Some 200000)) ;;
     receipt <- tx_wait tx ;;
     ret {| Outcome.success := true;
            Outcome.transactionHash := transactionHash receipt;
            Outcome.did := did |})
    (fun error => raise (utf16 "DID削除に失敗しました: " ++ error)).

End Service.

End Did.

(* ===================================================================== *)
(** ** One environment: the ERC-1056 registry behind a faulty transport *)
(* ===================================================================== *)

(** The registry contract the service is configured with
    ([EthereumDIDRegistry], ERC-1056) is deployed on chain and is not part
    of the repository.  This module is one [Did.Env]: the ownership logic
    of that contract ([owners], [nonce], [identityOwner], [changeOwner],
    [changeOwnerSigned], the owner check of [setAttribute] and
    [revokeAttribute]) reached through a transport that may fail on any
    request.  The general theorems on the service quantify over every
    [Did.Env]; this one gives them concrete worlds to run in.  Signatures
    are symbolic: a signature carries the digest and the signing key. *)
Module Registry.

Import Did Bytes.

Record World := {
  this_address : jsstring;          (* the address the contract is deployed at *)
  msg_sender : jsstring;            (* the signer the Contract object is connected to *)
  owners : gmap jsstring jsstring;  (* [owners]; no entry is the zero address *)
  nonces : gmap jsstring Z;         (* [nonce] *)
  sent : nat;                       (* transactions sent so far *)
  reverted : list jsstring;         (* hashes of the transactions mined as reverted *)
  faults : list bool;               (* for each coming request: does the transport throw *)
  wallets : list Wallet.t;          (* key pairs in existence *)
  entropy : list Wallet.t }.        (* what [Wallet.createRandom] will draw *)

Definition msg_network : jsstring := utf16 "could not detect network".
Definition msg_invalid_address : jsstring := utf16 "invalid address".
Definition msg_cannot_estimate : jsstring := utf16 "cannot estimate gas".
Definition msg_transaction_failed : jsstring := utf16 "transaction failed".

(** Addresses are compared as addresses, not as strings: in lower case,
    with the ["0x"] prefix. *)
Definition key (a : jsstring) : jsstring :=
  toLowerCase (if startsWith (utf16 "0x") a then a else utf16 "0x" ++ a).

(** An address as ethers hands it out: with its checksum capitals. *)
Definition checksummed (a : jsstring) : jsstring :=
  match Ethers.getAddress a with Some c => c | None => a end.

(** [owners[identity]] *)
Definition owner_entry (w : World) (identity : jsstring) : jsstring :=
  match owners w !! key identity with
  | Some o => o
  | None => Ethers.AddressZero
  end.

(** The contract's [identityOwner(identity)]: the entry, or the identity
    itself while the entry is the zero address. *)
Definition identityOwner_view (w : World) (identity : jsstring) : jsstring :=
  let owner := owner_entry w identity in
  if negb (str_eqb (key owner) (key Ethers.AddressZero)) then owner else identity.

Definition nonce_view (w : World) (a : jsstring) : Z :=
  match nonces w !! key a with Some n => n | None => 0 end.

Definition address_bytes (a : jsstring) : list Z := bytes_of_hex (skipn 2 (checksummed a)).

Definition pack (x : SolValue) : result (list Z) :=
  match x with
  | sol_bytes1 b => ok [b]
  | sol_address a =>
    if Ethers.isAddress a then ok (address_bytes a) else throw msg_invalid_address
  | sol_uint256 n => ok (big_endian 32 n)
  | sol_string str => Ethers.toUtf8Bytes str
  end.

Fixpoint pack_all (xs : list SolValue) : result (list Z) :=
  match xs with
  | [] => ok []
  | x :: rest =>
    match pack x, pack_all rest with
    | inr a, inr b => ok (a ++ b)
    | inl e, _ => inl e
    | _, inl e => inl e
    end
  end.

Definition solidityKeccak256 (xs : list SolValue) : result (list Z) :=
  match pack_all xs with
  | inr bs => ok (Keccak.keccak256 bs)
  | inl e => inl e
  end.

Definition key_bytes (privateKey : jsstring) : list Z := map Z.of_N privateKey.

Definition signDigest (privateKey : jsstring) (digest : list Z) : Signature :=
  {| v := 27; r := digest; s := key_bytes privateKey |}.

(** [ecrecover]: the address of the key pair that made the signature, when
    it is a signature of [digest]. *)
Definition ecrecover (w : World) (digest : list Z) (sigR sigS : list Z)
  : option jsstring :=
  if bool_decide (sigR = digest) then
    match List.find (fun k => bool_decide (key_bytes (Wallet.privateKey k) = sigS))
            (wallets w) with
    | Some k => Some (Wallet.address k)
    | None => None
    end
  else None.

Definition same_address (a b : jsstring) : bool := str_eqb (key a) (key b).

Definition set_owner (w : World) (identity newOwner : jsstring) : World :=
  {| this_address := this_address w; msg_sender := msg_sender w;
     owners := <[key identity := newOwner]> (owners w);
     nonces := nonces w; sent := sent w; reverted := reverted w;
     faults := faults w; wallets := wallets w; entropy := entropy w |}.

Definition bump_nonce (w : World) (signer : jsstring) : World :=
  {| this_address := this_address w; msg_sender := msg_sender w;
     owners := owners w;
     nonces := <[key signer := nonce_view w signer + 1]> (nonces w);
     sent := sent w; reverted := reverted w;
     faults := faults w; wallets := wallets w; entropy := entropy w |}.

(** The contract call of a transaction: the new storage, or [None] when
    the call reverts. *)
Definition execute (w : World) (c : Write) : option World :=
  match c with
  | changeOwner identity newOwner _ =>
    if same_address (msg_sender w) (identityOwner_view w identity)
    then Some (set_owner w identity newOwner) else None
  | changeOwnerSigned identity sigV sigR sigS newOwner =>
    match solidityKeccak256
            [sol_bytes1 0x19; sol_bytes1 0x00; sol_address (this_address w);
             sol_uint256 (nonce_view w (identityOwner_view w identity));
             sol_address identity; sol_string (utf16 "changeOwner");
             sol_address newOwner] with
    | inr digest =>
      match ecrecover w digest sigR sigS with
      | Some signer =>
        if same_address signer (identityOwner_view w identity)
        then Some (set_owner (bump_nonce w signer) identity newOwner) else None
      | None => None
      end
    | inl _ => None
    end
  | setAttribute identity _ _ _ _ =>
    if same_address (msg_sender w) (identityOwner_view w identity) then Some w else None
  | revokeAttribute identity _ _ _ =>
    if same_address (msg_sender w) (identityOwner_view w identity) then Some w else None
  end.

Definition write_addresses (c : Write) : list jsstring :=
  match c with
  | changeOwner identity newOwner _ => [identity; newOwner]
  | changeOwnerSigned identity _ _ _ newOwner => [identity; newOwner]
  | setAttribute identity _ _ _ _ => [identity]
  | revokeAttribute identity _ _ _ => [identity]
  end.

Definition write_gasLimit (c : Write) : option Z :=
  match c with
  | changeOwner _ _ g => g
  | changeOwnerSigned _ _ _ _ _ => None
  | setAttribute _ _ _ _ g => g
  | revokeAttribute _ _ _ g => g
  end.

(** One request goes through the transport: it consumes the next fault
    flag. *)
Definition request (w : World) : bool * World :=
  (match faults w with b :: _ => b | [] => false end,
   {| this_address := this_address w; msg_sender := msg_sender w;
      owners := owners w; nonces := nonces w; sent := sent w;
      reverted := reverted w; faults := tl (faults w);
      wallets := wallets w; entropy := entropy w |}).

Definition tx_hash (n : nat) : jsstring := hexlify (Keccak.keccak256 [Z.of_nat n]).

Definition record_sent (w : World) (failed : bool) : World :=
  {| this_address := this_address w; msg_sender := msg_sender w;
     owners := owners w; nonces := nonces w; sent := S (sent w);
     reverted := if failed then tx_hash (sent w) :: reverted w else reverted w;
     faults := faults w; wallets := wallets w; entropy := entropy w |}.

Definition rpc_identityOwner (identity : jsstring) (w : World)
  : result jsstring * World :=
  let '(fault, w1) := request w in
  if fault then (throw msg_network, w1)
  else if negb (Ethers.isAddress identity) then (throw msg_invalid_address, w1)
  else (ok (checksummed (identityOwner_view w1 identity)), w1).

Definition rpc_nonce (identity : jsstring) (w : World) : result Z * World :=
  let '(fault, w1) := request w in
  if fault then (throw msg_network, w1)
  else if negb (Ethers.isAddress identity) then (throw msg_invalid_address, w1)
  else (ok (nonce_view w1 identity), w1).

(** Sending: ethers checks the address arguments, estimates gas when no
    [gasLimit] is given (a call that would revert is refused there), and
    the transaction is mined, reverted or not. *)
Definition rpc_send (c : Write) (w : World) : result Tx * World :=
  let '(fault, w1) := request w in
  if fault then (throw msg_network, w1)
  else if negb (forallb Ethers.isAddress (write_addresses c)) then
    (throw msg_invalid_address, w1)
  else
    match execute w1 c, write_gasLimit c with
    | Some w2, _ => (ok {| hash := tx_hash (sent w2) |}, record_sent w2 false)
    | None, None => (throw msg_cannot_estimate, w1)
    | None, Some _ => (ok {| hash := tx_hash (sent w1) |}, record_sent w1 true)
    end.

Definition rpc_wait (tx : Tx) (w : World) : result Receipt * World :=
  let '(fault, w1) := request w in
  if fault then (throw msg_network, w1)
  else if bool_decide (hash tx ∈ reverted w1) then (throw msg_transaction_failed, w1)
  else (ok {| transactionHash := hash tx |}, w1).

(** [Wallet.createRandom()] draws the next key pair of [entropy] (and a
    blank one once the supply of the model is used up). *)
Definition rpc_createRandom (w : World) : Wallet.t * World :=
  match entropy w with
  | k :: rest =>
    (k, {| this_address := this_address w; msg_sender := msg_sender w;
           owners := owners w; nonces := nonces w; sent := sent w;
           reverted := reverted w; faults := faults w;
           wallets := k :: wallets w; entropy := rest |})
  | [] => ({| Wallet.address := Ethers.AddressZero; Wallet.publicKey := [];
              Wallet.privateKey := [] |}, w)
  end.

Definition env : Env World :=
  {| identityOwner := rpc_identityOwner;
     nonce := rpc_nonce;
     send := rpc_send;
     wait := rpc_wait;
     createRandom := rpc_createRandom;
     Did.solidityKeccak256 := solidityKeccak256;
     Did.signDigest := signDigest |}.

End Registry.

(* ===================================================================== *)
(** ** Another environment: a registry with raw owner entries *)
(* ===================================================================== *)

(** The address of the registry is configuration ([ETHR_DID_REGISTRY]).
    This [Did.Env] is a registry of the kind the bootstrap check is
    written for: its [identityOwner] answers with the raw [owners] entry,
    the zero address for an identity nobody has claimed yet, and it
    accepts every write of the admin; its transport never fails. *)
Module RawRegistry.

Import Did.

Record World := {
  owners : gmap jsstring jsstring;  (* no entry is the zero address *)
  sent : nat;                       (* transactions sent so far *)
  entropy : list Wallet.t }.        (* what [Wallet.createRandom] will draw *)

Definition owner_entry (w : World) (identity : jsstring) : jsstring :=
  match owners w !! Registry.key identity with
  | Some o => o
  | None => Ethers.AddressZero
  end.

Definition rpc_identityOwner (identity : jsstring) (w : World)
  : result jsstring * World :=
  (ok (owner_entry w identity), w).

Definition rpc_nonce (identity : jsstring) (w : World) : result Z * World :=
  (ok 0, w).

Definition rpc_send (c : Write) (w : World) : result Tx * World :=
  (ok {| hash := Registry.tx_hash (sent w) |},
   {| owners := match c with
                | changeOwner identity newOwner _
                | changeOwnerSigned identity _ _ _ newOwner =>
                  <[Registry.key identity := newOwner]> (owners w)
                | _ => owners w
                end;
      sent := S (sent w);
      entropy := entropy w |}).

Definition rpc_wait (tx : Tx) (w : World) : result Receipt * World :=
  (ok {| transactionHash := hash tx |}, w).

Definition rpc_createRandom (w : World) : Wallet.t * World :=
  match entropy w with
  | k :: rest => (k, {| owners := owners w; sent := sent w; entropy := rest |})
  | [] => ({| Wallet.address := Ethers.AddressZero; Wallet.publicKey := [];
              Wallet.privateKey := [] |}, w)
  end.

Definition env : Env World :=
  {| identityOwner := rpc_identityOwner;
     nonce := rpc_nonce;
     send := rpc_send;
     wait := rpc_wait;
     createRandom := rpc_createRandom;
     Did.solidityKeccak256 := Registry.solidityKeccak256;
     Did.signDigest := Registry.signDigest |}.

End RawRegistry.

(* ===================================================================== *)
(** ** EIP-4437/contracts/SimpleAccount.sol *)
(* ===================================================================== *)

(** What a reverting call carries back. *)
Inductive Revert :=
| Error (reason : string)          (* [require(c, reason)] *)
| Panic (code : Z)                 (* checked arithmetic *)
| LibraryError (name : string)     (* a custom error of an imported library *)
| Bubbled (returndata : list Z)    (* the callee's revert data, re-thrown *)
| CreateFailed.                    (* [new] could not create the contract *)

Definition uint256_max : Z := 2 ^ 256 - 1.

Module SimpleAccount.

(** Storage: [owner] and [_nonce].  [_entryPoint] is immutable and a
    parameter of the code below. *)
Record State := { owner : Z; _nonce : Z }.

Record PackedUserOperation := {
  sender : Z; nonce : Z; initCode : list Z; callData : list Z;
  accountGasLimits : list Z; preVerificationGas : Z; gasFees : list Z;
  paymasterAndData : list Z; signature : list Z }.

(** A low-level [target.call{value: value}(data)]. *)
Record ExtCall := { target : Z; value : Z; data : list Z }.

Inductive Event :=
| SimpleAccountInitialized (entryPoint owner : Z).

(** What a call of the contract does to the outside, in order. *)
Inductive Effect :=
| eff_call (c : ExtCall)
| eff_emit (e : Event).

Definition SIG_VALIDATION_SUCCESS : Z := 0.
Definition SIG_VALIDATION_FAILED : Z := 1.

Section Contract.

(** The rest of the chain, of which nothing is assumed.  A low-level call
    hands control to the callee, which may call back into this account
    before it returns (nothing in the contract prevents it): the call
    returns its success flag and return data, and leaves the chain and
    the storage of this account as the callee left them. *)
Variable Chain : Type.
Variable extcall : State * Chain -> ExtCall -> bool * list Z * (State * Chain).

(** [constructor(IEntryPoint anEntryPoint)] *)
Variable _entryPoint : Z.

(** OpenZeppelin's [MessageHashUtils.toEthSignedMessageHash] and
    [ECDSA.recover]; the latter reverts on a signature it cannot recover
    an address from. *)
Variable toEthSignedMessageHash : list Z -> list Z.
Variable recover : list Z -> list Z -> Revert + Z.

(** A contract call: from the storage and the chain to either a revert or
    a returned value with the new storage and chain, together with the
    effects attempted on the way.  A revert undoes the storage and the
    chain, which is why it carries neither. *)
Definition Sol (A : Type) : Type :=
  State * Chain -> (Revert + A * (State * Chain)) * list Effect.

Definition ret {A} (a : A) : Sol A := fun s => (inr (a, s), []).
Definition revert {A} (r : Revert) : Sol A := fun _ => (inl r, []).
Definition bind {A B} (m : Sol A) (k : A -> Sol B) : Sol B :=
  fun s =>
    match m s with
    | (inl r, t) => (inl r, t)
    | (inr (a, s'), t) => let '(x, t') := k a s' in (x, t ++ t')
    end.
Definition require (c : bool) (reason : string) : Sol unit :=
  if c then ret tt else revert (Error reason).
Definition load : Sol State := fun s => (inr (fst s, s), []).
Definition store (st : State) : Sol unit := fun s => (inr (tt, (st, snd s)), []).
Definition emit (e : Event) : Sol unit := fun s => (inr (tt, s), [eff_emit e]).
Definition low_level_call (c : ExtCall) : Sol (bool * list Z) :=
  fun s =>
    let '(success, returndata, s') := extcall s c in
    (inr ((success, returndata), s'), [eff_call c]).

#[local] Notation "x <- m ;; k" := (bind m (fun x => k))
  (at level 100, m at next level, right associativity).

Definition onlyEntryPoint {A} (msg_sender : Z) (body : Sol A) : Sol A :=
  _ <- require (msg_sender =? _entryPoint) "not from EntryPoint" ;;
  body.

Definition initialize (anOwner : Z) : Sol unit :=
  st <- load ;;
  _ <- require (owner st =? 0) "already initialized" ;;
  _ <- store {| owner := anOwner; _nonce := _nonce st |} ;;
  emit (SimpleAccountInitialized _entryPoint anOwner).

Definition getNonce : Sol Z :=
  st <- load ;; ret (_nonce st).

Definition _call (target value : Z) (data : list Z) : Sol unit :=
  res <- low_level_call {| target := target; value := value; data := data |} ;;
  let '(success, result) := res in
  if negb success then revert (Bubbled result) else ret tt.

Definition execute (msg_sender : Z) (dest value : Z) (func : list Z) : Sol unit :=
  st <- load ;;
  _ <- require ((msg_sender =? _entryPoint) || (msg_sender =? owner st))
         "not authorized" ;;
  _call dest value func.

Definition _validateSignature (userOp : PackedUserOperation) (userOpHash : list Z)
  : Sol Z :=
  let hash := toEthSignedMessageHash userOpHash in
  match recover hash (signature userOp) with
  | inl r => revert r
  | inr recovered =>
    st <- load ;;
    if negb (owner st =? recovered) then ret SIG_VALIDATION_FAILED
    else ret SIG_VALIDATION_SUCCESS
  end.

Definition _validateNonce (nonce : Z) : Sol unit :=
  st <- load ;;
  _ <- require (nonce =? _nonce st) "invalid nonce" ;;
  if _nonce st =? uint256_max then revert (Panic 0x11)
  else store {| owner := owner st; _nonce := _nonce st + 1 |}.

Definition _payPrefund (msg_sender : Z) (missingAccountFunds : Z) : Sol unit :=
  if negb (missingAccountFunds =? 0) then
    res <- low_level_call
             {| target := msg_sender; value := missingAccountFunds; data := [] |} ;;
    require (fst res) "prefund failed"
  else ret tt.

Definition validateUserOp (msg_sender : Z) (userOp : PackedUserOperation)
    (userOpHash : list Z) (missingAccountFunds : Z) : Sol Z :=
  onlyEntryPoint msg_sender
    (validationData <- _validateSignature userOp userOpHash ;;
     _ <- _validateNonce (nonce userOp) ;;
     _ <- _payPrefund msg_sender missingAccountFunds ;;
     ret validationData).

(** [address(this)], and whether an address of the chain holds code. *)
Variable this : Z.
Variable has_code : Chain -> Z -> bool.

Definition onlyOwner {A} (msg_sender : Z) (body : Sol A) : Sol A :=
  st <- load ;;
  _ <- require ((msg_sender =? owner st) || (msg_sender =? this)) "only owner" ;;
  body.

Definition entryPoint : Sol Z := ret _entryPoint.

(** [a[i]] on a calldata array; an index out of range is [Panic(0x32)]. *)
Definition index {A} (a : list A) (i : nat) : Sol A :=
  match a !! i with
  | Some x => ret x
  | None => revert (Panic 0x32)
  end.

(** [for (uint256 i = first; i < first + count; i++) body(i)] *)
Fixpoint for_loop (count first : nat) (body : nat -> Sol unit) : Sol unit :=
  match count with
  | O => ret tt
  | S count' => _ <- body first ;; for_loop count' (S first) body
  end.

Definition executeBatch (msg_sender : Z) (dest value : list Z) (func : list (list Z))
  : Sol unit :=
  st <- load ;;
  _ <- require ((msg_sender =? _entryPoint) || (msg_sender =? owner st))
         "not authorized" ;;
  _ <- require ((length dest =? length func)%nat
                && ((length value =? 0)%nat || (length value =? length func)%nat))
         "wrong array lengths" ;;
  if (length value =? 0)%nat then
    for_loop (length dest) 0 (fun i =>
      d <- index dest i ;;
      f <- index func i ;;
      _call d 0 f)
  else
    for_loop (length dest) 0 (fun i =>
      d <- index dest i ;;
      v <- index value i ;;
      f <- index func i ;;
      _call d v f).

(** The calldata of a call through an interface: the selector of the
    signature and the arguments, each of one word. *)
Definition encodeCall (sig : string) (args : list Z) : list Z :=
  firstn 4 (Keccak.keccak256 (map Z.of_N (utf16 sig)))
  ++ flat_map (Bytes.big_endian 32) args.

(** [target.f{value: value}(args)] for an [f] that returns nothing:
    Solidity reverts, with no data, when the target holds no code, and
    re-throws the callee's revert data when the call fails. *)
Definition interface_call (c : ExtCall) : Sol unit :=
  fun s =>
    if has_code (snd s) (target c) then _call (target c) (value c) (data c) s
    else (inl (Bubbled []), []).

Definition addDeposit (msg_value : Z) : Sol unit :=
  interface_call {| target := _entryPoint; value := msg_value;
                    data := encodeCall "depositTo(address)" [this] |}.

Definition withdrawDepositTo (msg_sender : Z) (withdrawAddress amount : Z)
  : Sol unit :=
  onlyOwner msg_sender
    (interface_call {| target := _entryPoint; value := 0;
                       data := encodeCall "withdrawTo(address,uint256)"
                                 [withdrawAddress; amount] |}).

End Contract.

(** A chain none of whose contracts calls back into the account: when a
    call returns, the storage of the account is as it was. *)
Definition without_reentry {Chain} (extcall : Chain -> ExtCall -> bool * list Z * Chain)
  : State * Chain -> ExtCall -> bool * list Z * (State * Chain) :=
  fun s c =>
    let '(success, returndata, chain') := extcall (snd s) c in
    (success, returndata, (fst s, chain')).

End SimpleAccount.

(* ===================================================================== *)
(** ** EIP-4437/contracts/SimpleAccountFactory.sol *)
(* ===================================================================== *)

Module SimpleAccountFactory.

Import Bytes.

Inductive Log :=
| AccountCreated (account owner salt : Z)
| Upgraded (proxy implementation : Z)
| FromAccount (account : Z) (e : SimpleAccount.Event).

(** The part of the chain the factory reads and writes: the code and the
    [SimpleAccount] storage at each address, and the event log. *)
Record Chain := {
  code : gmap Z (list Z);
  storage : gmap Z SimpleAccount.State;
  logs : list Log }.

(** [a.code] *)
Definition code_at (c : Chain) (a : Z) : list Z :=
  match code c !! a with Some bytes => bytes | None => [] end.

(** [abi.encodeCall(SimpleAccount.initialize, (owner))]: the selector of
    [initialize(address)] and the address as one word. *)
Definition encodeCall_initialize (owner : Z) : list Z :=
  firstn 4 (Keccak.keccak256 (map Z.of_N (utf16 "initialize(address)")))
  ++ big_endian 32 owner.

(** [abi.encode(address, bytes)] *)
Definition abi_encode (a : Z) (b : list Z) : list Z :=
  let padding := ((32 - length b mod 32) mod 32)%nat in
  big_endian 32 a ++ big_endian 32 0x40 ++ big_endian 32 (Z.of_nat (length b))
  ++ b ++ repeat 0 padding.

Section Contract.

(** [address(this)], the immutable [accountImplementation], the
    [_entryPoint] that implementation was constructed with, and the
    compiled [ERC1967Proxy]: its creation code and the code it deploys. *)
Variable this : Z.
Variable accountImplementation : Z.
Variable _entryPoint : Z.
Variable creationCode : list Z.
Variable runtimeCode : list Z.

(** [Create2.computeAddress(salt, bytecodeHash)], with [address(this)] as
    the deployer. *)
Definition Create2_computeAddress (salt : Z) (bytecodeHash : list Z) : Z :=
  of_big_endian
    (skipn 12 (Keccak.keccak256
                 ([0xff] ++ big_endian 20 this ++ big_endian 32 salt ++ bytecodeHash))).

Definition getAddress (owner salt : Z) : Z :=
  Create2_computeAddress salt
    (Keccak.keccak256
       (creationCode ++ abi_encode accountImplementation (encodeCall_initialize owner))).

(** [new ERC1967Proxy{salt: salt}(implementation, _data)] with
    [_data = abi.encodeCall(SimpleAccount.initialize, (owner))]: CREATE2
    places the proxy at the address derived from the deployer, the salt
    and the hash of the init code, and fails on an address that already
    holds code; the proxy's constructor refuses an implementation without
    code and runs [initialize(owner)] on the proxy's fresh storage. *)
Definition new_ERC1967Proxy (salt implementation owner : Z) (c : Chain)
  : Revert + Z * Chain :=
  let _data := encodeCall_initialize owner in
  let proxy :=
    Create2_computeAddress salt
      (Keccak.keccak256 (creationCode ++ abi_encode implementation _data)) in
  if (0 <? length (code_at c proxy))%nat then inl CreateFailed
  else if (length (code_at c implementation) =? 0)%nat then
    inl (LibraryError "ERC1967InvalidImplementation")
  else
    match SimpleAccount.initialize Chain _entryPoint owner
            ({| SimpleAccount.owner := 0; SimpleAccount._nonce := 0 |}, c) with
    | (inl r, _) => inl r
    | (inr (_, (st, c')), effects) =>
      inr (proxy,
           {| code := <[proxy := runtimeCode]> (code c');
              storage := <[proxy := st]> (storage c');
              logs := logs c' ++ Upgraded proxy implementation
                      :: omap (fun e => match e with
                                        | SimpleAccount.eff_emit ev => Some (FromAccount proxy ev)
                                        | SimpleAccount.eff_call _ => None
                                        end) effects |})
    end.

Definition emit (l : Log) (c : Chain) : Chain :=
  {| code := code c; storage := storage c; logs := logs c ++ [l] |}.

Definition createAccount (owner salt : Z) (c : Chain) : Revert + Z * Chain :=
  let addr := getAddress owner salt in
  let codeSize := length (code_at c addr) in
  if (0 <? codeSize)%nat then inr (addr, c)
  else
    match new_ERC1967Proxy salt accountImplementation owner c with
    | inl r => inl r
    | inr (ret, c') => inr (ret, emit (AccountCreated ret owner salt) c')
    end.

End Contract.

End SimpleAccountFactory.

(* ===================================================================== *)
(** ** EIP-4437/contracts/VerifyingPaymaster.sol *)
(* ===================================================================== *)

Module VerifyingPaymaster.

Import Bytes.

(** Storage: [verifyingSigner], and the [owner] of OpenZeppelin's
    [Ownable], which [BasePaymaster] inherits. *)
Record State := { owner : Z; verifyingSigner : Z }.

Inductive Event :=
| VerifyingSignerChanged (oldSigner newSigner actor : Z).

(** [_packValidationData] of the account-abstraction library
    ([core/Helpers.sol]): the failure flag in the low bits, [validUntil]
    from bit 160 and [validAfter] from bit 208. *)
Definition _packValidationData (sigFailed : bool) (validUntil validAfter : Z) : Z :=
  Z.lor (Z.lor (if sigFailed then 1 else 0) (Z.shiftl validUntil 160))
    (Z.shiftl validAfter (160 + 48)).

(** [data[first:last]] *)
Definition slice (first last : nat) (data : list Z) : list Z :=
  firstn (last - first) (skipn first data).

Section Contract.

(** OpenZeppelin's [MessageHashUtils.toEthSignedMessageHash] and
    [ECDSA.recover], as for [SimpleAccount]. *)
Variable toEthSignedMessageHash : list Z -> list Z.
Variable recover : list Z -> list Z -> Revert + Z.

Definition _setVerifyingSigner (msg_sender : Z) (_newVerifyingSigner : Z) (st : State)
  : State * list Event :=
  let oldSigner := verifyingSigner st in
  ({| owner := owner st; verifyingSigner := _newVerifyingSigner |},
   [VerifyingSignerChanged oldSigner _newVerifyingSigner msg_sender]).

(** [onlyOwner] is that of [Ownable]. *)
Definition setVerifyingSigner (msg_sender : Z) (_newVerifyingSigner : Z) (st : State)
  : Revert + State * list Event :=
  if negb (owner st =? msg_sender) then inl (LibraryError "OwnableUnauthorizedAccount")
  else inr (_setVerifyingSigner msg_sender _newVerifyingSigner st).

(** [abi.encode] of the nine values the paymaster hashes, one word each;
    [accountGasLimits] and [gasFees] are [bytes32] values. *)
Definition abi_encode (userOp : SimpleAccount.PackedUserOperation)
    (validUntil validAfter : Z) : list Z :=
  big_endian 32 (SimpleAccount.sender userOp)
  ++ big_endian 32 (SimpleAccount.nonce userOp)
  ++ Keccak.keccak256 (SimpleAccount.initCode userOp)
  ++ Keccak.keccak256 (SimpleAccount.callData userOp)
  ++ SimpleAccount.accountGasLimits userOp
  ++ big_endian 32 (SimpleAccount.preVerificationGas userOp)
  ++ SimpleAccount.gasFees userOp
  ++ big_endian 32 validUntil
  ++ big_endian 32 validAfter.

(** The function is [view]: it reads the storage and returns [context]
    and [validationData], or reverts. *)
Definition _validatePaymasterUserOp (userOp : SimpleAccount.PackedUserOperation)
    (userOpHash : list Z) (maxCost : Z) (st : State) : Revert + list Z * Z :=
  let paymasterAndData := SimpleAccount.paymasterAndData userOp in
  if negb (97 <=? length paymasterAndData)%nat then
    inl (Error "VerifyingPaymaster: invalid paymasterAndData length")
  else
    let validUntil := of_big_endian (slice 20 26 paymasterAndData) in
    let validAfter := of_big_endian (slice 26 32 paymasterAndData) in
    let signature := skipn 32 paymasterAndData in
    let hash := Keccak.keccak256 (abi_encode userOp validUntil validAfter) in
    let ethSignedHash := toEthSignedMessageHash hash in
    match recover ethSignedHash signature with
    | inl r => inl r
    | inr recovered =>
      if negb (recovered =? verifyingSigner st) then
        inr ([], _packValidationData true validUntil validAfter)
      else
        inr ([], _packValidationData false validUntil validAfter)
    end.

End Contract.

End VerifyingPaymaster.

(* ===================================================================== *)
(** ** The deployment script of the EIP-4337 contracts *)
(* ===================================================================== *)

(** The hardhat script that deploys [SimpleAccountFactory] and
    [VerifyingPaymaster] and records what it deployed in
    [deployments.json]. *)
Module Deploy.

(** An entry of [DeploymentInfo]. *)
Record Deployment := {
  address : jsstring; txHash : jsstring; deployer : jsstring;
  timestamp : jsstring; network : jsstring; chainId : jsstring }.

(** [DeploymentInfo]: an object used as a map from keys to entries. *)
Abbreviation DeploymentInfo := (gmap jsstring Deployment).

(** [deployments.json]: missing, not readable as JSON (the message is
    that of the error thrown), or the JSON text of a [DeploymentInfo]. *)
Inductive File :=
| missing
| garbled (message : jsstring)
| json (deployments : DeploymentInfo).

Definition loadDeployments (file : File) : result DeploymentInfo :=
  match file with
  | missing => ok ∅
  | garbled message => throw message
  | json deployments => ok deployments
  end.

Definition saveDeployments (deployments : DeploymentInfo) : File := json deployments.

(** The fields the script reads of hardhat's [network] and of the
    deployer's signer. *)
Record Network := { name : jsstring; network_chainId : Z }.
Record Signer := { signer_address : jsstring }.

(** What [Contract.deploy] and [waitForDeployment] yield: the address and
    the deployment transaction's hash, if there is one. *)
Record Contract := { getAddress : jsstring; deploymentTransaction : option jsstring }.

(** [`${n}`] and [n.toString()] for a bigint: its decimal digits. *)
Definition decimal (n : Z) : jsstring :=
  utf16 (DecimalString.NilZero.string_of_int (Z.to_int n)).

(** The chain and the clock: deploying may throw, and both change the
    world [C], of which nothing is assumed. *)
Record Env (C : Type) := {
  deploy : jsstring -> list jsstring -> C -> result Contract * C;
  toISOString : C -> jsstring * C }.

Arguments deploy {C}.
Arguments toISOString {C}.

(** The state of a run: the file, the deployments attempted so far (the
    contract name and the constructor arguments) and the world. *)
Record State (C : Type) := {
  file : File; attempted : list (jsstring * list jsstring); world : C }.

Arguments file {C}.
Arguments attempted {C}.
Arguments world {C}.

Definition deployIfChanged {C} (env : Env C) (contractName : jsstring)
    (args : list jsstring) (deployer : Signer) (network : Network) (s : State C)
  : result jsstring * State C :=
  match loadDeployments (file s) with
  | inl e => (throw e, s)
  | inr deployments =>
    let networkKey := name network ++ utf16 "-" ++ decimal (network_chainId network) in
    let existingDeployment := deployments !! (contractName ++ utf16 "-" ++ networkKey) in
    match existingDeployment with
    | None =>
      match deploy env contractName args (world s) with
      | (inl e, c1) =>
        (throw e, {| file := file s;
                     attempted := attempted s ++ [(contractName, args)];
                     world := c1 |})
      | (inr contract, c1) =>
        let address := getAddress contract in
        let deployTx := deploymentTransaction contract in
        let '(now, c2) := toISOString env c1 in
        let deployments' :=
          <[contractName ++ utf16 "-" ++ networkKey :=
              {| Deploy.address := address;
                 txHash := match deployTx with Some h => h | None => [] end;
                 Deploy.deployer := signer_address deployer;
                 timestamp := now;
                 Deploy.network := name network;
                 chainId := decimal (network_chainId network) |}]> deployments in
        (ok address, {| file := saveDeployments deployments';
                        attempted := attempted s ++ [(contractName, args)];
                        world := c2 |})
      end
    | Some existingDeployment => (ok (address existingDeployment), s)
    end
  end.

End Deploy.

(* ===================================================================== *)
(** * The vocabulary of the statements *)
(* ===================================================================== *)

(** What the statements about the service speak of: the trailing segment
    of a DID, the calls a run issues, the bootstrap discipline. *)
Module DidSpec.

Import Did.

(** The trailing colon-separated segment of a DID. *)
Definition trailing (did : jsstring) : jsstring := List.last (split (ch ":") did) [].

Definition msg_invalid_address_format : jsstring := utf16 "無効なDIDアドレス形式: ".
Definition msg_unsupported_did : jsstring := utf16 "サポートされていないDID形式: ".

(** The submission of a [setAttribute] write. *)
Definition is_setAttribute (c : Call) : bool :=
  match c with
  | call_send (setAttribute _ _ _ _ _) => true
  | _ => false
  end.

Section Service.

Context {W : Type}.
Variable env : Env W.
Variable this : DidService.

#[local] Abbreviation admin := (admin this).
#[local] Abbreviation M := (M (W := W)).

(** The repair the bootstrap check submits. *)
Definition repair : Call := call_send (changeOwner admin admin None).

(** [issues m P Q]: from any world and trace, [m] appends calls that all
    satisfy [P] and ends in a result that satisfies [Q]. *)
Definition issues {A} (m : M A) (P : Call -> Prop) (Q : result A -> Prop) : Prop :=
  forall w t, exists x w' calls,
    m (w, t) = (x, (w', t ++ calls)) /\ Forall P calls /\ Q x.

Definition any {A} : A -> Prop := fun _ => True.

(** A write other than the repair, or no write at all. *)
Definition not_repair (c : Call) : Prop := c <> repair.

(** [bootstraps_first op]: [op] starts by reading the owner of the admin
    identity.  When the read throws, [op] throws the same error and stops.
    When it returns the zero address, the repair [changeOwner(admin, admin)]
    is the next call, followed by the wait for it, and [op] stops with the
    error if either throws.  When it returns any other address, the
    repair is not among the calls of [op]. *)
Definition bootstraps_first {A} (op : M A) : Prop :=
  forall w t, exists x w' rest,
    op (w, t) = (x, (w', t ++ call_identityOwner admin :: rest)) /\
    match identityOwner env admin w with
    | (inl e, _) => x = throw e /\ rest = []
    | (inr currentOwner, w1) =>
      if str_eqb currentOwner Ethers.AddressZero then
        match send env (changeOwner admin admin None) w1 with
        | (inl e, _) => x = throw e /\ rest = [repair]
        | (inr tx, w2) =>
          exists rest', rest = repair :: call_wait tx :: rest' /\
            match wait env tx w2 with
            | (inl e, _) => x = throw e /\ rest' = []
            | (inr _, _) => True
            end
        end
      else ~ In repair rest
    end.

(** A call that is no write, or the repair of the bootstrap check. *)
Definition no_write_but_repair (c : Call) : Prop :=
  forall wr, c = call_send wr -> c = repair.

Definition thrown {A} (x : result A) : Prop := exists e, x = throw e.

End Service.

End DidSpec.

(** The service against the registry of module [Registry]: concrete worlds. *)

Module Scenario.

Import Did Registry.

Definition adminWallet : Wallet.t :=
  {| Wallet.address := utf16 "0x5aAeb6053F3E94C9b9A09f33669435E7Ef1BeAed";
     Wallet.publicKey := utf16 "0x04a1";
     Wallet.privateKey := utf16 "0x0a11" |}.

Definition userWallet : Wallet.t :=
  {| Wallet.address := utf16 "0xfB6916095ca1df60bB79Ce92cE3Ea74c37c5d359";
     Wallet.publicKey := utf16 "0x04b2";
     Wallet.privateKey := utf16 "0x0b22" |}.

Definition stranger : jsstring := utf16 "0xdbF03B407c01E7cD3CBea99509d93f8DDDC8C6FB".

Definition service : DidService :=
  {| registryAddress := utf16 "0x03d5003bf0e79C5F5223588F347ebA39AfbC3818";
     Did.adminWallet := adminWallet |}.

Definition userDid : jsstring :=
  utf16 "did:ethr:sepolia:0xfB6916095ca1df60bB79Ce92cE3Ea74c37c5d359".

(** A registry with the given [owners] entries, reached through a
    transport with the given faults. *)
Definition world (entries : gmap jsstring jsstring) (fs : list bool) : World :=
  {| this_address := registryAddress service;
     msg_sender := Wallet.address adminWallet;
     owners := entries; nonces := ∅; sent := 0; reverted := [];
     faults := fs; wallets := [adminWallet; userWallet];
     entropy := [userWallet] |}.

(** Nothing registered yet: every identity owns itself. *)
Definition genesis : World := world ∅ [].

(** The user's identity is owned by the admin, as [registerDid] leaves it. *)
Definition registered : World :=
  world {[ key (Wallet.address userWallet) := Wallet.address adminWallet ]} [].

(** As [registered], after the admin identity was handed to a stranger. *)
Definition handed_over : World :=
  world (<[ key (Wallet.address adminWallet) := stranger ]>
           {[ key (Wallet.address userWallet) := Wallet.address adminWallet ]}) [].

(** A registry with raw entries in which the admin has not been claimed
    yet and the user's identity is owned by the admin. *)
Definition unclaimed : RawRegistry.World :=
  {| RawRegistry.owners :=
       {[ key (Wallet.address userWallet) := Wallet.address adminWallet ]};
     RawRegistry.sent := 0;
     RawRegistry.entropy := [] |}.

(** A registry with raw entries in which the admin owns itself and the
    user's identity, and a key pair is left to draw. *)
Definition claimed : RawRegistry.World :=
  {| RawRegistry.owners :=
       <[ key (Wallet.address adminWallet) := Wallet.address adminWallet ]>
         {[ key (Wallet.address userWallet) := Wallet.address adminWallet ]};
     RawRegistry.sent := 0;
     RawRegistry.entropy := [userWallet] |}.

(** What [registerDid] returns on [claimed], and the run of
    [removeAttribute] on the user's DID there. *)
Definition claimed_registration : Registration.t :=
  {| Registration.did := utf16 "did:ethr:sepolia:" ++ Wallet.address userWallet;
     Registration.address := Wallet.address userWallet;
     Registration.publicKey := Wallet.publicKey userWallet;
     Registration.privateKey := Wallet.privateKey userWallet;
     Registration.transactionHash := tx_hash 0;
     Registration.note := utf16 "DID登録完了" |}.

Definition registration : result Registration.t * (RawRegistry.World * list Call) :=
  registerDid RawRegistry.env service (claimed, []).

Definition revocation : result Outcome.t * (RawRegistry.World * list Call) :=
  removeAttribute RawRegistry.env service userDid (utf16 "name") (claimed, []).

(** The trace and the world a run ends with. *)
Definition trace_of {A} (run : result A * (World * list Call)) : list Call :=
  snd (snd run).
Definition world_of {A} (run : result A * (World * list Call)) : World :=
  fst (snd run).

End Scenario.

(** What the statements about the wallet speak of, and a chain and an
    operation to run it on. *)
Module AccountSpec.

Import SimpleAccount.

(** The storage a call leaves behind: a revert leaves it as it was. *)
Definition storage_after {Chain A} (st : State) (out : Revert + A * (State * Chain))
  : State :=
  match out with
  | inl _ => st
  | inr (_, (st', _)) => st'
  end.

(** A chain of which only the balance of the account matters: a call
    succeeds when the account can pay its value. *)
Definition solvent (balance : Z) (c : ExtCall) : bool * list Z * Z :=
  if value c <=? balance then (true, [], balance - value c) else (false, [], balance).

Definition sampleOp : PackedUserOperation :=
  {| sender := 0xACC; nonce := 7; initCode := []; callData := [];
     accountGasLimits := []; preVerificationGas := 0; gasFees := [];
     paymasterAndData := []; signature := [1; 2; 3] |}.

(** [ECDSA.recover] of OpenZeppelin v5 on symbolic signatures: a
    signature that is not 65 bytes long is refused with
    [ECDSAInvalidSignatureLength], one that recovers to the zero address
    with [ECDSAInvalidSignature]; the signer of a symbolic signature is
    written in its first 20 bytes. *)
Definition recover_checked (hash signature : list Z) : Revert + Z :=
  if negb (length signature =? 65)%nat then
    inl (LibraryError "ECDSAInvalidSignatureLength")
  else
    let signer := Bytes.of_big_endian (firstn 20 signature) in
    if signer =? 0 then inl (LibraryError "ECDSAInvalidSignature") else inr signer.

(** [sampleOp] with a signature of 65 bytes made by [signer]. *)
Definition signedOp (signer : Z) : PackedUserOperation :=
  {| sender := 0xACC; nonce := 7; initCode := []; callData := [];
     accountGasLimits := []; preVerificationGas := 0; gasFees := [];
     paymasterAndData := [];
     signature := Bytes.big_endian 20 signer ++ repeat 0 45 |}.

End AccountSpec.

(** A chain to run the factory on. *)
Module FactoryScenario.

Import SimpleAccountFactory.

(** A chain on which only the account implementation (at address 0x1A)
    is deployed. *)
Definition fresh_chain : Chain :=
  {| code := {[ 0x1A := [0x60; 0x80] ]}; storage := ∅; logs := [] |}.

Definition first_call : Revert + Z * Chain :=
  createAccount 0xFAC 0x1A 0xE9 [0x60; 0x80; 0x60; 0x40] [0x36; 0x3d] 5 123
    fresh_chain.

(** What a call returned, or [d] when it reverted. *)
Definition returned {A} (d : A) (x : Revert + A) : A :=
  match x with
  | inr a => a
  | inl _ => d
  end.

Definition created : Z * Chain := returned (0, fresh_chain) first_call.

End FactoryScenario.

(** Batches of calls and sequences of user operations. *)
Module WalletSpec.

Import SimpleAccount.

(** The calls a batch asks for, in order: the [i]-th goes to [dest[i]]
    with the data [func[i]] and the value [value[i]], which is 0 when no
    values are given. *)
Definition requested (dest value : list Z) (func : list (list Z)) : list ExtCall :=
  map (fun i => {| target := nth i dest 0; SimpleAccount.value := nth i value 0;
                   data := nth i func [] |})
    (seq 0 (length dest)).

(** One user operation as the EntryPoint submits it for validation. *)
Record Submission := {
  op : PackedUserOperation; opHash : list Z; missingAccountFunds : Z }.

Section Calls.

Variable Chain : Type.
Variable extcall : State * Chain -> ExtCall -> bool * list Z * (State * Chain).

(** Calls made one after the other until one fails: the storage and the
    chain they leave, or the revert data of the one that failed, and the
    calls attempted. *)
Fixpoint call_in_order (calls : list ExtCall) (s : State * Chain)
  : (Revert + State * Chain) * list Effect :=
  match calls with
  | [] => (inr s, [])
  | c :: rest =>
    let '(success, returndata, s') := extcall s c in
    if success then
      let '(out, effects) := call_in_order rest s' in (out, eff_call c :: effects)
    else (inl (Bubbled returndata), [eff_call c])
  end.

End Calls.

Section Submissions.

Variable Chain : Type.
Variable extcall : Chain -> ExtCall -> bool * list Z * Chain.
Variable _entryPoint : Z.
Variable toEthSignedMessageHash : list Z -> list Z.
Variable recover : list Z -> list Z -> Revert + Z.

(** Submissions validated one after the other by [msg_sender], on a chain
    without calls back into the account; one that reverts leaves the
    storage and the chain as they were.  The accepted submissions, in
    order, and the final storage and chain. *)
Fixpoint validate_each (msg_sender : Z) (subs : list Submission) (s : State * Chain)
  : list Submission * (State * Chain) :=
  match subs with
  | [] => ([], s)
  | x :: rest =>
    match fst (validateUserOp Chain (without_reentry extcall) _entryPoint
                 toEthSignedMessageHash recover
                 msg_sender (op x) (opHash x) (missingAccountFunds x) s) with
    | inl _ => validate_each msg_sender rest s
    | inr (_, s') =>
      let '(accepted, s'') := validate_each msg_sender rest s' in (x :: accepted, s'')
    end
  end.

End Submissions.

(** What a batch makes of calls made in order: it reverts with the revert
    data of the call that failed, or returns with the storage and the
    chain the calls left. *)
Definition batch_outcome {Chain} (x : (Revert + State * Chain) * list Effect)
  : (Revert + unit * (State * Chain)) * list Effect :=
  (match fst x with
   | inl r => inl r
   | inr s' => inr (tt, s')
   end, snd x).

(** The operation that follows [AccountSpec.sampleOp], and one that
    carries the last nonce there is. *)
Definition nextOp : PackedUserOperation :=
  {| sender := 0xACC; nonce := 8; initCode := []; callData := [];
     accountGasLimits := []; preVerificationGas := 0; gasFees := [];
     paymasterAndData := []; signature := [1; 2; 3] |}.

Definition lastOp : PackedUserOperation :=
  {| sender := 0xACC; nonce := uint256_max; initCode := []; callData := [];
     accountGasLimits := []; preVerificationGas := 0; gasFees := [];
     paymasterAndData := []; signature := [1; 2; 3] |}.

(** A chain of which only the balance of the account matters, on which a
    call to address [0xBAD] fails. *)
Definition picky (balance : Z) (c : ExtCall) : bool * list Z * Z :=
  if target c =? 0xBAD then (false, [0xEE], balance)
  else if SimpleAccount.value c <=? balance then (true, [], balance - SimpleAccount.value c)
  else (false, [], balance).

(** A chain on which the contract at [0xC1A], when called, calls back
    into the account (whose EntryPoint is [0xE9]) to [initialize] it for
    itself, and goes on whether that went through or not. *)
Definition claiming (s : State * Z) (c : ExtCall) : bool * list Z * (State * Z) :=
  if target c =? 0xC1A then
    match fst (initialize Z 0xE9 (target c) s) with
    | inr (_, s') => (true, [], s')
    | inl _ => (true, [], s)
    end
  else (true, [], s).

End WalletSpec.

(** What the statements about the paymaster speak of. *)
Module PaymasterSpec.

(** The low 160 bits of [validationData], which hold the failure flag. *)
Definition sigFailed_of (validationData : Z) : Z := validationData mod 2 ^ 160.

(** [_parseValidationData] of the account-abstraction library
    ([core/Helpers.sol], v0.7), with which the EntryPoint reads
    [validationData]: the low 160 bits, the 48 bits from bit 160, where 0
    stands for no expiry and is read as the largest [uint48], and the 48
    bits from bit 208. *)
Record ValidationData := { aggregator : Z; validAfter : Z; validUntil : Z }.

Definition uint48_max : Z := 2 ^ 48 - 1.

Definition _parseValidationData (validationData : Z) : ValidationData :=
  let aggregator := validationData mod 2 ^ 160 in
  let validUntil := Z.shiftr validationData 160 mod 2 ^ 48 in
  let validUntil := if validUntil =? 0 then uint48_max else validUntil in
  let validAfter := Z.shiftr validationData (48 + 160) mod 2 ^ 48 in
  {| aggregator := aggregator; validAfter := validAfter; validUntil := validUntil |}.

Definition is_byte (b : Z) : Prop := 0 <= b < 256.

(** A [paymasterAndData] of 97 bytes: 20 of address, the window
    [0x0000000000FF, 0x000000000010], and 65 of signature. *)
Definition sampleData : list Z :=
  repeat 0xAB 20 ++ [0; 0; 0; 0; 0; 0xFF] ++ [0; 0; 0; 0; 0; 0x10] ++ repeat 0x11 65.

Definition sampleOp : SimpleAccount.PackedUserOperation :=
  {| SimpleAccount.sender := 0xACC; SimpleAccount.nonce := 7;
     SimpleAccount.initCode := []; SimpleAccount.callData := [];
     SimpleAccount.accountGasLimits := repeat 0 32;
     SimpleAccount.preVerificationGas := 0; SimpleAccount.gasFees := repeat 0 32;
     SimpleAccount.paymasterAndData := sampleData; SimpleAccount.signature := [] |}.

(** [sampleOp] with a window whose [validUntil] is zero. *)
Definition openEndedOp : SimpleAccount.PackedUserOperation :=
  {| SimpleAccount.sender := 0xACC; SimpleAccount.nonce := 7;
     SimpleAccount.initCode := []; SimpleAccount.callData := [];
     SimpleAccount.accountGasLimits := repeat 0 32;
     SimpleAccount.preVerificationGas := 0; SimpleAccount.gasFees := repeat 0 32;
     SimpleAccount.paymasterAndData :=
       repeat 0xAB 20 ++ [0; 0; 0; 0; 0; 0] ++ [0; 0; 0; 0; 0; 0x10] ++ repeat 0x11 65;
     SimpleAccount.signature := [] |}.

(** The same operation with another paymaster address and another
    signature of its own. *)
Definition otherOp : SimpleAccount.PackedUserOperation :=
  {| SimpleAccount.sender := 0xACC; SimpleAccount.nonce := 7;
     SimpleAccount.initCode := []; SimpleAccount.callData := [];
     SimpleAccount.accountGasLimits := repeat 0 32;
     SimpleAccount.preVerificationGas := 0; SimpleAccount.gasFees := repeat 0 32;
     SimpleAccount.paymasterAndData := repeat 0xCD 20 ++ skipn 20 sampleData;
     SimpleAccount.signature := [1; 2; 3] |}.

End PaymasterSpec.

(** What the statements about the deployment script speak of. *)
Module DeploySpec.

Import Deploy.

(** The key an entry is kept under. *)
Definition key_of (contractName : jsstring) (network : Network) : jsstring :=
  contractName ++ utf16 "-" ++ name network ++ utf16 "-" ++ decimal (network_chainId network).

(** The entries a file holds. *)
Definition entries (f : File) : DeploymentInfo :=
  match f with
  | json deployments => deployments
  | _ => ∅
  end.

(** A chain on which every deployment succeeds, at an address made of the
    number of contracts deployed so far. *)
Definition counting : Env nat :=
  {| deploy := fun _ _ n => (ok {| getAddress := utf16 "0x" ++ decimal (Z.of_nat n);
                                   deploymentTransaction := None |}, S n);
     toISOString := fun n => (utf16 "2025-01-01T00:00:00.000Z", n) |}.

Definition sepolia : Network := {| name := utf16 "sepolia"; network_chainId := 11155111 |}.

Definition start : State nat := {| file := missing; attempted := []; world := 0%nat |}.

(** The state the first run for the factory leaves. *)
Definition first_run : State nat :=
  snd (deployIfChanged counting (utf16 "SimpleAccountFactory") [utf16 "0xE9"]
         {| signer_address := utf16 "0xD0" |} sepolia start).

End DeploySpec.

(* ===================================================================== *)
(** * Properties *)
(* ===================================================================== *)

(** ** The library models against published values *)

Module ModelChecks.

Import Bytes.

(** Keccak-256 of the empty string. *)
Example keccak256_empty :
  hexlify (Keccak.keccak256 [])
  = utf16 "0xc5d2460186f7233c927e7db2dcc703c0e500b653ca82273b7bfad8045d85a470".
Proof. vm_compute. reflexivity. Qed.

(** The registry address of [did.service.ts] is the checksummed form of
    its lower-case spelling, and the addresses the repository writes
    (registry, mock EntryPoint of the tests, EntryPoint v0.7 of the deploy
    script) pass [isAddress]. *)
Example checksum_of_registry_address :
  Ethers.getChecksumAddress (utf16 "0x03d5003bf0e79c5f5223588f347eba39afbc3818")
  = utf16 "0x03d5003bf0e79C5F5223588F347ebA39AfbC3818"
  /\ Ethers.isAddress (utf16 "0x03d5003bf0e79C5F5223588F347ebA39AfbC3818") = true
  /\ Ethers.isAddress (utf16 "0x5FF137D4b0FDCD49DcA30c7CF57E578a026d2789") = true
  /\ Ethers.isAddress (utf16 "0x0000000071727De22E5E9d8BAf0edAc6f37da032") = true.
Proof. vm_compute. repeat split. Qed.

(** A capital in the wrong place fails the checksum. *)
Example checksum_rejects_wrong_capitals :
  Ethers.isAddress (utf16 "0x03D5003bf0e79C5F5223588F347ebA39AfbC3818") = false.
Proof. vm_compute. reflexivity. Qed.

(** The selector of [initialize(address)]. *)
Example selector_of_initialize :
  firstn 4 (SimpleAccountFactory.encodeCall_initialize 5) = [0xc4; 0xd6; 0x6d; 0xe8].
Proof. vm_compute. reflexivity. Qed.

(** The selectors of the two EntryPoint functions the account calls
    through the interface, [depositTo(address)] and
    [withdrawTo(address,uint256)]. *)
Example selectors_of_entryPoint :
  SimpleAccount.encodeCall "depositTo(address)" [] = [0xb7; 0x60; 0xfa; 0xf9]
  /\ SimpleAccount.encodeCall "withdrawTo(address,uint256)" [] = [0x20; 0x5c; 0x28; 0x78].
Proof. vm_compute. split; reflexivity. Qed.

(** The first example of EIP-1014: deployer 0, salt 0, init code [0x00]. *)
Example create2_eip1014 :
  SimpleAccountFactory.Create2_computeAddress 0 0 (Keccak.keccak256 [0])
  = 0x4D1A2e2bB4F88F0250f26Ffff098B0b30B26BF38.
Proof. vm_compute. reflexivity. Qed.

End ModelChecks.

(** ** Strings *)

Module JsFacts.

Lemma startsWith_app (p s : jsstring) : startsWith p (p ++ s) = true.
Proof.
  induction p as [|a p IH]; simpl; [reflexivity|].
  now rewrite N.eqb_refl, IH.
Qed.

Lemma split_nonempty (sep : N) (s : jsstring) : split sep s <> [].
Proof.
  destruct s as [|c s]; simpl; [discriminate|].
  destruct (c =? sep)%N; [discriminate|].
  destruct (split sep s); discriminate.
Qed.

(** Splitting distributes over a separator. *)
Lemma split_app (sep : N) (p s : jsstring) :
  split sep (p ++ sep :: s) = split sep p ++ split sep s.
Proof.
  induction p as [|c p IH]; simpl.
  - now rewrite N.eqb_refl.
  - destruct (c =? sep)%N; rewrite IH; [reflexivity|].
    destruct (split sep p) as [|q qs] eqn:E; [|reflexivity].
    now apply split_nonempty in E.
Qed.

Lemma split_without_separator (sep : N) (s : jsstring) :
  forallb (fun c => negb (c =? sep)%N) s = true -> split sep s = [s].
Proof.
  induction s as [|c s IH]; simpl; [reflexivity|].
  intros H. apply andb_prop in H as [Hc Hs].
  apply negb_true_iff in Hc. rewrite Hc, (IH Hs). reflexivity.
Qed.

(** The last piece of [p:a] is [a] when [a] holds no separator. *)
Lemma last_split (sep : N) (p a : jsstring) :
  forallb (fun c => negb (c =? sep)%N) a = true ->
  List.last (split sep (p ++ sep :: a)) [] = a.
Proof.
  intros H. rewrite split_app, (split_without_separator _ _ H).
  apply List.last_last.
Qed.

Lemma strip_fixes (s : jsstring) :
  forallb hex_or_x s = true -> strip_non_hex s = s.
Proof.
  unfold strip_non_hex. induction s as [|c s IH]; simpl; [reflexivity|].
  intros H. apply andb_prop in H as [Hc Hs]. now rewrite Hc, (IH Hs).
Qed.

Lemma strip_keeps_class (s : jsstring) : forallb hex_or_x (strip_non_hex s) = true.
Proof.
  unfold strip_non_hex. induction s as [|c s IH]; simpl; [reflexivity|].
  destruct (hex_or_x c) eqn:E; simpl; [now rewrite E|exact IH].
Qed.

Lemma hex_or_x_not_colon (c : N) : hex_or_x c = true -> negb (c =? ch ":")%N = true.
Proof.
  unfold hex_or_x, in_range, ch. simpl N_of_ascii. intros H.
  apply negb_true_iff, N.eqb_neq. intros ->. vm_compute in H. discriminate.
Qed.

Lemma hex_digit_in_class (c : N) : Ethers.is_hex_digit c = true -> hex_or_x c = true.
Proof.
  unfold Ethers.is_hex_digit, hex_or_x.
  destruct (in_range "0" "9" c), (in_range "a" "f" c), (in_range "A" "F" c);
    simpl; try reflexivity; discriminate.
Qed.

Lemma forallb_impl {A} (f g : A -> bool) (l : list A) :
  (forall x, f x = true -> g x = true) -> forallb f l = true -> forallb g l = true.
Proof.
  intros Hfg. induction l as [|x l IH]; simpl; [reflexivity|].
  intros H. apply andb_prop in H as [Hx Hl]. now rewrite (Hfg _ Hx), (IH Hl).
Qed.

(** Every address [isAddress] accepts is made of characters of the
    service's class. *)
Lemma isAddress_in_class (a : jsstring) :
  Ethers.isAddress a = true -> forallb hex_or_x a = true.
Proof.
  unfold Ethers.isAddress, Ethers.getAddress.
  destruct (Ethers.matches_hex_address a) eqn:M; [intros _|discriminate].
  unfold Ethers.matches_hex_address in M.
  apply andb_prop in M as [_ M].
  destruct (startsWith (utf16 "0x") a) eqn:P.
  - change (utf16 "0x") with [48%N; 120%N] in P.
    destruct a as [|c0 [|c1 body]]; cbn [startsWith] in P;
      rewrite ?andb_false_r in P; try discriminate.
    apply andb_prop in P as [P0 P1]. apply andb_prop in P1 as [P1 _].
    apply N.eqb_eq in P0, P1. subst c0 c1.
    change (forallb Ethers.is_hex_digit body = true) in M.
    change (forallb hex_or_x body = true).
    exact (forallb_impl _ _ _ hex_digit_in_class M).
  - exact (forallb_impl _ _ _ hex_digit_in_class M).
Qed.

(** The filtered string never starts with a capital [X], so it is never
    of the ICAP form [XE..]. *)
Lemma strip_never_icap (s : jsstring) :
  startsWith (utf16 "XE") (strip_non_hex s) = false.
Proof.
  pose proof (strip_keeps_class s) as H.
  destruct (strip_non_hex s) as [|c r]; [reflexivity|].
  simpl in H. apply andb_prop in H as [Hc _].
  change (utf16 "XE") with [88%N; 69%N]. cbn [startsWith].
  destruct (88 =? c)%N eqn:E; [|reflexivity].
  apply N.eqb_eq in E. subst c. vm_compute in Hc. discriminate.
Qed.

End JsFacts.

(** ** C1: the DID-to-address extraction *)

Module ExtractionFacts.

Import Did DidSpec JsFacts.


(** C1, as amended.  For every DID [did:ethr:<net>:<addr>] whose [<addr>]
    is a valid address, the extraction returns exactly [<addr>], case
    preserved.  It succeeds exactly when the DID starts with [did:ethr:]
    and the trailing segment, once the characters outside [a-fA-F0-9x] are
    removed from it, is a valid address, and then returns that filtered
    segment; otherwise it throws one of the two descriptive errors.  (So a
    trailing segment that is not itself a valid address is accepted when
    filtering makes it one.) *)
Theorem extractIdentity_filtered_segment :
  (forall net addr : jsstring,
      Ethers.isAddress addr = true ->
      extractIdentity (utf16 "did:ethr:" ++ net ++ ch ":" :: addr) = ok addr)
  /\ (forall did identity : jsstring,
      extractIdentity did = ok identity <->
      startsWith (utf16 "did:ethr:") did = true
      /\ identity = strip_non_hex (trailing did)
      /\ Ethers.isAddress identity = true)
  /\ (forall did message : jsstring,
      extractIdentity did = throw message ->
      (startsWith (utf16 "did:ethr:") did = true
       /\ Ethers.isAddress (strip_non_hex (trailing did)) = false
       /\ message = msg_invalid_address_format ++ strip_non_hex (trailing did))
      \/ (startsWith (utf16 "did:ethr:") did = false
          /\ message = msg_unsupported_did ++ did)).
Proof.
  split; [|split].
  - intros net addr Hvalid. unfold extractIdentity.
    rewrite startsWith_app.
    pose proof (isAddress_in_class _ Hvalid) as Hclass.
    assert (Hcolon : forallb (fun c => negb (c =? ch ":")%N) addr = true)
      by exact (forallb_impl _ _ _ hex_or_x_not_colon Hclass).
    rewrite app_assoc, (last_split _ _ _ Hcolon), (strip_fixes _ Hclass).
    now rewrite Hvalid.
  - intros did identity. unfold extractIdentity, trailing.
    destruct (startsWith (utf16 "did:ethr:") did); [|split; [discriminate|]].
    + destruct (Ethers.isAddress (strip_non_hex _)) eqn:V; cbn [negb].
      * split.
        -- intros H. injection H as <-. auto.
        -- intros (_ & -> & _). reflexivity.
      * split; [discriminate|]. intros (_ & -> & V'). congruence.
    + intros (H & _). discriminate.
  - intros did message. unfold extractIdentity, trailing.
    destruct (startsWith (utf16 "did:ethr:") did).
    + destruct (Ethers.isAddress (strip_non_hex _)) eqn:V; cbn [negb]; [discriminate|].
      intros H. injection H as <-. left. auto.
    + intros H. injection H as <-. right. auto.
Qed.

(** The registry address of the source, as [<addr>] on the [sepolia]
    network: returned as it stands, capitals included. *)
Lemma extractIdentity_filtered_segment_witness :
  extractIdentity (utf16 "did:ethr:" ++ utf16 "sepolia" ++ ch ":"
                   :: utf16 "0x03d5003bf0e79C5F5223588F347ebA39AfbC3818")
  = ok (utf16 "0x03d5003bf0e79C5F5223588F347ebA39AfbC3818").
Proof.
  apply (proj1 extractIdentity_filtered_segment).
  vm_compute. reflexivity.
Defined.

(** C1 as stated fails: a trailing segment that is not a valid address (an
    address followed by a blank) does not make the extraction fail; the
    filtered address comes out. *)
Lemma extractIdentity_accepts_invalid_segment :
  trailing (utf16 "did:ethr:sepolia:0x5aAeb6053F3E94C9b9A09f33669435E7Ef1BeAed ")
    = utf16 "0x5aAeb6053F3E94C9b9A09f33669435E7Ef1BeAed "
  /\ Ethers.isAddress (utf16 "0x5aAeb6053F3E94C9b9A09f33669435E7Ef1BeAed ") = false
  /\ extractIdentity (utf16 "did:ethr:sepolia:0x5aAeb6053F3E94C9b9A09f33669435E7Ef1BeAed ")
     = ok (utf16 "0x5aAeb6053F3E94C9b9A09f33669435E7Ef1BeAed").
Proof. vm_compute. repeat split. Qed.

(** ** More on the extraction: what it reads of a DID *)

Lemma last_app_nonempty {A} (l1 l2 : list A) (d : A) :
  l2 <> [] -> List.last (l1 ++ l2) d = List.last l2 d.
Proof.
  intros Hne. induction l1 as [|a l1 IH]; [reflexivity|].
  cbn [app]. destruct (l1 ++ l2) eqn:E; [|exact IH].
  apply app_eq_nil in E as [_ ->]. contradiction.
Qed.

(** The trailing segment is that of what follows a colon. *)
Lemma trailing_app (p rest : jsstring) :
  trailing (p ++ ch ":" :: rest) = trailing rest.
Proof.
  unfold trailing. rewrite split_app. apply last_app_nonempty, split_nonempty.
Qed.

(** The extraction on a DID that carries the method prefix. *)
Lemma extractIdentity_ethr (rest : jsstring) :
  extractIdentity (utf16 "did:ethr:" ++ rest)
  = if negb (Ethers.isAddress (strip_non_hex (trailing rest))) then
      throw (utf16 "無効なDIDアドレス形式: " ++ strip_non_hex (trailing rest))
    else ok (strip_non_hex (trailing rest)).
Proof.
  unfold extractIdentity. rewrite startsWith_app. cbv zeta.
  change (List.last (split (ch ":") (utf16 "did:ethr:" ++ rest)) [])
    with (trailing (utf16 "did:ethr:" ++ rest)).
  change (utf16 "did:ethr:") with (utf16 "did:ethr" ++ [ch ":"]).
  rewrite <- app_assoc. cbn [app].
  rewrite trailing_app. reflexivity.
Qed.

(** A valid address is its own filtered trailing segment. *)
Lemma trailing_address (a : jsstring) :
  Ethers.isAddress a = true -> strip_non_hex (trailing a) = a.
Proof.
  intros Hvalid. pose proof (isAddress_in_class _ Hvalid) as Hclass.
  unfold trailing.
  rewrite (split_without_separator _ _ (forallb_impl _ _ _ hex_or_x_not_colon Hclass)).
  cbn [List.last]. apply strip_fixes, Hclass.
Qed.

(** X1.  The extraction does not read the network part of a DID: whatever
    stands between [did:ethr:] and the last colon, the result, value or
    error, is that of the DID without it.  A DID of any network is
    treated as one of the registry the service is configured with. *)
Theorem extractIdentity_ignores_network :
  forall net rest : jsstring,
    extractIdentity (utf16 "did:ethr:" ++ net ++ ch ":" :: rest)
    = extractIdentity (utf16 "did:ethr:" ++ rest).
Proof.
  intros net rest. rewrite !extractIdentity_ethr. now rewrite trailing_app.
Qed.

(** X2.  What the extraction returns is a normal form: it is a valid
    address, and put back behind [did:ethr:], with or without a network
    part, it is extracted again as it stands. *)
Theorem extractIdentity_normal_form :
  forall did identity : jsstring,
    extractIdentity did = ok identity ->
    Ethers.isAddress identity = true
    /\ extractIdentity (utf16 "did:ethr:" ++ identity) = ok identity
    /\ forall net, extractIdentity (utf16 "did:ethr:" ++ net ++ ch ":" :: identity)
                   = ok identity.
Proof.
  intros did identity. unfold extractIdentity at 1.
  destruct (startsWith (utf16 "did:ethr:") did); [|discriminate]. cbv zeta.
  destruct (Ethers.isAddress (strip_non_hex _)) eqn:Hvalid; cbn [negb]; [|discriminate].
  intros H. injection H as <-.
  set (identity := strip_non_hex _) in *.
  split; [exact Hvalid|].
  assert (Hself : extractIdentity (utf16 "did:ethr:" ++ identity) = ok identity).
  { rewrite extractIdentity_ethr, (trailing_address _ Hvalid), Hvalid. reflexivity. }
  split; [exact Hself|].
  intros net. rewrite extractIdentity_ethr, trailing_app, (trailing_address _ Hvalid), Hvalid.
  reflexivity.
Qed.

(** A DID with a blank after the address: the address comes out, and is
    extracted again from the DIDs made of it. *)
Lemma extractIdentity_normal_form_witness :
  Ethers.isAddress (utf16 "0x5aAeb6053F3E94C9b9A09f33669435E7Ef1BeAed") = true
  /\ extractIdentity (utf16 "did:ethr:" ++ utf16 "0x5aAeb6053F3E94C9b9A09f33669435E7Ef1BeAed")
     = ok (utf16 "0x5aAeb6053F3E94C9b9A09f33669435E7Ef1BeAed")
  /\ forall net,
       extractIdentity (utf16 "did:ethr:" ++ net ++ ch ":"
                        :: utf16 "0x5aAeb6053F3E94C9b9A09f33669435E7Ef1BeAed")
       = ok (utf16 "0x5aAeb6053F3E94C9b9A09f33669435E7Ef1BeAed").
Proof.
  apply (extractIdentity_normal_form
           (utf16 "did:ethr:sepolia:0x5aAeb6053F3E94C9b9A09f33669435E7Ef1BeAed ")).
  vm_compute. reflexivity.
Defined.

End ExtractionFacts.

(** ** The UTF-8 encoder *)

Module EthersFacts.

(** The encoding is never shorter than the string: a code unit yields at
    least one byte, a surrogate pair four. *)
Lemma ok_length {A} (a b : list A) : ok a = ok b :> result (list A) -> length a = length b.
Proof. intros H. injection H as ->. reflexivity. Qed.

Lemma toUtf8Bytes_length_upto (n : nat) :
  forall (str : jsstring) (bytes : list Z),
    (length str <= n)%nat ->
    Ethers.toUtf8Bytes str = ok bytes -> (length str <= length bytes)%nat.
Proof.
  induction n as [|n IH]; intros str bytes Hn.
  - destruct str; [intros _; simpl; lia|simpl in Hn; lia].
  - destruct str as [|c rest]; [intros _; simpl; lia|].
    cbn [length] in Hn. cbn [Ethers.toUtf8Bytes].
    destruct (c <? 0x80)%N.
    { destruct (Ethers.toUtf8Bytes rest) as [e|bs] eqn:E; [discriminate|].
      intros H. apply ok_length in H. cbn [length] in H |- *.
      pose proof (IH rest bs ltac:(lia) E). lia. }
    destruct (c <? 0x800)%N.
    { destruct (Ethers.toUtf8Bytes rest) as [e|bs] eqn:E; [discriminate|].
      intros H. apply ok_length in H. cbn [length] in H |- *.
      pose proof (IH rest bs ltac:(lia) E). lia. }
    destruct (N.land c 0xfc00 =? 0xd800)%N.
    { destruct rest as [|c2 rest']; [discriminate|].
      destruct (negb _); [discriminate|].
      destruct (Ethers.toUtf8Bytes rest') as [e|bs] eqn:E; [discriminate|].
      intros H. apply ok_length in H. cbn [length] in H, Hn |- *.
      pose proof (IH rest' bs ltac:(lia) E). lia. }
    destruct (Ethers.toUtf8Bytes rest) as [e|bs] eqn:E; [discriminate|].
    intros H. apply ok_length in H. cbn [length] in H |- *.
    pose proof (IH rest bs ltac:(lia) E). lia.
Qed.

Lemma toUtf8Bytes_length (str : jsstring) (bytes : list Z) :
  Ethers.toUtf8Bytes str = ok bytes -> (length str <= length bytes)%nat.
Proof. apply (toUtf8Bytes_length_upto (length str)). lia. Qed.

End EthersFacts.

(** ** The service: what a run returns and which calls it issues *)

Module DidFacts.

Import Did DidSpec.

Section Service.

Context {W : Type}.
Variable env : Env W.
Variable this : DidService.

#[local] Abbreviation admin := (admin this).
#[local] Abbreviation ensureAdminRegistered := (ensureAdminRegistered env this).
#[local] Abbreviation M := (M (W := W)).
#[local] Abbreviation issues := (DidSpec.issues (W := W)).
#[local] Abbreviation repair := (DidSpec.repair this).
#[local] Abbreviation not_repair := (DidSpec.not_repair this).
#[local] Abbreviation bootstraps_first := (DidSpec.bootstraps_first env this).
#[local] Abbreviation no_write_but_repair := (DidSpec.no_write_but_repair this).



Lemma issues_ret {A} (a : A) P (Q : result A -> Prop) :
  Q (ok a) -> issues (ret a) P Q.
Proof.
  intros HQ w t. exists (ok a), w, []. rewrite app_nil_r. auto.
Qed.

Lemma issues_raise {A} (e : jsstring) P (Q : result A -> Prop) :
  Q (throw e) -> issues (raise e) P Q.
Proof.
  intros HQ w t. exists (throw e), w, []. rewrite app_nil_r. auto.
Qed.

Lemma issues_lift {A} (x : result A) P (Q : result A -> Prop) :
  Q x -> issues (lift x) P Q.
Proof.
  intros HQ w t. exists x, w, []. rewrite app_nil_r. auto.
Qed.

Lemma issues_perform {A} (c : Call) (f : W -> result A * W) (P : Call -> Prop)
    (Q : result A -> Prop) :
  P c -> (forall x, Q x) -> issues (perform c f) P Q.
Proof.
  intros HP HQ w t. unfold perform. cbn [fst snd].
  destruct (f w) as [x w']. exists x, w', [c]. auto.
Qed.

Lemma issues_createRandom P (Q : result Wallet.t -> Prop) :
  (forall k, Q (ok k)) -> issues (Wallet_createRandom env) P Q.
Proof.
  intros HQ w t. unfold Wallet_createRandom. cbn [fst snd].
  destruct (createRandom env w) as [k w']. exists (ok k), w', [].
  rewrite app_nil_r. auto.
Qed.

Lemma issues_bind {A B} (m : M A) (k : A -> M B) P (Qm : result A -> Prop)
    (Q : result B -> Prop) :
  issues m P Qm ->
  (forall a, Qm (ok a) -> issues (k a) P Q) ->
  (forall e, Qm (throw e) -> Q (throw e)) ->
  issues (bind m k) P Q.
Proof.
  intros Hm Hk He w t. unfold bind.
  destruct (Hm w t) as (x & w1 & c1 & -> & HP1 & HQ1).
  destruct x as [e|a].
  - exists (throw e), w1, c1. auto.
  - destruct (Hk a HQ1 w1 (t ++ c1)) as (y & w2 & c2 & -> & HP2 & HQ2).
    exists y, w2, (c1 ++ c2). rewrite app_assoc.
    split; [reflexivity|]. split; [|exact HQ2].
    apply Forall_app; auto.
Qed.

Lemma issues_try_catch {A} (m : M A) (h : jsstring -> M A) P (Qm Q : result A -> Prop) :
  issues m P Qm ->
  (forall e, Qm (throw e) -> issues (h e) P Q) ->
  (forall a, Qm (ok a) -> Q (ok a)) ->
  issues (try_catch m h) P Q.
Proof.
  intros Hm Hh Ha w t. unfold try_catch.
  destruct (Hm w t) as (x & w1 & c1 & -> & HP1 & HQ1).
  destruct x as [e|a].
  - destruct (Hh e HQ1 w1 (t ++ c1)) as (y & w2 & c2 & -> & HP2 & HQ2).
    exists y, w2, (c1 ++ c2). rewrite app_assoc.
    split; [reflexivity|]. split; [|exact HQ2].
    apply Forall_app; auto.
  - exists (ok a), w1, c1. auto.
Qed.

(** Walks through a computation built from the service's combinators. *)
Ltac crawl :=
  repeat first
    [ exact I
    | progress intros
    | apply issues_ret
    | apply issues_raise
    | apply issues_lift
    | apply issues_createRandom
    | apply issues_perform
    | eapply issues_bind with (Qm := any)
    | eapply issues_try_catch with (Qm := any)
    | match goal with |- issues (if ?b then _ else _) _ _ => destruct b end
    | progress cbv zeta
    | progress unfold registry_nonce, registry_send, tx_wait, registry_identityOwner ].

(** *** C2: the bootstrap check *)


Lemma bootstrap_then {A} (body : M A) :
  issues body not_repair any ->
  bootstraps_first (bind ensureAdminRegistered (fun _ => body)).
Proof.
  intros Hbody w t. unfold DidSpec.not_repair, DidSpec.repair in *.
  unfold bind, Did.ensureAdminRegistered, bind, registry_identityOwner,
    registry_send, tx_wait, perform, ret. cbn [fst snd].
  destruct (identityOwner env admin w) as [[e|currentOwner] w1]; cbn [fst snd].
  { exists (throw e), w1, []. auto. }
  destruct (str_eqb currentOwner Ethers.AddressZero); cbn [fst snd].
  - destruct (send env (changeOwner admin admin None) w1) as [[e|tx] w2];
      cbn [fst snd].
    { exists (throw e), w2, [repair]. rewrite <- app_assoc. auto. }
    destruct (wait env tx w2) as [[e|receipt] w3]; cbn [fst snd].
    { exists (throw e), w3, [repair; call_wait tx].
      rewrite <- !app_assoc. split; [reflexivity|]. exists []. auto. }
    destruct (Hbody w3 (((t ++ [call_identityOwner admin])
                          ++ [call_send (changeOwner admin admin None)]) ++ [call_wait tx]))
      as (x & w' & calls & -> & _ & _).
    exists x, w', (repair :: call_wait tx :: calls).
    rewrite <- !app_assoc. split; [reflexivity|]. exists calls. auto.
  - destruct (Hbody w1 (t ++ [call_identityOwner admin]))
      as (x & w' & calls & -> & HF & _).
    exists x, w', calls. rewrite <- app_assoc. split; [reflexivity|].
    intros Hin. apply list_elem_of_In in Hin.
    rewrite Forall_forall in HF. exact (HF _ Hin eq_refl).
Qed.

(** C2, as amended.  Each of the four mutating operations begins with the
    bootstrap check: it reads the registered owner of the admin identity
    first, and only when that owner is the zero address does it submit
    [changeOwner(admin, admin)] and wait for it, before any other call.
    For any other owner, the admin itself or not, no repair is submitted. *)
Theorem mutating_operations_bootstrap_first :
  bootstraps_first (registerDid env this)
  /\ (forall did attributeName attributeValue,
        bootstraps_first (addAttribute env this did attributeName attributeValue))
  /\ (forall did attributeName,
        bootstraps_first (removeAttribute env this did attributeName))
  /\ (forall did, bootstraps_first (deleteDid env this did)).
Proof.
  repeat split; intros; apply bootstrap_then; crawl;
    unfold DidSpec.not_repair, DidSpec.repair; discriminate.
Qed.

(** Unfolds the combinators of a run and reduces the projections. *)
Ltac unfold_run :=
  unfold bind, try_catch, lift, ret, raise, registry_identityOwner, registry_nonce,
    registry_send, tx_wait, Wallet_createRandom, perform, ok, throw in *;
  cbn [fst snd].

(** Splits on the next awaited call or thrown helper of the run in the goal. *)
Ltac split_run :=
  match goal with
  | |- context [match ?x with _ => _ end] =>
    match x with
    | context [match _ with _ => _ end] => fail 1
    | _ => destruct x eqn:?
    end
  | |- context [if ?b then _ else _] =>
    match b with
    | context [if _ then _ else _] => fail 1
    | _ => destruct b eqn:?
    end
  end; cbn [fst snd].

(** *** C3: registerDid and its secondary step *)

(** C3.  Whatever [registerDid] returns carries the address of the wallet
    it drew and the DID [did:ethr:sepolia:<that address>]; and once the
    ownership transaction of the new wallet is mined, [registerDid]
    returns that registration whatever the attachment of the public key
    does afterwards: whether it goes through or throws, the result is the
    same. *)
Theorem registerDid_returns_fresh_wallet_did :
  (forall w t reg st',
      registerDid env this (w, t) = (ok reg, st') ->
      exists w1 t1 w2,
        ensureAdminRegistered (w, t) = (ok tt, (w1, t1))
        /\ createRandom env w1
           = ({| Wallet.address := Registration.address reg;
                 Wallet.publicKey := Registration.publicKey reg;
                 Wallet.privateKey := Registration.privateKey reg |}, w2)
        /\ Registration.did reg = utf16 "did:ethr:sepolia:" ++ Registration.address reg)
  /\ (forall w t w1 t1 newWallet w2 n w3 messageHash tx w4 receipt w5,
      ensureAdminRegistered (w, t) = (ok tt, (w1, t1)) ->
      createRandom env w1 = (newWallet, w2) ->
      nonce env (Wallet.address newWallet) w2 = (ok n, w3) ->
      solidityKeccak256 env
        [sol_bytes1 0x19; sol_bytes1 0x00; sol_address (registryAddress this);
         sol_uint256 n; sol_address (Wallet.address newWallet);
         sol_string (utf16 "changeOwner"); sol_address admin] = ok messageHash ->
      send env
        (changeOwnerSigned (Wallet.address newWallet)
           (v (signDigest env (Wallet.privateKey newWallet) messageHash))
           (r (signDigest env (Wallet.privateKey newWallet) messageHash))
           (s (signDigest env (Wallet.privateKey newWallet) messageHash)) admin) w3
        = (ok tx, w4) ->
      wait env tx w4 = (ok receipt, w5) ->
      exists st',
        registerDid env this (w, t)
        = (ok {| Registration.did := utf16 "did:ethr:sepolia:" ++ Wallet.address newWallet;
                 Registration.address := Wallet.address newWallet;
                 Registration.publicKey := Wallet.publicKey newWallet;
                 Registration.privateKey := Wallet.privateKey newWallet;
                 Registration.transactionHash := transactionHash receipt;
                 Registration.note := utf16 "DID登録完了" |}, st')).
Proof.
  split.
  - intros w t reg st'. unfold registerDid. unfold bind at 1.
    destruct (ensureAdminRegistered (w, t)) as [[e|[]] [w1 t1]]; [discriminate|].
    unfold bind at 1. unfold Wallet_createRandom at 1. cbn [fst snd].
    destruct (createRandom env w1) as [newWallet w2] eqn:Hdraw.
    intros Hrun. exists w1, t1, w2. split; [reflexivity|].
    revert Hrun. unfold_run.
    repeat split_run; intros Hrun; try discriminate;
      injection Hrun as <- _; destruct newWallet; auto.
  - intros w t w1 t1 newWallet w2 n w3 messageHash tx w4 receipt w5
      Hboot Hdraw Hnonce Hhash Hsend Hwait.
    unfold registerDid. unfold bind at 1. rewrite Hboot.
    unfold_run. rewrite Hdraw. cbn [fst snd]. rewrite Hnonce, Hhash.
    cbn [fst snd]. rewrite Hsend. cbn [fst snd]. rewrite Hwait. cbn [fst snd].
    repeat split_run; eexists; reflexivity.
Qed.

(** *** C4: the owner check of addAttribute *)

(** C4, as amended.  Let the bootstrap check pass, the DID yield
    [identity] and the registry report [currentOwner] for it.  When
    [currentOwner] is not the admin address (letter case apart),
    [addAttribute] throws the authorization error, which names the admin
    address and [currentOwner], and submits nothing.  When it is, and the
    attribute name encodes to at most 31 UTF-8 bytes (which makes it at
    most 31 characters long), the value encodes, and the write is accepted
    and mined, [addAttribute] returns the hash of the receipt of that
    [setAttribute] write. *)
Theorem addAttribute_owner_check :
  forall did attributeName attributeValue w t w1 t1 identity currentOwner w2,
    ensureAdminRegistered (w, t) = (ok tt, (w1, t1)) ->
    extractIdentity did = ok identity ->
    identityOwner env identity w1 = (ok currentOwner, w2) ->
    (toLowerCase currentOwner <> toLowerCase admin ->
     addAttribute env this did attributeName attributeValue (w, t)
     = (throw (utf16 "属性追加に失敗しました: "
               ++ utf16 "権限不足: adminWallet (" ++ admin ++ utf16 ") は DID "
               ++ identity ++ utf16 " の所有者ではありません。現在の所有者: "
               ++ currentOwner),
        (w2, t1 ++ [call_identityOwner identity])))
    /\ (toLowerCase currentOwner = toLowerCase admin ->
        forall name value tx w3 receipt w4,
          Ethers.formatBytes32String attributeName = ok name ->
          Ethers.toUtf8Bytes attributeValue = ok value ->
          send env (setAttribute identity name value 31536000 (Some 300000)) w2
          = (ok tx, w3) ->
          wait env tx w3 = (ok receipt, w4) ->
          (length attributeName <= 31)%nat
          /\ addAttribute env this did attributeName attributeValue (w, t)
             = (ok {| Outcome.success := true;
                      Outcome.transactionHash := transactionHash receipt;
                      Outcome.did := did |},
                (w4, t1 ++ [call_identityOwner identity;
                            call_send (setAttribute identity name value 31536000
                                         (Some 300000));
                            call_wait tx]))).
Proof.
  intros did attributeName attributeValue w t w1 t1 identity currentOwner w2
    Hboot Hid Howner.
  split.
  - intros Hne. unfold addAttribute. unfold bind at 1. rewrite Hboot.
    unfold_run. rewrite Hid, Howner. cbn [fst snd].
    unfold str_eqb. rewrite bool_decide_eq_false_2 by exact Hne.
    reflexivity.
  - intros Heq name value tx w3 receipt w4 Hname Hvalue Hsend Hwait.
    assert (Hlen : (length attributeName <= 31)%nat).
    { unfold Ethers.formatBytes32String in Hname.
      destruct (Ethers.toUtf8Bytes attributeName) as [e|bytes] eqn:Hbytes;
        [discriminate|].
      destruct (31 <? length bytes)%nat eqn:Hfit; [discriminate|].
      apply Nat.ltb_ge in Hfit.
      pose proof (EthersFacts.toUtf8Bytes_length _ _ Hbytes). lia. }
    split; [exact Hlen|].
    unfold addAttribute. unfold bind at 1. rewrite Hboot.
    unfold_run. rewrite Hid, Howner. cbn [fst snd].
    unfold str_eqb. rewrite bool_decide_eq_true_2 by exact Heq. cbn [negb].
    apply Nat.ltb_ge in Hlen. rewrite Hlen, Hname, Hvalue. cbn [fst snd].
    rewrite Hsend. cbn [fst snd]. rewrite Hwait. cbn [fst snd].
    rewrite <- !app_assoc. reflexivity.
Qed.

(** *** C5: attribute names longer than 31 characters *)


(** C5, as amended.  With an attribute name longer than 31 characters
    [addAttribute] always throws, and never submits [setAttribute]: the
    only write the invocation can submit is the repair of the bootstrap
    check.  The error is the length violation when the checks that come
    first pass, that is when the bootstrap check passes, the DID is valid
    and the admin is the registered owner; the invocation has then issued
    reads only. *)
Theorem addAttribute_rejects_long_name :
  forall did attributeName attributeValue,
    (31 < length attributeName)%nat ->
    issues (addAttribute env this did attributeName attributeValue)
      no_write_but_repair thrown
    /\ (forall w t w1 t1 identity currentOwner w2,
          ensureAdminRegistered (w, t) = (ok tt, (w1, t1)) ->
          extractIdentity did = ok identity ->
          identityOwner env identity w1 = (ok currentOwner, w2) ->
          toLowerCase currentOwner = toLowerCase admin ->
          addAttribute env this did attributeName attributeValue (w, t)
          = (throw (utf16 "属性追加に失敗しました: "
                    ++ utf16 "属性名が長すぎます（31文字以内）: " ++ attributeName),
             (w2, t1 ++ [call_identityOwner identity]))).
Proof.
  intros did attributeName attributeValue Hlong.
  apply Nat.ltb_lt in Hlong.
  split.
  - unfold addAttribute.
    eapply issues_bind with (Qm := any); [| |intros e _; exists e; reflexivity].
    { unfold Did.ensureAdminRegistered. crawl;
        unfold DidSpec.no_write_but_repair, DidSpec.repair; intros wr Hwr;
        first [discriminate | reflexivity]. }
    intros _ _.
    eapply issues_try_catch with (Qm := thrown).
    + eapply issues_bind with (Qm := any);
        [apply issues_lift; exact I| |intros e _; exists e; reflexivity].
      intros identity _.
      eapply issues_bind with (Qm := any);
        [|intros currentOwner _|intros e _; exists e; reflexivity].
      * unfold registry_identityOwner. apply issues_perform; [|intros; exact I].
        intros wr Hwr. discriminate.
      * destruct (negb _); [apply issues_raise; eexists; reflexivity|].
        rewrite Hlong. apply issues_raise. eexists; reflexivity.
    + intros e _. apply issues_raise. eexists; reflexivity.
    + intros a [e He]. discriminate.
  - intros w t w1 t1 identity currentOwner w2 Hboot Hid Howner Heq.
    unfold addAttribute. unfold bind at 1. rewrite Hboot.
    unfold_run. rewrite Hid, Howner. cbn [fst snd].
    unfold str_eqb. rewrite bool_decide_eq_true_2 by exact Heq. cbn [negb].
    rewrite Hlong. reflexivity.
Qed.

(** *** C6: deleteDid *)

Section Deactivation.

(** What the registry holds as the owner of an identity, and the one
    thing assumed of the registry: a [changeOwner] that was submitted and
    mined has set it. *)
Variable registered_owner : W -> jsstring -> jsstring.
Hypothesis changeOwner_mined :
  forall identity newOwner gasLimit w tx w1 receipt w2,
    send env (changeOwner identity newOwner gasLimit) w = (ok tx, w1) ->
    wait env tx w1 = (ok receipt, w2) ->
    registered_owner w2 identity = newOwner.

(** C6.  A [deleteDid] that returns has, after the bootstrap check,
    submitted [changeOwner(identity, 0x0)] for the address of the DID and
    waited for it to be mined, as its last two calls; it returns the hash
    of that receipt, and the registry then holds the zero address as the
    owner of the identity. *)
Theorem deleteDid_zeroes_owner :
  forall did w t res w' t',
    deleteDid env this did (w, t) = (ok res, (w', t')) ->
    exists identity w1 t1 tx receipt,
      extractIdentity did = ok identity
      /\ ensureAdminRegistered (w, t) = (ok tt, (w1, t1))
      /\ t' = t1 ++ [call_send (changeOwner identity Ethers.AddressZero (Some 200000));
                     call_wait tx]
      /\ res = {| Outcome.success := true;
                  Outcome.transactionHash := transactionHash receipt;
                  Outcome.did := did |}
      /\ registered_owner w' identity = Ethers.AddressZero.
Proof.
  intros did w t res w' t'. unfold deleteDid. unfold bind at 1.
  destruct (ensureAdminRegistered (w, t)) as [[e|[]] [w1 t1]]; [discriminate|].
  unfold_run.
  destruct (extractIdentity did) as [e|identity]; [discriminate|].
  destruct (send env _ w1) as [[e|tx] w2] eqn:Hsend; cbn [fst snd]; [discriminate|].
  destruct (wait env tx w2) as [[e|receipt] w3] eqn:Hwait; cbn [fst snd];
    [discriminate|].
  intros Hrun. injection Hrun as <- <- <-.
  exists identity, w1, t1, tx, receipt.
  rewrite <- app_assoc. repeat split.
  exact (changeOwner_mined _ _ _ _ _ _ _ _ Hsend Hwait).
Qed.

End Deactivation.

(** *** What the operations do besides *)

Lemma registerDid_did (w : W) t reg st' :
  registerDid env this (w, t) = (ok reg, st') ->
  Registration.did reg = utf16 "did:ethr:sepolia:" ++ Registration.address reg.
Proof.
  unfold registerDid. unfold_run.
  destruct (ensureAdminRegistered (w, t)) as [[e|[]] [w1 t1]]; [discriminate|].
  cbn [fst snd].
  destruct (createRandom env w1) as [newWallet w2].
  repeat split_run; intros Hrun; try discriminate;
    injection Hrun as <- _; reflexivity.
Qed.

(** X3.  The DID that [registerDid] hands out is one the other operations
    accept: when the address of the new wallet is a valid address, the
    extraction of [addAttribute], [removeAttribute] and [deleteDid]
    yields that address from it. *)
Theorem registerDid_did_is_extractable :
  forall w t reg st',
    registerDid env this (w, t) = (ok reg, st') ->
    Ethers.isAddress (Registration.address reg) = true ->
    extractIdentity (Registration.did reg) = ok (Registration.address reg).
Proof.
  intros w t reg st' Hrun Hvalid.
  rewrite (registerDid_did _ _ _ _ Hrun).
  change (utf16 "did:ethr:sepolia:") with (utf16 "did:ethr:" ++ utf16 "sepolia" ++ [ch ":"]).
  rewrite <- !app_assoc. cbn [app].
  rewrite ExtractionFacts.extractIdentity_ethr, ExtractionFacts.trailing_app,
    (ExtractionFacts.trailing_address _ Hvalid), Hvalid.
  reflexivity.
Qed.

(** X5.  A [removeAttribute] that returns has issued, after the bootstrap
    check, exactly two calls: the submission of
    [revokeAttribute(identity, name, 0x)] with the gas limit 200000, for
    the address of the DID and the attribute name as a [bytes32], and the
    wait for it.  It does not read the owner of the identity, as
    [addAttribute] does; it returns the hash of the receipt and the DID
    it was given. *)
Theorem removeAttribute_revokes_without_owner_check :
  forall did attributeName w t res w' t',
    removeAttribute env this did attributeName (w, t) = (ok res, (w', t')) ->
    exists identity name w1 t1 tx w2 receipt,
      extractIdentity did = ok identity
      /\ Ethers.formatBytes32String attributeName = ok name
      /\ ensureAdminRegistered (w, t) = (ok tt, (w1, t1))
      /\ send env (revokeAttribute identity name [] (Some 200000)) w1 = (ok tx, w2)
      /\ wait env tx w2 = (ok receipt, w')
      /\ t' = t1 ++ [call_send (revokeAttribute identity name [] (Some 200000));
                     call_wait tx]
      /\ res = {| Outcome.success := true;
                  Outcome.transactionHash := transactionHash receipt;
                  Outcome.did := did |}.
Proof.
  intros did attributeName w t res w' t'. unfold removeAttribute. unfold bind at 1.
  destruct (ensureAdminRegistered (w, t)) as [[e|[]] [w1 t1]]; [discriminate|].
  change (Ethers.toUtf8Bytes (utf16 "")) with (ok (@nil Z)).
  unfold_run.
  destruct (extractIdentity did) as [e|identity]; [discriminate|].
  destruct (Ethers.formatBytes32String attributeName) as [e|name]; [discriminate|].
  destruct (send env _ w1) as [[e|tx] w2] eqn:Hsend; cbn [fst snd]; [discriminate|].
  destruct (wait env tx w2) as [[e|receipt] w3] eqn:Hwait; cbn [fst snd];
    [discriminate|].
  intros Hrun. injection Hrun as <- <- <-.
  exists identity, name, w1, t1, tx, w2, receipt.
  rewrite <- app_assoc. repeat split; assumption.
Qed.

(** X6.  [removeAttribute] has no length check of its own: an attribute
    name that [formatBytes32String] refuses (more than 31 bytes in UTF-8,
    or not encodable) makes it throw, and the only write it can have
    submitted is the repair of the bootstrap check.  When the bootstrap
    check passes and the DID is valid, the error is the one
    [formatBytes32String] threw, behind the prefix of the operation, and
    no call follows the bootstrap check. *)
Theorem removeAttribute_rejects_unencodable_name :
  forall did attributeName e,
    Ethers.formatBytes32String attributeName = throw e ->
    issues (removeAttribute env this did attributeName) no_write_but_repair thrown
    /\ (forall w t w1 t1 identity,
          ensureAdminRegistered (w, t) = (ok tt, (w1, t1)) ->
          extractIdentity did = ok identity ->
          removeAttribute env this did attributeName (w, t)
          = (throw (utf16 "属性削除に失敗しました: " ++ e), (w1, t1))).
Proof.
  intros did attributeName e Hname. split.
  - unfold removeAttribute.
    eapply issues_bind with (Qm := any); [| |intros e0 _; exists e0; reflexivity].
    { unfold Did.ensureAdminRegistered. crawl;
        unfold DidSpec.no_write_but_repair, DidSpec.repair; intros wr Hwr;
        first [discriminate | reflexivity]. }
    intros _ _.
    eapply issues_try_catch with (Qm := thrown).
    + eapply issues_bind with (Qm := any);
        [apply issues_lift; exact I| |intros e0 _; exists e0; reflexivity].
      intros identity _. rewrite Hname.
      eapply issues_bind with (Qm := thrown);
        [apply issues_lift; eexists; reflexivity| |intros e0 _; exists e0; reflexivity].
      intros a [e0 He0]. discriminate.
    + intros e0 _. apply issues_raise. eexists; reflexivity.
    + intros a [e0 He0]. discriminate.
  - intros w t w1 t1 identity Hboot Hid.
    unfold removeAttribute. unfold bind at 1. rewrite Hboot.
    unfold_run. rewrite Hid, Hname. reflexivity.
Qed.

(** X7.  A DID the extraction rejects stops [addAttribute],
    [removeAttribute] and [deleteDid] right after the bootstrap check:
    each throws the error of the extraction behind its own prefix, and has
    issued no call but those of the bootstrap check. *)
Theorem invalid_did_stops_after_bootstrap :
  forall did e w t w1 t1,
    ensureAdminRegistered (w, t) = (ok tt, (w1, t1)) ->
    extractIdentity did = throw e ->
    (forall attributeName attributeValue,
        addAttribute env this did attributeName attributeValue (w, t)
        = (throw (utf16 "属性追加に失敗しました: " ++ e), (w1, t1)))
    /\ (forall attributeName,
          removeAttribute env this did attributeName (w, t)
          = (throw (utf16 "属性削除に失敗しました: " ++ e), (w1, t1)))
    /\ deleteDid env this did (w, t)
       = (throw (utf16 "DID削除に失敗しました: " ++ e), (w1, t1)).
Proof.
  intros did e w t w1 t1 Hboot Hid.
  repeat split; intros;
    unfold addAttribute, removeAttribute, deleteDid; unfold bind at 1; rewrite Hboot;
    unfold_run; rewrite Hid; reflexivity.
Qed.

Lemma wrapped_body {A} (body : M A) (prefix : jsstring) st e st' :
  try_catch body (fun error => raise (prefix ++ error)) st = (throw e, st') ->
  exists cause, e = prefix ++ cause.
Proof.
  unfold try_catch, raise, throw.
  destruct (body st) as [[e1|a] st2]; [|discriminate].
  intros H. injection H as <- _. eauto.
Qed.

Lemma wrapped {A} (body : M A) (prefix : jsstring) (w : W) t e st' :
  bind ensureAdminRegistered
    (fun _ => try_catch body (fun error => raise (prefix ++ error))) (w, t)
  = (throw e, st') ->
  ensureAdminRegistered (w, t) = (throw e, st')
  \/ exists cause, e = prefix ++ cause.
Proof.
  unfold bind.
  destruct (ensureAdminRegistered (w, t)) as [[e0|[]] st1].
  - intros H. injection H as <- <-. now left.
  - intros H. right. exact (wrapped_body _ _ _ _ _ H).
Qed.

(** X8.  Whatever error one of the four operations throws is either the
    error of its bootstrap check, unchanged, or starts with the prefix of
    the operation: every error of the part inside [try] is wrapped, and
    the bootstrap check is outside of it. *)
Theorem errors_carry_operation_prefix :
  (forall w t e st',
      registerDid env this (w, t) = (throw e, st') ->
      ensureAdminRegistered (w, t) = (throw e, st')
      \/ exists cause, e = utf16 "DID登録処理に失敗しました: " ++ cause)
  /\ (forall did attributeName attributeValue w t e st',
        addAttribute env this did attributeName attributeValue (w, t) = (throw e, st') ->
        ensureAdminRegistered (w, t) = (throw e, st')
        \/ exists cause, e = utf16 "属性追加に失敗しました: " ++ cause)
  /\ (forall did attributeName w t e st',
        removeAttribute env this did attributeName (w, t) = (throw e, st') ->
        ensureAdminRegistered (w, t) = (throw e, st')
        \/ exists cause, e = utf16 "属性削除に失敗しました: " ++ cause)
  /\ (forall did w t e st',
        deleteDid env this did (w, t) = (throw e, st') ->
        ensureAdminRegistered (w, t) = (throw e, st')
        \/ exists cause, e = utf16 "DID削除に失敗しました: " ++ cause).
Proof.
  split; [|repeat split; intros *; apply wrapped].
  intros w t e st'. unfold registerDid. unfold bind at 1.
  destruct (ensureAdminRegistered (w, t)) as [[e0|[]] [w1 t1]].
  - intros H. injection H as <- <-. now left.
  - unfold bind at 1. unfold Wallet_createRandom at 1. cbn [fst snd].
    destruct (createRandom env w1) as [newWallet w2]. cbv zeta.
    intros H. right. exact (wrapped_body _ _ _ _ _ H).
Qed.

(** X4.  When [registerDid] throws, it has submitted no [setAttribute]:
    the public-key attribute is only written once the ownership
    transaction is mined, and from then on [registerDid] returns. *)
Theorem registerDid_throws_before_attribute :
  forall w t,
    exists calls,
      snd (snd (registerDid env this (w, t))) = t ++ calls
      /\ (thrown (fst (registerDid env this (w, t))) ->
          Forall (fun c => is_setAttribute c = false) calls).
Proof.
  intros w t.
  assert (Hboot : issues ensureAdminRegistered (fun c => is_setAttribute c = false) any).
  { unfold Did.ensureAdminRegistered. crawl; reflexivity. }
  destruct (Hboot w t) as (x & w1 & c1 & Hrun & Hc1 & _).
  destruct (registerDid env this (w, t)) as [y [w' t']] eqn:Hall. cbn [fst snd].
  revert Hall. unfold registerDid. unfold bind at 1. rewrite Hrun.
  destruct x as [e|[]]; cbn [fst snd].
  { intros H. injection H as <- <- <-. eauto. }
  unfold thrown. unfold_run.
  destruct (createRandom env w1) as [newWallet w2]. cbn [fst snd].
  repeat split_run; intros H; injection H as <- <- <-;
    (eexists; split; [rewrite <- !app_assoc; reflexivity|]);
    try (intros [e0 He0]; discriminate);
    intros _; apply Forall_app; split; try exact Hc1; repeat constructor.
Qed.

(** X30.  A [registerDid] that returns has, after the bootstrap check,
    read the nonce of the new wallet, submitted [changeOwnerSigned] for it
    with the admin as new owner and the signature, made with the key of
    the new wallet, of the hash of (0x19, 0x00, registry, nonce, new
    wallet, "changeOwner", admin), and waited for it; the transaction
    hash it returns is that of this ownership transaction.  The only
    calls that can follow are the submission of the public-key attribute
    of the new wallet, valid for 31536000 seconds, and the wait for it. *)
Theorem registerDid_returns_ownership_transaction :
  forall w t reg w' t',
    registerDid env this (w, t) = (ok reg, (w', t')) ->
    exists w1 t1 newWallet w2 n w3 messageHash tx w4 receipt w5 rest,
      ensureAdminRegistered (w, t) = (ok tt, (w1, t1))
      /\ createRandom env w1 = (newWallet, w2)
      /\ nonce env (Wallet.address newWallet) w2 = (ok n, w3)
      /\ solidityKeccak256 env
           [sol_bytes1 0x19; sol_bytes1 0x00; sol_address (registryAddress this);
            sol_uint256 n; sol_address (Wallet.address newWallet);
            sol_string (utf16 "changeOwner"); sol_address admin] = ok messageHash
      /\ send env
           (changeOwnerSigned (Wallet.address newWallet)
              (v (signDigest env (Wallet.privateKey newWallet) messageHash))
              (r (signDigest env (Wallet.privateKey newWallet) messageHash))
              (s (signDigest env (Wallet.privateKey newWallet) messageHash)) admin) w3
         = (ok tx, w4)
      /\ wait env tx w4 = (ok receipt, w5)
      /\ Registration.transactionHash reg = transactionHash receipt
      /\ t' = t1 ++ [call_nonce (Wallet.address newWallet);
                     call_send
                       (changeOwnerSigned (Wallet.address newWallet)
                          (v (signDigest env (Wallet.privateKey newWallet) messageHash))
                          (r (signDigest env (Wallet.privateKey newWallet) messageHash))
                          (s (signDigest env (Wallet.privateKey newWallet) messageHash))
                          admin);
                     call_wait tx] ++ rest
      /\ (rest = []
          \/ exists name value,
               Ethers.formatBytes32String (utf16 "did/pub/secp256k1/veriKey") = ok name
               /\ Ethers.toUtf8Bytes (Wallet.publicKey newWallet) = ok value
               /\ (rest = [call_send (setAttribute (Wallet.address newWallet) name value
                                        31536000 (Some 300000))]
                   \/ exists pubKeyTx,
                        rest = [call_send (setAttribute (Wallet.address newWallet) name
                                             value 31536000 (Some 300000));
                                call_wait pubKeyTx])).
Proof.
  intros w t reg w' t'. unfold registerDid. unfold bind at 1.
  destruct (ensureAdminRegistered (w, t)) as [[e|[]] [w1 t1]]; [discriminate|].
  unfold bind at 1. unfold Wallet_createRandom at 1. cbn [fst snd].
  destruct (createRandom env w1) as [newWallet w2] eqn:Hdraw. cbv zeta.
  unfold_run.
  destruct (nonce env _ w2) as [[e|n] w3] eqn:Hnonce; cbn [fst snd]; [discriminate|].
  destruct (solidityKeccak256 env _) as [e|messageHash] eqn:Hhash; [discriminate|].
  destruct (send env _ w3) as [[e|tx] w4] eqn:Hsend; cbn [fst snd]; [discriminate|].
  destruct (wait env tx w4) as [[e|receipt] w5] eqn:Hwait; cbn [fst snd]; [discriminate|].
  destruct (Ethers.formatBytes32String _) as [e|name] eqn:Hname.
  { intros H. injection H as <- <- <-.
    exists w1, t1, newWallet, w2, n, w3, messageHash, tx, w4, receipt, w5, [].
    rewrite <- !app_assoc. repeat split; auto. }
  destruct (Ethers.toUtf8Bytes _) as [e|value] eqn:Hvalue.
  { intros H. injection H as <- <- <-.
    exists w1, t1, newWallet, w2, n, w3, messageHash, tx, w4, receipt, w5, [].
    rewrite <- !app_assoc. repeat split; auto. }
  destruct (send env _ w5) as [[e|pubKeyTx] w6]; cbn [fst snd].
  { intros H. injection H as <- <- <-.
    exists w1, t1, newWallet, w2, n, w3, messageHash, tx, w4, receipt, w5.
    eexists. rewrite <- !app_assoc. repeat split; eauto 10. }
  destruct (wait env pubKeyTx w6) as [[e|pubKeyReceipt] w7]; cbn [fst snd];
    intros H; injection H as <- <- <-;
    exists w1, t1, newWallet, w2, n, w3, messageHash, tx, w4, receipt, w5;
    eexists; rewrite <- !app_assoc; repeat split; eauto 10.
Qed.

End Service.

End DidFacts.


Module RegistryFacts.

Import Did Registry.

(** The registry of module [Registry] meets what C6 assumes: a
    [changeOwner] that was sent and whose wait returned a receipt has set
    the [owners] entry.  (A reverted one is mined as failed, and the wait
    for it throws.) *)
Lemma registry_sets_owner :
  forall identity newOwner gasLimit w tx w1 receipt w2,
    send env (changeOwner identity newOwner gasLimit) w = (ok tx, w1) ->
    wait env tx w1 = (ok receipt, w2) ->
    owner_entry w2 identity = newOwner.
Proof.
  intros identity newOwner gasLimit w tx w1 receipt w2.
  cbn [send wait env]. unfold rpc_send, rpc_wait, request.
  destruct (match faults w with b :: _ => b | [] => false end); [discriminate|].
  destruct (negb (forallb Ethers.isAddress _)); [discriminate|].
  cbn [execute msg_sender].
  destruct (same_address _ _); cbn [write_gasLimit].
  - intros Hsend. injection Hsend as <- <-.
    cbn [faults record_sent set_owner].
    match goal with |- (if ?b then _ else _) = _ -> _ => destruct b; [discriminate|] end.
    match goal with |- (if ?b then _ else _) = _ -> _ => destruct b; [discriminate|] end.
    intros Hwait. injection Hwait as _ <-.
    unfold owner_entry. cbn [owners]. now rewrite lookup_insert_eq.
  - destruct gasLimit as [g|]; [|discriminate].
    intros Hsend. injection Hsend as <- <-.
    cbn [faults record_sent reverted sent hash].
    match goal with |- (if ?b then _ else _) = _ -> _ => destruct b; [discriminate|] end.
    rewrite bool_decide_eq_true_2 by apply list_elem_of_here.
    discriminate.
Qed.

End RegistryFacts.

(** ** C2 to C6 at concrete worlds *)

Module ScenarioFacts.

Import Did Registry Scenario.

(** C2 as stated fails: with the admin identity owned by a stranger,
    [deleteDid] submits its write, and the write is mined, with no repair
    before it; the admin is not its own owner before or after. *)
Lemma write_without_self_ownership :
  identityOwner_view handed_over (Wallet.address adminWallet) = stranger
  /\ fst (deleteDid env service userDid (handed_over, []))
     = ok {| Outcome.success := true;
             Outcome.transactionHash := tx_hash 0;
             Outcome.did := userDid |}
  /\ trace_of (deleteDid env service userDid (handed_over, []))
     = [call_identityOwner (Wallet.address adminWallet);
        call_send (changeOwner (Wallet.address userWallet) Ethers.AddressZero
                     (Some 200000));
        call_wait {| hash := tx_hash 0 |}]
  /\ identityOwner_view (world_of (deleteDid env service userDid (handed_over, [])))
       (Wallet.address adminWallet) = stranger.
Proof. vm_compute. repeat split. Qed.

(** The transport fails on the fifth request, the submission of the
    public-key attribute: the registration is returned all the same. *)
Lemma registerDid_returns_fresh_wallet_did_witness :
  exists st',
    registerDid env service (world ∅ [false; false; false; false; true], [])
    = (ok {| Registration.did := utf16 "did:ethr:sepolia:" ++ Wallet.address userWallet;
             Registration.address := Wallet.address userWallet;
             Registration.publicKey := Wallet.publicKey userWallet;
             Registration.privateKey := Wallet.privateKey userWallet;
             Registration.transactionHash := transactionHash {| transactionHash := tx_hash 0 |};
             Registration.note := utf16 "DID登録完了" |}, st').
Proof.
  pose (w := world ∅ [false; false; false; false; true]).
  pose (r1 := ensureAdminRegistered env service (w, [])).
  pose (r2 := createRandom env (world_of r1)).
  pose (r3 := nonce env (Wallet.address userWallet) (snd r2)).
  pose (digest := Keccak.keccak256
                    ([0x19; 0x00] ++ address_bytes (registryAddress service)
                     ++ Bytes.big_endian 32 0 ++ address_bytes (Wallet.address userWallet)
                     ++ map Z.of_N (utf16 "changeOwner")
                     ++ address_bytes (Wallet.address adminWallet))).
  pose (sig := signDigest (Wallet.privateKey userWallet) digest).
  pose (r4 := send env (changeOwnerSigned (Wallet.address userWallet)
                          (v sig) (r sig) (s sig) (Wallet.address adminWallet))
                (snd r3)).
  pose (r5 := wait env {| hash := tx_hash 0 |} (snd r4)).
  apply (proj2 (DidFacts.registerDid_returns_fresh_wallet_did env service)
           w [] (world_of r1) (trace_of r1) userWallet (snd r2) 0 (snd r3)
           digest {| hash := tx_hash 0 |} (snd r4) {| transactionHash := tx_hash 0 |}
           (snd r5));
    vm_compute; reflexivity.
Defined.

(** C4 as stated fails: the admin is the registered owner and the name is
    11 characters long, within the limit of 31, yet [addAttribute] throws
    and submits nothing, because the name takes 33 bytes in UTF-8. *)
Lemma addAttribute_fails_within_limit :
  identityOwner_view registered (Wallet.address userWallet) = Wallet.address adminWallet
  /\ length (utf16 "日本語の属性名前テスト") = 11%nat
  /\ fst (addAttribute env service userDid (utf16 "日本語の属性名前テスト")
            (utf16 "value") (registered, []))
     = throw (utf16 "属性追加に失敗しました: " ++ Ethers.msg_bytes32_too_long)
  /\ trace_of (addAttribute env service userDid (utf16 "日本語の属性名前テスト")
                 (utf16 "value") (registered, []))
     = [call_identityOwner (Wallet.address adminWallet);
        call_identityOwner (Wallet.address userWallet)].
Proof. vm_compute. repeat split. Qed.

(** Both halves of C4 as amended: in [genesis] the user's identity owns
    itself and the authorization error names the admin and that owner; in
    [registered] the attribute is written and the hash of its receipt
    returned. *)
Lemma addAttribute_owner_check_witness :
  addAttribute env service userDid (utf16 "name") (utf16 "value") (genesis, [])
  = (throw (utf16 "属性追加に失敗しました: "
            ++ utf16 "権限不足: adminWallet (" ++ admin service
            ++ utf16 ") は DID " ++ Wallet.address userWallet
            ++ utf16 " の所有者ではありません。現在の所有者: "
            ++ Wallet.address userWallet),
     (snd (identityOwner env (Wallet.address userWallet)
             (world_of (ensureAdminRegistered env service (genesis, [])))),
      trace_of (ensureAdminRegistered env service (genesis, []))
      ++ [call_identityOwner (Wallet.address userWallet)]))
  /\ ((length (utf16 "name") <= 31)%nat
      /\ fst (addAttribute env service userDid (utf16 "name") (utf16 "value")
                (registered, []))
         = ok {| Outcome.success := true;
                 Outcome.transactionHash := tx_hash 0;
                 Outcome.did := userDid |}).
Proof.
  split.
  - apply (proj1 (DidFacts.addAttribute_owner_check env service userDid
                    (utf16 "name") (utf16 "value") genesis []
                    (world_of (ensureAdminRegistered env service (genesis, [])))
                    (trace_of (ensureAdminRegistered env service (genesis, [])))
                    (Wallet.address userWallet) (Wallet.address userWallet)
                    (snd (identityOwner env (Wallet.address userWallet)
                            (world_of (ensureAdminRegistered env service (genesis, [])))))
                    ltac:(vm_compute; reflexivity) ltac:(vm_compute; reflexivity)
                    ltac:(vm_compute; reflexivity))).
    vm_compute. discriminate.
  - pose (r1 := ensureAdminRegistered env service (registered, [])).
    pose (r2 := identityOwner env (Wallet.address userWallet) (world_of r1)).
    pose (name := firstn 32 (map Z.of_N (utf16 "name") ++ repeat 0 32)).
    pose (value := map Z.of_N (utf16 "value")).
    pose (r3 := send env (setAttribute (Wallet.address userWallet) name value
                            31536000 (Some 300000)) (snd r2)).
    pose (r4 := wait env {| hash := tx_hash 0 |} (snd r3)).
    destruct (proj2 (DidFacts.addAttribute_owner_check env service userDid
                    (utf16 "name") (utf16 "value") registered []
                    (world_of r1) (trace_of r1) (Wallet.address userWallet)
                    (Wallet.address adminWallet) (snd r2)
                    ltac:(vm_compute; reflexivity) ltac:(vm_compute; reflexivity)
                    ltac:(vm_compute; reflexivity))
                ltac:(vm_compute; reflexivity)
                name value {| hash := tx_hash 0 |} (snd r3)
                {| transactionHash := tx_hash 0 |} (snd r4)
                ltac:(vm_compute; reflexivity) ltac:(vm_compute; reflexivity)
                ltac:(vm_compute; reflexivity) ltac:(vm_compute; reflexivity))
      as [Hlen Hrun].
    split; [exact Hlen|]. rewrite Hrun. reflexivity.
Defined.

(** C5 as stated fails, twice.  With a name of 32 characters and a DID
    the admin does not own, the error [addAttribute] throws is the
    authorization error, not the length violation.  And on a registry
    that reports the zero address for the admin, the invocation submits
    the repair of the bootstrap check, which is mined, before it rejects
    the name. *)
Lemma long_name_other_error_and_repair :
  length (repeat (ch "a") 32) = 32%nat
  /\ fst (addAttribute env service userDid (repeat (ch "a") 32) (utf16 "value")
            (genesis, []))
     = throw (utf16 "属性追加に失敗しました: "
              ++ utf16 "権限不足: adminWallet (" ++ Wallet.address adminWallet
              ++ utf16 ") は DID " ++ Wallet.address userWallet
              ++ utf16 " の所有者ではありません。現在の所有者: "
              ++ Wallet.address userWallet)
  /\ fst (addAttribute RawRegistry.env service userDid (repeat (ch "a") 32)
            (utf16 "value") (unclaimed, []))
     = throw (utf16 "属性追加に失敗しました: "
              ++ utf16 "属性名が長すぎます（31文字以内）: " ++ repeat (ch "a") 32)
  /\ snd (snd (addAttribute RawRegistry.env service userDid (repeat (ch "a") 32)
                 (utf16 "value") (unclaimed, [])))
     = [call_identityOwner (Wallet.address adminWallet);
        call_send (changeOwner (Wallet.address adminWallet)
                     (Wallet.address adminWallet) None);
        call_wait {| hash := tx_hash 0 |};
        call_identityOwner (Wallet.address userWallet)]
  /\ RawRegistry.owner_entry
       (fst (snd (addAttribute RawRegistry.env service userDid (repeat (ch "a") 32)
                    (utf16 "value") (unclaimed, []))))
       (Wallet.address adminWallet)
     = Wallet.address adminWallet.
Proof. vm_compute. repeat split. Qed.

(** In [registered] the earlier checks pass and the 32-character name
    gets the length violation, after two reads. *)
Lemma addAttribute_rejects_long_name_witness :
  addAttribute env service userDid (repeat (ch "a") 32) (utf16 "value") (registered, [])
  = (throw (utf16 "属性追加に失敗しました: "
            ++ utf16 "属性名が長すぎます（31文字以内）: " ++ repeat (ch "a") 32),
     (snd (identityOwner env (Wallet.address userWallet)
             (world_of (ensureAdminRegistered env service (registered, [])))),
      trace_of (ensureAdminRegistered env service (registered, []))
      ++ [call_identityOwner (Wallet.address userWallet)])).
Proof.
  pose (r1 := ensureAdminRegistered env service (registered, [])).
  pose (r2 := identityOwner env (Wallet.address userWallet) (world_of r1)).
  apply (proj2 (DidFacts.addAttribute_rejects_long_name env service userDid
                  (repeat (ch "a") 32) (utf16 "value")
                  ltac:(vm_compute; lia))
           registered [] (world_of r1) (trace_of r1) (Wallet.address userWallet)
           (Wallet.address adminWallet) (snd r2));
    vm_compute; reflexivity.
Defined.

(** [deleteDid] on the user's DID in [registered]: the [owners] entry of
    the identity ends as the zero address. *)
Lemma deleteDid_zeroes_owner_witness :
  exists identity w1 t1 tx receipt,
    extractIdentity userDid = ok identity
    /\ ensureAdminRegistered env service (registered, []) = (ok tt, (w1, t1))
    /\ trace_of (deleteDid env service userDid (registered, []))
       = t1 ++ [call_send (changeOwner identity Ethers.AddressZero (Some 200000));
                call_wait tx]
    /\ {| Outcome.success := true; Outcome.transactionHash := tx_hash 0;
          Outcome.did := userDid |}
       = {| Outcome.success := true;
            Outcome.transactionHash := transactionHash receipt;
            Outcome.did := userDid |}
    /\ owner_entry (world_of (deleteDid env service userDid (registered, []))) identity
       = Ethers.AddressZero.
Proof.
  apply (DidFacts.deleteDid_zeroes_owner env service owner_entry
           RegistryFacts.registry_sets_owner userDid registered []).
  vm_compute. reflexivity.
Defined.

(** What ERC-1056 makes of the zero entry: the [owners] entry of the
    identity is the zero address after [deleteDid], and the contract's
    [identityOwner] view answers with the identity itself. *)
Example deleteDid_entry_and_view :
  owner_entry (world_of (deleteDid env service userDid (registered, [])))
    (Wallet.address userWallet) = Ethers.AddressZero
  /\ identityOwner_view (world_of (deleteDid env service userDid (registered, [])))
       (Wallet.address userWallet) = Wallet.address userWallet.
Proof. vm_compute. repeat split. Qed.

(** ** The further properties of the service, on the registry with raw
       entries *)

(** [registerDid] on [claimed] draws the key pair of the user: the DID it
    returns yields the user's address. *)
Lemma registerDid_did_is_extractable_witness :
  extractIdentity (Registration.did claimed_registration)
  = ok (Registration.address claimed_registration).
Proof.
  apply (DidFacts.registerDid_did_is_extractable RawRegistry.env service claimed []
           claimed_registration (snd (registerDid RawRegistry.env service (claimed, []))));
    vm_compute; reflexivity.
Defined.

(** [registerDid] on [claimed]. *)
Lemma registerDid_returns_ownership_transaction_witness :
  exists w1 t1 newWallet w2 n w3 messageHash tx w4 receipt w5 rest,
    ensureAdminRegistered RawRegistry.env service (claimed, []) = (ok tt, (w1, t1))
    /\ createRandom RawRegistry.env w1 = (newWallet, w2)
    /\ nonce RawRegistry.env (Wallet.address newWallet) w2 = (ok n, w3)
    /\ Did.solidityKeccak256 RawRegistry.env
         [sol_bytes1 0x19; sol_bytes1 0x00; sol_address (registryAddress service);
          sol_uint256 n; sol_address (Wallet.address newWallet);
          sol_string (utf16 "changeOwner"); sol_address (admin service)] = ok messageHash
    /\ send RawRegistry.env
         (changeOwnerSigned (Wallet.address newWallet)
            (v (Did.signDigest RawRegistry.env (Wallet.privateKey newWallet) messageHash))
            (r (Did.signDigest RawRegistry.env (Wallet.privateKey newWallet) messageHash))
            (s (Did.signDigest RawRegistry.env (Wallet.privateKey newWallet) messageHash))
            (admin service)) w3
       = (ok tx, w4)
    /\ wait RawRegistry.env tx w4 = (ok receipt, w5)
    /\ Registration.transactionHash claimed_registration = transactionHash receipt
    /\ snd (snd registration)
       = t1 ++ [call_nonce (Wallet.address newWallet);
                call_send
                  (changeOwnerSigned (Wallet.address newWallet)
                     (v (Did.signDigest RawRegistry.env (Wallet.privateKey newWallet)
                           messageHash))
                     (r (Did.signDigest RawRegistry.env (Wallet.privateKey newWallet)
                           messageHash))
                     (s (Did.signDigest RawRegistry.env (Wallet.privateKey newWallet)
                           messageHash))
                     (admin service));
                call_wait tx] ++ rest
    /\ (rest = []
        \/ exists name value,
             Ethers.formatBytes32String (utf16 "did/pub/secp256k1/veriKey") = ok name
             /\ Ethers.toUtf8Bytes (Wallet.publicKey newWallet) = ok value
             /\ (rest = [call_send (setAttribute (Wallet.address newWallet) name value
                                      31536000 (Some 300000))]
                 \/ exists pubKeyTx,
                      rest = [call_send (setAttribute (Wallet.address newWallet) name
                                           value 31536000 (Some 300000));
                              call_wait pubKeyTx])).
Proof.
  apply (DidFacts.registerDid_returns_ownership_transaction RawRegistry.env service
           claimed [] claimed_registration (fst (snd registration))
           (snd (snd registration))).
  vm_compute. reflexivity.
Defined.

(** The calls of that run: the read of the bootstrap check, the nonce,
    the ownership transaction and the public-key attribute, each write
    followed by its wait. *)
Example registerDid_calls :
  map (fun c => match c with
                | call_identityOwner _ => 0%nat
                | call_nonce _ => 1%nat
                | call_send (changeOwnerSigned _ _ _ _ _) => 2%nat
                | call_send (setAttribute _ _ _ _ _) => 3%nat
                | call_send _ => 4%nat
                | call_wait _ => 5%nat
                end) (snd (snd registration))
  = [0; 1; 2; 5; 3; 5]%nat.
Proof. vm_compute. reflexivity. Qed.

(** [removeAttribute] on the user's DID in [claimed]. *)
Lemma removeAttribute_revokes_without_owner_check_witness :
  exists identity name w1 t1 tx w2 receipt,
    extractIdentity userDid = ok identity
    /\ Ethers.formatBytes32String (utf16 "name") = ok name
    /\ ensureAdminRegistered RawRegistry.env service (claimed, []) = (ok tt, (w1, t1))
    /\ send RawRegistry.env (revokeAttribute identity name [] (Some 200000)) w1
       = (ok tx, w2)
    /\ wait RawRegistry.env tx w2 = (ok receipt, fst (snd revocation))
    /\ snd (snd revocation)
       = t1 ++ [call_send (revokeAttribute identity name [] (Some 200000));
                call_wait tx]
    /\ {| Outcome.success := true; Outcome.transactionHash := tx_hash 0;
          Outcome.did := userDid |}
       = {| Outcome.success := true;
            Outcome.transactionHash := transactionHash receipt;
            Outcome.did := userDid |}.
Proof.
  apply (DidFacts.removeAttribute_revokes_without_owner_check RawRegistry.env service
           userDid (utf16 "name") claimed []
           {| Outcome.success := true; Outcome.transactionHash := tx_hash 0;
              Outcome.did := userDid |}
           (fst (snd revocation)) (snd (snd revocation))).
  vm_compute. reflexivity.
Defined.

(** The calls of that run: one read for the bootstrap check, the
    submission and the wait; the owner of the user's identity is not
    read. *)
Example removeAttribute_calls :
  snd (snd revocation)
  = [call_identityOwner (Wallet.address adminWallet);
     call_send (revokeAttribute (Wallet.address userWallet)
                  (firstn 32 (map Z.of_N (utf16 "name") ++ repeat 0 32)) []
                  (Some 200000));
     call_wait {| hash := tx_hash 0 |}].
Proof. vm_compute. reflexivity. Qed.

(** A name of 32 letters: the error is that of [formatBytes32String], and
    the read of the bootstrap check is the only call. *)
Lemma removeAttribute_rejects_unencodable_name_witness :
  removeAttribute RawRegistry.env service userDid (repeat (ch "a") 32) (claimed, [])
  = (throw (utf16 "属性削除に失敗しました: " ++ Ethers.msg_bytes32_too_long),
     (claimed, [call_identityOwner (admin service)])).
Proof.
  apply (proj2 (DidFacts.removeAttribute_rejects_unencodable_name RawRegistry.env service
                  userDid (repeat (ch "a") 32) Ethers.msg_bytes32_too_long
                  ltac:(vm_compute; reflexivity))
           claimed [] claimed [call_identityOwner (admin service)]
           (Wallet.address userWallet));
    vm_compute; reflexivity.
Defined.

(** A DID of another method: [deleteDid] throws the error of the
    extraction behind its prefix after the one read of the bootstrap
    check. *)
Lemma invalid_did_stops_after_bootstrap_witness :
  deleteDid RawRegistry.env service (utf16 "did:web:example.com") (claimed, [])
  = (throw (utf16 "DID削除に失敗しました: "
            ++ (DidSpec.msg_unsupported_did ++ utf16 "did:web:example.com")),
     (claimed, [call_identityOwner (admin service)])).
Proof.
  apply (proj2 (proj2 (DidFacts.invalid_did_stops_after_bootstrap RawRegistry.env service
                         (utf16 "did:web:example.com")
                         (DidSpec.msg_unsupported_did ++ utf16 "did:web:example.com")
                         claimed [] claimed [call_identityOwner (admin service)]
                         ltac:(vm_compute; reflexivity) ltac:(vm_compute; reflexivity)))).
Defined.

End ScenarioFacts.

(** ** SimpleAccount: nonce, signature and authorization *)

Module SimpleAccountFacts.

Import SimpleAccount AccountSpec WalletSpec.

Section Contract.

Variable Chain : Type.
Variable extcall : Chain -> ExtCall -> bool * list Z * Chain.
Variable _entryPoint : Z.
Variable toEthSignedMessageHash : list Z -> list Z.
Variable recover : list Z -> list Z -> Revert + Z.

(** The statements of this section are about chains none of whose
    contracts calls back into the account. *)
#[local] Abbreviation validateUserOp :=
  (validateUserOp Chain (without_reentry extcall) _entryPoint toEthSignedMessageHash
     recover).
#[local] Abbreviation execute := (execute Chain (without_reentry extcall) _entryPoint).


(** Reduces a call of the contract to the cases of its checks. *)
Ltac unfold_call :=
  unfold SimpleAccount.validateUserOp, SimpleAccount.execute, onlyEntryPoint,
    _validateSignature, _validateNonce, _payPrefund, _call, low_level_call,
    without_reentry, bind, require, load, store, revert, ret;
  cbn [fst snd app].

(** Closes the cases of the nonce discipline. *)
Ltac settle :=
  cbn [storage_after _nonce owner];
  repeat split; intros;
  try match goal with
      | H : inr _ = inr _ |- _ => injection H as <- <- <-
      end;
  cbn [_nonce owner];
  try discriminate; try congruence; eauto;
  try (left; reflexivity); try (right; reflexivity).

(** C8.  A user operation whose nonce differs from the stored one makes
    [validateUserOp] revert (with "invalid nonce" once the caller and the
    signature checks are passed); a call that returns was given the stored
    nonce and leaves it advanced by exactly one; a call that reverts
    leaves the storage, and so the nonce, as it was. *)
Theorem validateUserOp_nonce_discipline :
  forall msg_sender userOp userOpHash missingAccountFunds st chain,
    let out := fst (validateUserOp msg_sender userOp userOpHash missingAccountFunds
                      (st, chain)) in
    (nonce userOp <> _nonce st -> exists r, out = inl r)
    /\ (nonce userOp <> _nonce st ->
        msg_sender = _entryPoint ->
        forall recovered,
          recover (toEthSignedMessageHash userOpHash) (signature userOp) = inr recovered ->
          out = inl (Error "invalid nonce"))
    /\ (forall validationData st' chain',
          out = inr (validationData, (st', chain')) ->
          nonce userOp = _nonce st
          /\ _nonce st' = _nonce st + 1
          /\ owner st' = owner st)
    /\ (_nonce (storage_after st out) = _nonce st
        \/ _nonce (storage_after st out) = _nonce st + 1)
    /\ (forall r, out = inl r -> storage_after st out = st).
Proof.
  intros msg_sender userOp userOpHash missingAccountFunds st chain out.
  subst out. unfold_call.
  destruct (msg_sender =? _entryPoint) eqn:Hep; cbn [fst snd app].
  2:{ apply Z.eqb_neq in Hep. settle. }
  destruct (recover _ _) as [r|recovered] eqn:Hrec; cbn [fst snd app]; [settle|].
  destruct (negb (owner st =? recovered)); cbn [fst snd app];
    (destruct (nonce userOp =? _nonce st) eqn:Hnonce; cbn [fst snd app];
     [apply Z.eqb_eq in Hnonce | apply Z.eqb_neq in Hnonce; settle]);
    (destruct (_nonce st =? uint256_max); cbn [fst snd app]; [settle|]);
    (destruct (negb (missingAccountFunds =? 0)); cbn [fst snd app]; [|settle]);
    destruct (extcall chain _) as [[success returndata] chain1]; cbn [fst snd app];
    destruct success; cbn [fst snd app]; settle.
Qed.

(** C9.  Called by neither the EntryPoint nor the owner, [execute] reverts
    with "not authorized" and attempts no call.  Called by either, it
    makes exactly the requested call, returns when the call succeeds and
    re-throws the callee's revert data when it fails. *)
Theorem execute_authorization :
  forall msg_sender dest value func st chain,
    (msg_sender <> _entryPoint /\ msg_sender <> owner st ->
     execute msg_sender dest value func (st, chain)
     = (inl (Error "not authorized"), []))
    /\ (msg_sender = _entryPoint \/ msg_sender = owner st ->
        execute msg_sender dest value func (st, chain)
        = (let c := {| target := dest; SimpleAccount.value := value; data := func |} in
           let '(success, returndata, chain') := extcall chain c in
           if success then inr (tt, (st, chain')) else inl (Bubbled returndata),
           [eff_call {| target := dest; SimpleAccount.value := value; data := func |}])).
Proof.
  intros msg_sender dest value func st chain. unfold_call. split.
  - intros [Hep Howner].
    apply Z.eqb_neq in Hep, Howner. rewrite Hep, Howner. reflexivity.
  - intros Hauth.
    assert (Hcheck : (msg_sender =? _entryPoint) || (msg_sender =? owner st) = true).
    { destruct Hauth as [->| ->]; rewrite Z.eqb_refl; [reflexivity|apply orb_true_r]. }
    rewrite Hcheck. cbn [fst snd app].
    destruct (extcall chain _) as [[success returndata] chain1]; cbn [fst snd app].
    destruct success; reflexivity.
Qed.

(** C10, as amended.  A signature that is well-formed but recovers to an
    address other than the owner does not abort the call: for the
    EntryPoint as caller and the stored nonce, [validateUserOp] returns
    [SIG_VALIDATION_FAILED] and the stored nonce is advanced by one,
    provided the nonce is not the last one and the prefund, if any is
    due, is paid.  A signature that [ECDSA.recover] rejects does abort
    it: [validateUserOp] reverts with the error of [ECDSA.recover], and
    the storage, the nonce with it, stays as it was. *)
Theorem validateUserOp_wrong_signer_consumes_nonce :
  forall userOp userOpHash missingAccountFunds st chain,
    (forall recovered,
        recover (toEthSignedMessageHash userOpHash) (signature userOp) = inr recovered ->
        recovered <> owner st ->
        nonce userOp = _nonce st ->
        _nonce st < uint256_max ->
        (missingAccountFunds = 0
         \/ fst (fst (extcall chain {| target := _entryPoint; value := missingAccountFunds;
                                       data := [] |})) = true) ->
        exists chain' effects,
          validateUserOp _entryPoint userOp userOpHash missingAccountFunds (st, chain)
          = (inr (SIG_VALIDATION_FAILED,
                  ({| owner := owner st; _nonce := _nonce st + 1 |}, chain')), effects)
          /\ SIG_VALIDATION_FAILED = 1)
    /\ (forall r,
          recover (toEthSignedMessageHash userOpHash) (signature userOp) = inl r ->
          validateUserOp _entryPoint userOp userOpHash missingAccountFunds (st, chain)
          = (inl r, [])
          /\ storage_after st
               (fst (validateUserOp _entryPoint userOp userOpHash missingAccountFunds
                       (st, chain))) = st).
Proof.
  intros userOp userOpHash missingAccountFunds st chain. split.
  - intros recovered Hrec Hother Hnonce Hroom Hfund.
    unfold_call. rewrite Hrec, Z.eqb_refl. cbn [fst snd app].
    assert (Hneq : (owner st =? recovered) = false) by (apply Z.eqb_neq; congruence).
    rewrite Hneq. cbn [negb fst snd app].
    rewrite Hnonce, Z.eqb_refl. cbn [fst snd app].
    assert (Hmax : (_nonce st =? uint256_max) = false) by (apply Z.eqb_neq; lia).
    rewrite Hmax. cbn [fst snd app].
    destruct (missingAccountFunds =? 0) eqn:Hzero; cbn [negb fst snd app].
    + eauto.
    + destruct Hfund as [->|Hpaid]; [discriminate|].
      destruct (extcall chain _) as [[success returndata] chain1]; cbn [fst snd app] in *.
      subst success. cbn [fst snd app]. eauto.
  - intros r Hrec.
    assert (Hrun : validateUserOp _entryPoint userOp userOpHash missingAccountFunds
                     (st, chain) = (inl r, [])).
    { unfold_call. rewrite Hrec, Z.eqb_refl. reflexivity. }
    rewrite Hrun. split; reflexivity.
Qed.

(** The other way a signature can be bad: when [ECDSA.recover] itself
    reverts (a malformed signature), so does [validateUserOp], and the
    nonce stays. *)
Remark validateUserOp_unrecoverable_signature :
  forall userOp userOpHash missingAccountFunds st chain r,
    recover (toEthSignedMessageHash userOpHash) (signature userOp) = inl r ->
    validateUserOp _entryPoint userOp userOpHash missingAccountFunds (st, chain)
    = (inl r, []).
Proof.
  intros userOp userOpHash missingAccountFunds st chain r Hrec.
  unfold_call. rewrite Hrec, Z.eqb_refl. reflexivity.
Qed.

#[local] Abbreviation initialize := (initialize Chain _entryPoint).
#[local] Abbreviation getNonce := (getNonce Chain).
#[local] Abbreviation validate_each :=
  (validate_each Chain extcall _entryPoint toEthSignedMessageHash recover).

(** *** What else the account does

    What a [validateUserOp] that returns was given, and what it has done
    to the storage. *)
Lemma validateUserOp_returns msg_sender userOp userOpHash missingAccountFunds st chain
    validationData st' chain' :
  fst (validateUserOp msg_sender userOp userOpHash missingAccountFunds (st, chain))
  = inr (validationData, (st', chain')) ->
  msg_sender = _entryPoint
  /\ nonce userOp = _nonce st
  /\ st' = {| owner := owner st; _nonce := _nonce st + 1 |}
  /\ exists recovered,
       recover (toEthSignedMessageHash userOpHash) (signature userOp) = inr recovered
       /\ validationData = (if owner st =? recovered then SIG_VALIDATION_SUCCESS
                            else SIG_VALIDATION_FAILED).
Proof.
  unfold_call.
  destruct (msg_sender =? _entryPoint) eqn:Hep; cbn [fst snd app]; [|discriminate].
  apply Z.eqb_eq in Hep.
  destruct (recover _ _) as [r|recovered] eqn:Hrec; cbn [fst snd app]; [discriminate|].
  destruct (owner st =? recovered) eqn:Hsig; cbn [negb fst snd app];
    (destruct (nonce userOp =? _nonce st) eqn:Hnonce; cbn [fst snd app]; [|discriminate]);
    apply Z.eqb_eq in Hnonce;
    (destruct (_nonce st =? uint256_max); cbn [fst snd app]; [discriminate|]);
    (destruct (negb (missingAccountFunds =? 0)); cbn [fst snd app]);
    try (destruct (extcall chain _) as [[[] returndata] chain1]; cbn [fst snd app];
         try discriminate);
    intros H; injection H as <- <- <-; repeat split; auto;
    exists recovered; rewrite Hsig; split; reflexivity.
Qed.

(** X9.  [validateUserOp] is the EntryPoint's alone: for any other
    caller it reverts with "not from EntryPoint" before it looks at the
    signature or the nonce, and attempts no call. *)
Theorem validateUserOp_only_from_entryPoint :
  forall msg_sender userOp userOpHash missingAccountFunds st chain,
    msg_sender <> _entryPoint ->
    validateUserOp msg_sender userOp userOpHash missingAccountFunds (st, chain)
    = (inl (Error "not from EntryPoint"), []).
Proof.
  intros msg_sender userOp userOpHash missingAccountFunds st chain Hep.
  unfold_call. apply Z.eqb_neq in Hep. now rewrite Hep.
Qed.

(** X10.  A user operation that was accepted is not accepted again: the
    stored nonce is then one more than the nonce of the operation, and
    from any later storage, whose nonce is at least that, [validateUserOp]
    reverts on the same operation, whoever submits it, with whatever hash,
    funds and chain. *)
Theorem validateUserOp_no_replay :
  forall msg_sender userOp userOpHash missingAccountFunds st chain validationData st' chain',
    fst (validateUserOp msg_sender userOp userOpHash missingAccountFunds (st, chain))
    = inr (validationData, (st', chain')) ->
    _nonce st' = nonce userOp + 1
    /\ forall msg_sender2 userOpHash2 missingAccountFunds2 st2 chain2,
         _nonce st' <= _nonce st2 ->
         exists r,
           fst (validateUserOp msg_sender2 userOp userOpHash2 missingAccountFunds2
                  (st2, chain2)) = inl r.
Proof.
  intros msg_sender userOp userOpHash missingAccountFunds st chain validationData st' chain'
    Hrun.
  apply validateUserOp_returns in Hrun as (_ & Hnonce & -> & _).
  cbn [_nonce]. split; [lia|].
  intros msg_sender2 userOpHash2 missingAccountFunds2 st2 chain2 Hlater.
  unfold_call.
  destruct (msg_sender2 =? _entryPoint); cbn [fst snd app]; [|eauto].
  destruct (recover _ _) as [r|recovered]; cbn [fst snd app]; [eauto|].
  assert (Hstale : (nonce userOp =? _nonce st2) = false) by (apply Z.eqb_neq; lia).
  destruct (negb (owner st2 =? recovered)); cbn [fst snd app];
    rewrite Hstale; cbn [fst snd app]; eauto.
Qed.

(** X11.  Over any sequence of submissions, the nonce [getNonce] reports
    at the end is the nonce at the start plus the number of submissions
    that were accepted, the accepted operations carry the consecutive
    nonces from the one at the start on, and the owner is never changed. *)
Theorem nonce_counts_accepted_operations :
  forall msg_sender subs st chain,
    let accepted := fst (validate_each msg_sender subs (st, chain)) in
    let st' := fst (snd (validate_each msg_sender subs (st, chain))) in
    let chain' := snd (snd (validate_each msg_sender subs (st, chain))) in
    owner st' = owner st
    /\ getNonce (st', chain')
       = (inr (_nonce st + Z.of_nat (length accepted), (st', chain')), [])
    /\ map (fun x => nonce (op x)) accepted
       = map (fun i => _nonce st + Z.of_nat i) (seq 0 (length accepted)).
Proof.
  intros msg_sender subs. induction subs as [|x rest IH]; intros st chain.
  - cbn. rewrite Z.add_0_r. auto.
  - cbn zeta in *. cbn [WalletSpec.validate_each].
    destruct (fst (validateUserOp msg_sender (op x) (opHash x) (missingAccountFunds x)
                     (st, chain))) as [r|[validationData [st1 chain1]]] eqn:Hrun.
    + apply IH.
    + apply validateUserOp_returns in Hrun as (_ & Hnonce & -> & _).
      specialize (IH {| owner := owner st; _nonce := _nonce st + 1 |} chain1).
      destruct (validate_each msg_sender rest _) as [accepted [st2 chain2]].
      cbn [fst snd length map owner _nonce seq] in *.
      destruct IH as (Howner & Hget & Hnonces).
      split; [exact Howner|]. split.
      * rewrite Hget. do 3 f_equal. lia.
      * rewrite Hnonce, Z.add_0_r. f_equal.
        rewrite Hnonces, <- seq_shift, map_map.
        apply map_ext. intros i. lia.
Qed.


(** X12.  The validation data of a [validateUserOp] that returns is 0 or
    1, and it is 0 exactly when the signature recovers to the stored
    owner. *)
Theorem validateUserOp_reports_signer :
  forall msg_sender userOp userOpHash missingAccountFunds st chain validationData st' chain',
    fst (validateUserOp msg_sender userOp userOpHash missingAccountFunds (st, chain))
    = inr (validationData, (st', chain')) ->
    (validationData = 0 \/ validationData = 1)
    /\ (validationData = 0 <->
        recover (toEthSignedMessageHash userOpHash) (signature userOp) = inr (owner st)).
Proof.
  intros msg_sender userOp userOpHash missingAccountFunds st chain validationData st' chain'
    Hrun.
  apply validateUserOp_returns in Hrun as (_ & _ & _ & recovered & Hrec & ->).
  rewrite Hrec. unfold SIG_VALIDATION_SUCCESS, SIG_VALIDATION_FAILED.
  destruct (owner st =? recovered) eqn:Hsig.
  - apply Z.eqb_eq in Hsig. subst recovered. tauto.
  - apply Z.eqb_neq in Hsig. split; [tauto|].
    split; [discriminate|]. intros H. injection H as ->. contradiction.
Qed.

(** X13.  The only call [validateUserOp] ever attempts is the prefund: a
    call to its caller with the missing funds as value and no data, and
    only when funds are missing.  A [validateUserOp] that returns has
    made no call when no funds were missing and has left the chain as it
    was, and has otherwise made that one call, which succeeded; when the
    call fails, [validateUserOp] reverts with "prefund failed". *)
Theorem validateUserOp_prefund :
  forall msg_sender userOp userOpHash missingAccountFunds st chain,
    let run := validateUserOp msg_sender userOp userOpHash missingAccountFunds (st, chain) in
    let prefund := {| target := msg_sender; value := missingAccountFunds; data := [] |} in
    (snd run = [] \/ missingAccountFunds <> 0 /\ snd run = [eff_call prefund])
    /\ (forall validationData st' chain',
          fst run = inr (validationData, (st', chain')) ->
          if missingAccountFunds =? 0 then snd run = [] /\ chain' = chain
          else snd run = [eff_call prefund]
               /\ exists returndata, extcall chain prefund = (true, returndata, chain'))
    /\ (snd run = [eff_call prefund] ->
        fst (fst (extcall chain prefund)) = false ->
        fst run = inl (Error "prefund failed")).
Proof.
  intros msg_sender userOp userOpHash missingAccountFunds st chain run prefund.
  subst run prefund. unfold_call.
  destruct (msg_sender =? _entryPoint); cbn [fst snd app];
    [|repeat split; auto; discriminate].
  destruct (recover _ _) as [r|recovered]; cbn [fst snd app];
    [repeat split; auto; discriminate|].
  destruct (negb (owner st =? recovered)); cbn [fst snd app];
    (destruct (nonce userOp =? _nonce st); cbn [fst snd app];
     [|repeat split; auto; discriminate]);
    (destruct (_nonce st =? uint256_max); cbn [fst snd app];
     [repeat split; auto; discriminate|]);
    (destruct (missingAccountFunds =? 0) eqn:Hzero; cbn [negb fst snd app];
     [repeat split; auto; try discriminate; intros; congruence|]);
    apply Z.eqb_neq in Hzero;
    destruct (extcall chain _) as [[[] returndata] chain1]; cbn [fst snd app];
    repeat split; auto; try discriminate;
    try (match goal with H : inr _ = inr _ |- _ => injection H as <- <- <- end; eauto).
Qed.

(** X14.  At the last nonce the account stops accepting: with the stored
    nonce at [2^256 - 1], an operation of the EntryPoint that carries this
    nonce and a recoverable signature reverts with the arithmetic panic,
    and no call is attempted. *)
Theorem validateUserOp_nonce_overflow :
  forall userOp userOpHash missingAccountFunds st chain recovered,
    recover (toEthSignedMessageHash userOpHash) (signature userOp) = inr recovered ->
    nonce userOp = _nonce st ->
    _nonce st = uint256_max ->
    validateUserOp _entryPoint userOp userOpHash missingAccountFunds (st, chain)
    = (inl (Panic 0x11), []).
Proof.
  intros userOp userOpHash missingAccountFunds st chain recovered Hrec Hnonce Hmax.
  unfold_call. rewrite Z.eqb_refl, Hrec. cbn [fst snd app].
  destruct (negb (owner st =? recovered)); cbn [fst snd app];
    rewrite Hnonce, Z.eqb_refl; cbn [fst snd app];
    rewrite Hmax, Z.eqb_refl; reflexivity.
Qed.

(** X15.  [initialize] on an account without owner sets the owner, keeps
    the nonce and emits [SimpleAccountInitialized] with the EntryPoint
    and the owner.  A second [initialize] then reverts with "already
    initialized", unless the owner that was set is the zero address: the
    account is then still open, and the second call sets its owner. *)
Theorem initialize_locks_nonzero_owner :
  forall anOwner st chain,
    owner st = 0 ->
    exists st1,
      initialize anOwner (st, chain)
      = (inr (tt, (st1, chain)), [eff_emit (SimpleAccountInitialized _entryPoint anOwner)])
      /\ owner st1 = anOwner
      /\ _nonce st1 = _nonce st
      /\ forall other chain2,
           initialize other (st1, chain2)
           = if anOwner =? 0 then
               (inr (tt, ({| owner := other; _nonce := _nonce st |}, chain2)),
                [eff_emit (SimpleAccountInitialized _entryPoint other)])
             else (inl (Error "already initialized"), []).
Proof.
  intros anOwner st chain Hfresh.
  exists {| owner := anOwner; _nonce := _nonce st |}.
  unfold SimpleAccount.initialize, bind, require, load, store, emit, revert, ret.
  cbn [fst snd app owner _nonce]. rewrite Hfresh. cbn [Z.eqb fst snd app].
  repeat split. intros other chain2.
  destruct (anOwner =? 0); reflexivity.
Qed.

End Contract.

(** *** Calls to callees that may call back *)

Section Calls.

(** Nothing is assumed of the callees here: a call may leave the storage
    of the account changed. *)
Variable Chain : Type.
Variable extcall : State * Chain -> ExtCall -> bool * list Z * (State * Chain).
Variable _entryPoint : Z.

#[local] Abbreviation execute := (execute Chain extcall _entryPoint).
#[local] Abbreviation executeBatch := (executeBatch Chain extcall _entryPoint).
#[local] Abbreviation call_in_order := (call_in_order Chain extcall).

Lemma bind_ret_l {A B} (a : A) (k : A -> Sol Chain B) s :
  bind Chain (ret Chain a) k s = k a s.
Proof. unfold bind, ret. destruct (k a s). reflexivity. Qed.

Lemma index_in_range {A} (a : list A) (i : nat) (d : A) :
  (i < length a)%nat -> index Chain a i = ret Chain (nth i a d).
Proof.
  intros Hi. unfold index.
  destruct (lookup_lt_is_Some_2 a i Hi) as [x Hx].
  rewrite Hx. now rewrite (nth_lookup_Some _ _ d _ Hx).
Qed.

(** The only revert of calls made in order is the revert data of a call. *)
Lemma call_in_order_reverts calls s r :
  fst (call_in_order calls s) = inl r -> exists returndata, r = Bubbled returndata.
Proof.
  revert s. induction calls as [|c rest IH]; intros s; cbn [WalletSpec.call_in_order].
  - discriminate.
  - destruct (extcall s c) as [[[] returndata] s1].
    + specialize (IH s1). destruct (call_in_order rest s1) as [out effects].
      exact IH.
    + cbn. intros H. injection H as <-. eauto.
Qed.

(** A loop whose body makes the [i]-th call makes the calls in order. *)
Lemma for_loop_calls (g : nat -> ExtCall) (body : nat -> Sol Chain unit) :
  forall count first s,
    (forall i s, (first <= i < first + count)%nat ->
                 body i s = _call Chain extcall (target (g i)) (value (g i)) (data (g i)) s) ->
    for_loop Chain count first body s
    = batch_outcome (call_in_order (map g (seq first count)) s).
Proof.
  induction count as [|count IH]; intros first s Hbody.
  - reflexivity.
  - cbn [SimpleAccount.for_loop seq map WalletSpec.call_in_order].
    unfold bind at 1. rewrite Hbody by lia.
    unfold _call, low_level_call, bind, revert, ret. cbn [fst snd app].
    destruct (g first) as [target value data].
    cbn [SimpleAccount.target SimpleAccount.value SimpleAccount.data].
    destruct (extcall s _) as [[[] returndata] s1]; cbn [negb fst snd app];
      [|reflexivity].
    rewrite IH by (intros; apply Hbody; lia).
    unfold batch_outcome.
    destruct (call_in_order _ s1) as [[r|s2] effects]; reflexivity.
Qed.

Lemma batch_loop dest value func s :
  length dest = length func ->
  length value = 0%nat \/ length value = length func ->
  (if (length value =? 0)%nat then
     for_loop Chain (length dest) 0 (fun i =>
       bind Chain (index Chain dest i) (fun d =>
       bind Chain (index Chain func i) (fun f =>
       _call Chain extcall d 0 f)))
   else
     for_loop Chain (length dest) 0 (fun i =>
       bind Chain (index Chain dest i) (fun d =>
       bind Chain (index Chain value i) (fun v =>
       bind Chain (index Chain func i) (fun f =>
       _call Chain extcall d v f))))) s
  = batch_outcome (call_in_order (requested dest value func) s).
Proof.
  intros Hfunc Hvalue. unfold requested.
  destruct (length value =? 0)%nat eqn:Hnone.
  - apply Nat.eqb_eq in Hnone. apply nil_length_inv in Hnone. subst value.
    apply for_loop_calls. intros i s0 Hi. cbn [target SimpleAccount.value data].
    rewrite (index_in_range dest i 0), bind_ret_l by lia.
    rewrite (index_in_range func i []), bind_ret_l by lia.
    now destruct i.
  - apply Nat.eqb_neq in Hnone.
    apply for_loop_calls. intros i s0 Hi. cbn [target SimpleAccount.value data].
    rewrite (index_in_range dest i 0), bind_ret_l by lia.
    rewrite (index_in_range value i 0), bind_ret_l by lia.
    rewrite (index_in_range func i []), bind_ret_l by lia.
    reflexivity.
Qed.

(** Opens [executeBatch] up to its first check. *)
Ltac unfold_batch :=
  unfold SimpleAccount.executeBatch;
  unfold bind at 1; unfold load at 1; cbn [fst snd app];
  unfold bind at 1; unfold require at 1.

Lemma executeBatch_refused msg_sender dest value func st chain :
  (msg_sender =? _entryPoint) || (msg_sender =? owner st) = false ->
  executeBatch msg_sender dest value func (st, chain)
  = (inl (Error "not authorized"), []).
Proof. intros Hcheck. unfold_batch. rewrite Hcheck. reflexivity. Qed.

Lemma executeBatch_authorized msg_sender dest value func st chain :
  msg_sender = _entryPoint \/ msg_sender = owner st ->
  executeBatch msg_sender dest value func (st, chain)
  = if (length dest =? length func)%nat
       && ((length value =? 0)%nat || (length value =? length func)%nat)
    then batch_outcome (call_in_order (requested dest value func) (st, chain))
    else (inl (Error "wrong array lengths"), []).
Proof.
  intros Hauth. unfold_batch.
  assert (Hcheck : (msg_sender =? _entryPoint) || (msg_sender =? owner st) = true).
  { destruct Hauth as [->| ->]; rewrite Z.eqb_refl; [reflexivity|apply orb_true_r]. }
  rewrite Hcheck. unfold ret at 1. cbn [fst snd app].
  unfold bind at 1. unfold require at 1.
  destruct ((length dest =? length func)%nat
            && ((length value =? 0)%nat || (length value =? length func)%nat))
    eqn:Hlengths; [|reflexivity].
  unfold ret at 1. cbn [fst snd app].
  apply andb_prop in Hlengths as [Hfunc Hvalue].
  apply Nat.eqb_eq in Hfunc. apply orb_prop in Hvalue.
  rewrite batch_loop.
  - unfold batch_outcome. destruct (call_in_order _ _) as [[r|s'] effects]; reflexivity.
  - exact Hfunc.
  - destruct Hvalue as [H|H]; apply Nat.eqb_eq in H; auto.
Qed.

(** X16.  Called by neither the EntryPoint nor the owner, [executeBatch]
    reverts with "not authorized" and attempts no call, whatever the
    arrays are: the caller is checked before the array lengths. *)
Theorem executeBatch_authorization :
  forall msg_sender dest value func st chain,
    msg_sender <> _entryPoint ->
    msg_sender <> owner st ->
    executeBatch msg_sender dest value func (st, chain)
    = (inl (Error "not authorized"), []).
Proof.
  intros msg_sender dest value func st chain Hep Howner.
  apply executeBatch_refused.
  apply Z.eqb_neq in Hep, Howner. now rewrite Hep, Howner.
Qed.

(** X17.  For the EntryPoint and the owner, [executeBatch] reverts with
    "wrong array lengths", before any call, exactly when [dest] and
    [func] differ in length or [value] is neither empty nor as long as
    [func]. *)
Theorem executeBatch_array_lengths :
  forall msg_sender dest value func st chain,
    msg_sender = _entryPoint \/ msg_sender = owner st ->
    executeBatch msg_sender dest value func (st, chain)
    = (inl (Error "wrong array lengths"), [])
    <-> (length dest <> length func
         \/ (length value <> 0 /\ length value <> length func))%nat.
Proof.
  intros msg_sender dest value func st chain Hauth.
  rewrite executeBatch_authorized by exact Hauth.
  destruct (length dest =? length func)%nat eqn:Hfunc; cbn [andb].
  2:{ apply Nat.eqb_neq in Hfunc. tauto. }
  apply Nat.eqb_eq in Hfunc.
  destruct (length value =? 0)%nat eqn:Hnone; cbn [orb].
  { apply Nat.eqb_eq in Hnone. split; [|lia].
    unfold batch_outcome. intros H. exfalso.
    destruct (fst (call_in_order _ _)) as [r|s'] eqn:Hout; [|discriminate].
    apply call_in_order_reverts in Hout as [returndata ->]. discriminate. }
  apply Nat.eqb_neq in Hnone.
  destruct (length value =? length func)%nat eqn:Hvalue.
  { apply Nat.eqb_eq in Hvalue. split; [|lia].
    unfold batch_outcome. intros H. exfalso.
    destruct (fst (call_in_order _ _)) as [r|s'] eqn:Hout; [|discriminate].
    apply call_in_order_reverts in Hout as [returndata ->]. discriminate. }
  apply Nat.eqb_neq in Hvalue. tauto.
Qed.

Lemma nth_repeat_zero (n i : nat) : nth i (repeat 0 n) 0 = 0.
Proof.
  revert i. induction n as [|n IH]; intros [|i]; cbn; auto.
Qed.

(** X19.  An empty [value] array stands for sending no value with any
    call: the batch behaves as with an array of zeros of the length of
    [dest]. *)
Theorem executeBatch_no_values_is_zero_values :
  forall msg_sender dest func st chain,
    executeBatch msg_sender dest [] func (st, chain)
    = executeBatch msg_sender dest (repeat 0 (length dest)) func (st, chain).
Proof.
  intros msg_sender dest func st chain.
  destruct ((msg_sender =? _entryPoint) || (msg_sender =? owner st)) eqn:Hcheck.
  - assert (Hauth : msg_sender = _entryPoint \/ msg_sender = owner st).
    { apply orb_prop in Hcheck as [H|H]; apply Z.eqb_eq in H; auto. }
    rewrite !executeBatch_authorized by exact Hauth.
    rewrite repeat_length. cbn [length Nat.eqb orb].
    destruct (length dest =? length func)%nat eqn:Hfunc; cbn [andb]; [|reflexivity].
    rewrite orb_true_r.
    assert (Hsame : requested dest [] func = requested dest (repeat 0 (length dest)) func).
    { unfold requested. apply map_ext. intros i. rewrite nth_repeat_zero. now destruct i. }
    now rewrite Hsame.
  - now rewrite !executeBatch_refused.
Qed.

(** X20.  A batch of one call is [execute]: same authorization, same
    call, same outcome. *)
Theorem executeBatch_of_one_is_execute :
  forall msg_sender dest value func st chain,
    executeBatch msg_sender [dest] [value] [func] (st, chain)
    = execute msg_sender dest value func (st, chain).
Proof.
  intros msg_sender dest value func st chain.
  unfold SimpleAccount.executeBatch, SimpleAccount.execute, index, for_loop, _call,
    low_level_call, bind, require, load, store, revert, ret.
  cbn [fst snd app length Nat.eqb andb orb lookup list_lookup].
  destruct ((msg_sender =? _entryPoint) || (msg_sender =? owner st)); cbn [fst snd app];
    [|reflexivity].
  destruct (extcall (st, chain) _) as [[[] returndata] s1]; reflexivity.
Qed.

(** X21.  [withdrawDepositTo] is for the owner and the account itself:
    any other caller, the EntryPoint included, gets "only owner" and no
    call is attempted.  The only call it ever attempts is
    [withdrawTo(withdrawAddress, amount)] on the EntryPoint, without
    value; when it returns, the caller was the owner or the account, the
    EntryPoint holds code and that call succeeded.  The function does not
    write to the storage itself: the storage and the chain it returns
    with are those the call left, whatever the EntryPoint and the
    contracts it called did in between. *)
Theorem withdrawDepositTo_only_owner :
  forall this has_code msg_sender withdrawAddress amount st chain,
    let run := withdrawDepositTo Chain extcall _entryPoint this has_code
                 msg_sender withdrawAddress amount (st, chain) in
    let withdrawal :=
      {| target := _entryPoint; value := 0;
         data := encodeCall "withdrawTo(address,uint256)" [withdrawAddress; amount] |} in
    (msg_sender <> owner st /\ msg_sender <> this ->
     run = (inl (Error "only owner"), []))
    /\ (snd run = [] \/ snd run = [eff_call withdrawal])
    /\ (forall st' chain',
          fst run = inr (tt, (st', chain')) ->
          (msg_sender = owner st \/ msg_sender = this)
          /\ has_code chain _entryPoint = true
          /\ exists returndata,
               extcall (st, chain) withdrawal = (true, returndata, (st', chain'))).
Proof.
  intros this has_code msg_sender withdrawAddress amount st chain run withdrawal.
  subst run. unfold SimpleAccount.withdrawDepositTo, onlyOwner, interface_call, _call,
    low_level_call, bind, require, load, revert, ret.
  cbn [fst snd app target SimpleAccount.value data]. fold withdrawal.
  destruct (msg_sender =? owner st) eqn:Howner; cbn [orb fst snd app].
  2: destruct (msg_sender =? this) eqn:Hthis; cbn [orb fst snd app].
  3:{ repeat split; auto; discriminate. }
  all: assert (Hauth : msg_sender = owner st \/ msg_sender = this)
         by (first [left; apply Z.eqb_eq; assumption | right; apply Z.eqb_eq; assumption]).
  all: destruct (has_code chain _entryPoint); cbn [fst snd app];
         [destruct (extcall (st, chain) withdrawal) as [[[] returndata] [st1 chain1]];
          cbn [negb fst snd app]|];
         (split; [intros [? ?]; destruct Hauth; contradiction|]);
         (split; [auto|]); intros st' chain' H; try discriminate;
         injection H as <- <-; eauto.
Qed.

End Calls.

(** On a chain without calls back into the account, calls made in order
    leave the storage as it was. *)
Lemma call_in_order_without_reentry {Chain}
    (quiet : Chain -> ExtCall -> bool * list Z * Chain) calls st chain st' chain' :
  fst (call_in_order Chain (without_reentry quiet) calls (st, chain)) = inr (st', chain') ->
  st' = st.
Proof.
  revert chain. induction calls as [|c rest IH]; intros chain;
    cbn [WalletSpec.call_in_order].
  - cbn. intros H. injection H as <- _. reflexivity.
  - unfold without_reentry at 1. cbn [fst snd].
    destruct (quiet chain c) as [[[] returndata] chain1]; [|discriminate].
    specialize (IH chain1).
    destruct (call_in_order Chain (without_reentry quiet) rest (st, chain1))
      as [out effects].
    exact IH.
Qed.

(** X18.  With fitting arrays, [executeBatch] makes the requested calls
    one after the other, the [i]-th to [dest[i]] with [func[i]] and
    [value[i]] (or no value when [value] is empty), and stops at the
    first that fails, whose revert data it re-throws; when none fails it
    returns.  The caller is checked once, against the owner at entry.
    The batch does not write to the storage itself: it returns with the
    storage the calls left, which a callee that calls back into the
    account may have changed, and which is the storage at entry on a
    chain without calls back. *)
Theorem executeBatch_calls_in_order :
  forall (Chain : Type)
         (extcall : State * Chain -> ExtCall -> bool * list Z * (State * Chain))
         (_entryPoint : Z) msg_sender dest value func st chain,
    msg_sender = _entryPoint \/ msg_sender = owner st ->
    length dest = length func ->
    length value = 0%nat \/ length value = length func ->
    executeBatch Chain extcall _entryPoint msg_sender dest value func (st, chain)
    = (match fst (call_in_order Chain extcall (requested dest value func) (st, chain)) with
       | inl r => inl r
       | inr s' => inr (tt, s')
       end,
       snd (call_in_order Chain extcall (requested dest value func) (st, chain)))
    /\ (forall quiet st' chain',
          extcall = without_reentry quiet ->
          fst (executeBatch Chain extcall _entryPoint msg_sender dest value func
                 (st, chain)) = inr (tt, (st', chain')) ->
          st' = st).
Proof.
  intros Chain extcall _entryPoint msg_sender dest value func st chain Hauth Hfunc Hvalue.
  assert (Hrun : executeBatch Chain extcall _entryPoint msg_sender dest value func
                   (st, chain)
                 = batch_outcome
                     (call_in_order Chain extcall (requested dest value func) (st, chain))).
  { rewrite executeBatch_authorized by exact Hauth.
    apply Nat.eqb_eq in Hfunc. rewrite Hfunc.
    destruct Hvalue as [H|H]; apply Nat.eqb_eq in H; rewrite H, ?orb_true_r; reflexivity. }
  split; [exact Hrun|].
  intros quiet st' chain' -> . rewrite Hrun. unfold batch_outcome. cbn [fst].
  destruct (fst (call_in_order Chain (without_reentry quiet) _ _)) as [r|[st1 chain1]]
    eqn:Hout; [discriminate|].
  intros H. injection H as <- <-.
  exact (call_in_order_without_reentry _ _ _ _ _ _ Hout).
Qed.

(** An operation signed by address 9 for an account owned by 5 with
    stored nonce 7, called by its EntryPoint with a prefund of 10 due:
    the signature is well-formed, the nonce is consumed. *)
Lemma validateUserOp_wrong_signer_consumes_nonce_witness :
  exists chain' effects,
    SimpleAccount.validateUserOp Z (without_reentry solvent) 0xE9 (fun h => h)
      recover_checked 0xE9 (signedOp 9) [0xAA] 10 ({| owner := 5; _nonce := 7 |}, 100)
    = (inr (SIG_VALIDATION_FAILED,
            ({| owner := owner {| owner := 5; _nonce := 7 |};
                _nonce := _nonce {| owner := 5; _nonce := 7 |} + 1 |}, chain')), effects)
    /\ SIG_VALIDATION_FAILED = 1.
Proof.
  apply (proj1 (validateUserOp_wrong_signer_consumes_nonce Z solvent 0xE9 (fun h => h)
                  recover_checked (signedOp 9) [0xAA] 10 {| owner := 5; _nonce := 7 |}
                  100) 9);
    try reflexivity; try (vm_compute; congruence); try (right; reflexivity).
Defined.

(** C10 as stated fails: an invalid signature can abort the call.
    [sampleOp] carries the stored nonce, 7, and a signature of three
    bytes, which recovers to no address, the owner's or another.  Called
    by the EntryPoint, [validateUserOp] reverts with the error of
    [ECDSA.recover], returns no validation data, and the stored nonce is
    still 7. *)
Lemma malformed_signature_keeps_nonce :
  nonce sampleOp = _nonce {| owner := 5; _nonce := 7 |}
  /\ recover_checked [0xAA] (signature sampleOp)
     = inl (LibraryError "ECDSAInvalidSignatureLength")
  /\ SimpleAccount.validateUserOp Z (without_reentry solvent) 0xE9 (fun h => h)
       recover_checked 0xE9 sampleOp [0xAA] 10 ({| owner := 5; _nonce := 7 |}, 100)
     = (inl (LibraryError "ECDSAInvalidSignatureLength"), [])
  /\ _nonce (storage_after {| owner := 5; _nonce := 7 |}
               (fst (SimpleAccount.validateUserOp Z (without_reentry solvent) 0xE9
                       (fun h => h) recover_checked 0xE9 sampleOp [0xAA] 10
                       ({| owner := 5; _nonce := 7 |}, 100)))) = 7.
Proof. repeat split. Qed.

(** The further properties at concrete accounts: an account owned by 5
    with EntryPoint [0xE9], on a chain of which the balance matters. *)

Lemma validateUserOp_only_from_entryPoint_witness :
  SimpleAccount.validateUserOp Z (without_reentry solvent) 0xE9 (fun h => h) (fun _ _ => inr 5)
    7 sampleOp [0xAA] 10 ({| owner := 5; _nonce := 7 |}, 100)
  = (inl (Error "not from EntryPoint"), []).
Proof.
  apply (validateUserOp_only_from_entryPoint Z solvent 0xE9 (fun h => h)
           (fun _ _ => inr 5) 7 sampleOp [0xAA] 10 {| owner := 5; _nonce := 7 |} 100).
  discriminate.
Defined.

(** [sampleOp] is accepted at nonce 7 and refused from then on. *)
Lemma validateUserOp_no_replay_witness :
  _nonce {| owner := 5; _nonce := 8 |} = nonce sampleOp + 1
  /\ forall msg_sender2 userOpHash2 missingAccountFunds2 st2 chain2,
       _nonce {| owner := 5; _nonce := 8 |} <= _nonce st2 ->
       exists r,
         fst (SimpleAccount.validateUserOp Z (without_reentry solvent) 0xE9 (fun h => h) (fun _ _ => inr 5)
                msg_sender2 sampleOp userOpHash2 missingAccountFunds2 (st2, chain2))
         = inl r.
Proof.
  apply (validateUserOp_no_replay Z solvent 0xE9 (fun h => h) (fun _ _ => inr 5)
           0xE9 sampleOp [0xAA] 10 {| owner := 5; _nonce := 7 |} 100
           0 {| owner := 5; _nonce := 8 |} 90).
  reflexivity.
Defined.

(** Three submissions, the second with a stale nonce: two are accepted
    and the nonce moves from 7 to 9. *)
Example two_of_three_accepted :
  validate_each Z solvent 0xE9 (fun h => h) (fun _ _ => inr 5) 0xE9
    [ {| op := sampleOp; opHash := [0xAA]; missingAccountFunds := 10 |};
      {| op := sampleOp; opHash := [0xAB]; missingAccountFunds := 0 |};
      {| op := nextOp; opHash := [0xAC]; missingAccountFunds := 0 |} ]
    ({| owner := 5; _nonce := 7 |}, 100)
  = ([ {| op := sampleOp; opHash := [0xAA]; missingAccountFunds := 10 |};
       {| op := nextOp; opHash := [0xAC]; missingAccountFunds := 0 |} ],
     ({| owner := 5; _nonce := 9 |}, 90)).
Proof. reflexivity. Qed.

(** The signature recovers to the owner, 5: the validation data is 0. *)
Lemma validateUserOp_reports_signer_witness :
  (0 = 0 \/ 0 = 1)
  /\ (0 = 0 <-> inr 5 = inr (owner {| owner := 5; _nonce := 7 |}) :> Revert + Z).
Proof.
  apply (validateUserOp_reports_signer Z solvent 0xE9 (fun h => h) (fun _ _ => inr 5)
           0xE9 sampleOp [0xAA] 10 {| owner := 5; _nonce := 7 |} 100
           0 {| owner := 5; _nonce := 8 |} 90).
  reflexivity.
Defined.

Lemma validateUserOp_nonce_overflow_witness :
  SimpleAccount.validateUserOp Z (without_reentry solvent) 0xE9 (fun h => h) (fun _ _ => inr 5)
    0xE9 lastOp [0xAA] 10 ({| owner := 5; _nonce := uint256_max |}, 100)
  = (inl (Panic 0x11), []).
Proof.
  apply (validateUserOp_nonce_overflow Z solvent 0xE9 (fun h => h) (fun _ _ => inr 5)
           lastOp [0xAA] 10 {| owner := 5; _nonce := uint256_max |} 100 5);
    reflexivity.
Defined.

(** A fresh account initialised for owner 5. *)
Lemma initialize_locks_nonzero_owner_witness :
  exists st1,
    SimpleAccount.initialize Z 0xE9 5 ({| owner := 0; _nonce := 0 |}, 100)
    = (inr (tt, (st1, 100)), [eff_emit (SimpleAccountInitialized 0xE9 5)])
    /\ owner st1 = 5
    /\ _nonce st1 = _nonce {| owner := 0; _nonce := 0 |}
    /\ forall other chain2,
         SimpleAccount.initialize Z 0xE9 other (st1, chain2)
         = if 5 =? 0 then
             (inr (tt, ({| owner := other; _nonce := _nonce {| owner := 0; _nonce := 0 |} |},
                        chain2)),
              [eff_emit (SimpleAccountInitialized 0xE9 other)])
           else (inl (Error "already initialized"), []).
Proof.
  apply (initialize_locks_nonzero_owner Z 0xE9 5 {| owner := 0; _nonce := 0 |} 100).
  reflexivity.
Defined.

Lemma executeBatch_authorization_witness :
  SimpleAccount.executeBatch Z (without_reentry picky) 0xE9 7 [1; 2] [] [[]]
    ({| owner := 5; _nonce := 7 |}, 100)
  = (inl (Error "not authorized"), []).
Proof.
  apply (executeBatch_authorization Z (without_reentry picky) 0xE9 7 [1; 2] [] [[]]
           {| owner := 5; _nonce := 7 |} 100); discriminate.
Defined.

(** Two destinations and one piece of data, submitted by the owner. *)
Lemma executeBatch_array_lengths_witness :
  SimpleAccount.executeBatch Z (without_reentry picky) 0xE9 5 [1; 2] [] [[]]
    ({| owner := 5; _nonce := 7 |}, 100)
  = (inl (Error "wrong array lengths"), [])
  <-> (length [1; 2] <> length [@nil Z]
       \/ (length (@nil Z) <> 0 /\ length (@nil Z) <> length [@nil Z]))%nat.
Proof.
  apply (executeBatch_array_lengths Z (without_reentry picky) 0xE9 5 [1; 2] [] [[]]
           {| owner := 5; _nonce := 7 |} 100).
  right. reflexivity.
Defined.

(** A batch of one call, sent by the EntryPoint from an account not yet
    initialised, to a contract that calls back into the account. *)
Lemma executeBatch_calls_in_order_witness :
  SimpleAccount.executeBatch Z claiming 0xE9 0xE9 [0xC1A] [] [[]]
    ({| owner := 0; _nonce := 0 |}, 100)
  = (match fst (call_in_order Z claiming (requested [0xC1A] [] [[]])
                  ({| owner := 0; _nonce := 0 |}, 100)) with
     | inl r => inl r
     | inr s' => inr (tt, s')
     end,
     snd (call_in_order Z claiming (requested [0xC1A] [] [[]])
            ({| owner := 0; _nonce := 0 |}, 100)))
  /\ (forall quiet st' chain',
        claiming = without_reentry quiet ->
        fst (SimpleAccount.executeBatch Z claiming 0xE9 0xE9 [0xC1A] [] [[]]
               ({| owner := 0; _nonce := 0 |}, 100)) = inr (tt, (st', chain')) ->
        st' = {| owner := 0; _nonce := 0 |}).
Proof.
  apply (executeBatch_calls_in_order Z claiming 0xE9 0xE9 [0xC1A] [] [[]]
           {| owner := 0; _nonce := 0 |} 100);
    [left; reflexivity|reflexivity|left; reflexivity].
Defined.

(** That batch returns with the callee as the owner of the account. *)
Example batch_callee_takes_ownership :
  SimpleAccount.executeBatch Z claiming 0xE9 0xE9 [0xC1A] [] [[]]
    ({| owner := 0; _nonce := 0 |}, 100)
  = (inr (tt, ({| owner := 0xC1A; _nonce := 0 |}, 100)),
     [eff_call {| target := 0xC1A; value := 0; data := [] |}]).
Proof. reflexivity. Qed.

(** Three calls by the EntryPoint, of which the second fails: the first
    call is made, the second re-thrown and the third never attempted. *)
Example batch_stops_at_first_failure :
  SimpleAccount.executeBatch Z (without_reentry picky) 0xE9 0xE9 [1; 0xBAD; 3] [10; 20; 30] [[1]; [2]; [3]]
    ({| owner := 5; _nonce := 7 |}, 100)
  = (inl (Bubbled [0xEE]),
     [eff_call {| target := 1; value := 10; data := [1] |};
      eff_call {| target := 0xBAD; value := 20; data := [2] |}]).
Proof. reflexivity. Qed.

End SimpleAccountFacts.

(** ** SimpleAccountFactory: createAccount is idempotent *)

Module FactoryFacts.

Import SimpleAccountFactory FactoryScenario.

Section Contract.

Variable this : Z.
Variable accountImplementation : Z.
Variable _entryPoint : Z.
Variable creationCode : list Z.
Variable runtimeCode : list Z.

(** The compiled proxy has code. *)
Hypothesis runtimeCode_nonempty : runtimeCode <> [].

#[local] Abbreviation getAddress := (getAddress this accountImplementation creationCode).
#[local] Abbreviation createAccount :=
  (createAccount this accountImplementation _entryPoint creationCode runtimeCode).

Lemma code_at_insert (c : gmap Z (list Z)) (st : gmap Z SimpleAccount.State)
    (l : list Log) (a : Z) (bytes : list Z) :
  code_at {| code := <[a := bytes]> c; storage := st; logs := l |} a = bytes.
Proof. unfold code_at. cbn [code]. now rewrite lookup_insert_eq. Qed.

(** C7.  When code exists at the address computed for [(owner, salt)],
    [createAccount] returns that address and leaves the chain as it is: no
    proxy is deployed and no event emitted.  A [createAccount] that
    returned is followed, for the same [(owner, salt)], by one that returns
    the same address, which is the computed one, and changes nothing.  And
    [createAccount] does return whenever the account implementation has
    code, as it has once the factory is constructed. *)
Theorem createAccount_idempotent :
  forall owner salt c,
    ((0 < length (code_at c (getAddress owner salt)))%nat ->
     createAccount owner salt c = inr (getAddress owner salt, c))
    /\ (forall ret c1,
          createAccount owner salt c = inr (ret, c1) ->
          ret = getAddress owner salt
          /\ createAccount owner salt c1 = inr (ret, c1))
    /\ (code_at c accountImplementation <> [] ->
        exists c1, createAccount owner salt c = inr (getAddress owner salt, c1)).
Proof.
  intros owner salt c.
  assert (Hproxy : Create2_computeAddress this salt
                     (Keccak.keccak256
                        (creationCode
                         ++ abi_encode accountImplementation (encodeCall_initialize owner)))
                   = getAddress owner salt) by reflexivity.
  assert (Hexisting : forall c0,
             (0 < length (code_at c0 (getAddress owner salt)))%nat ->
             createAccount owner salt c0 = inr (getAddress owner salt, c0)).
  { intros c0 Hcode. unfold SimpleAccountFactory.createAccount.
    apply Nat.ltb_lt in Hcode. now rewrite Hcode. }
  split; [apply Hexisting|]. split.
  - intros ret c1.
    destruct (0 <? length (code_at c (getAddress owner salt)))%nat eqn:Hcode.
    + apply Nat.ltb_lt in Hcode. rewrite (Hexisting c Hcode).
      intros H. injection H as <- <-. auto.
    + unfold SimpleAccountFactory.createAccount at 1. rewrite Hcode.
      unfold new_ERC1967Proxy. rewrite Hproxy, Hcode.
      revert Hexisting Hcode. clear Hproxy.
      generalize (getAddress owner salt). intros addr Hexisting Hcode.
      destruct (length (code_at c accountImplementation) =? 0)%nat; [discriminate|].
      unfold SimpleAccount.initialize, SimpleAccount.bind, SimpleAccount.load,
        SimpleAccount.require, SimpleAccount.store, SimpleAccount.emit,
        SimpleAccount.ret.
      cbn [fst snd app SimpleAccount.owner Z.eqb].
      intros H. injection H as <- <-.
      split; [reflexivity|]. apply Hexisting.
      unfold emit. cbn [code]. rewrite code_at_insert.
      destruct runtimeCode; [contradiction|simpl; lia].
  - intros Himpl.
    destruct (0 <? length (code_at c (getAddress owner salt)))%nat eqn:Hcode.
    + apply Nat.ltb_lt in Hcode. rewrite (Hexisting c Hcode). eauto.
    + unfold SimpleAccountFactory.createAccount. rewrite Hcode.
      unfold new_ERC1967Proxy. rewrite Hproxy, Hcode.
      clear Hexisting Hproxy Hcode. generalize (getAddress owner salt). intros addr.
      assert (Hhas : (length (code_at c accountImplementation) =? 0)%nat = false).
      { apply Nat.eqb_neq. destruct (code_at c accountImplementation);
          [contradiction|simpl; lia]. }
      rewrite Hhas.
      unfold SimpleAccount.initialize, SimpleAccount.bind, SimpleAccount.load,
        SimpleAccount.require, SimpleAccount.store, SimpleAccount.emit,
        SimpleAccount.ret.
      cbn [fst snd app SimpleAccount.owner Z.eqb]. eauto.
Qed.

End Contract.


(** On [fresh_chain] the first call for owner 5 and salt 123 deploys the
    proxy; the second returns the same address and changes nothing. *)
Lemma createAccount_idempotent_witness :
  fst created = getAddress 0xFAC 0x1A [0x60; 0x80; 0x60; 0x40] 5 123
  /\ createAccount 0xFAC 0x1A 0xE9 [0x60; 0x80; 0x60; 0x40] [0x36; 0x3d] 5 123
       (snd created)
     = inr (fst created, snd created).
Proof.
  apply (proj1 (proj2 (createAccount_idempotent 0xFAC 0x1A 0xE9
                         [0x60; 0x80; 0x60; 0x40] [0x36; 0x3d] ltac:(discriminate)
                         5 123 fresh_chain))).
  vm_compute. reflexivity.
Defined.

(** That first call did deploy: the proxy holds the runtime code, its
    storage is initialised with the owner, and the three events are
    logged. *)
Example first_call_deploys :
  code_at (snd created) (fst created) = [0x36; 0x3d]
  /\ storage (snd created) !! fst created
     = Some {| SimpleAccount.owner := 5; SimpleAccount._nonce := 0 |}
  /\ logs (snd created)
     = [Upgraded (fst created) 0x1A;
        FromAccount (fst created) (SimpleAccount.SimpleAccountInitialized 0xE9 5);
        AccountCreated (fst created) 5 123].
Proof. vm_compute. repeat split. Qed.

(** *** What a deployment leaves *)

Section Deployment.

Variable this : Z.
Variable accountImplementation : Z.
Variable _entryPoint : Z.
Variable creationCode : list Z.
Variable runtimeCode : list Z.

#[local] Abbreviation getAddress := (getAddress this accountImplementation creationCode).
#[local] Abbreviation createAccount :=
  (createAccount this accountImplementation _entryPoint creationCode runtimeCode).

(** What [createAccount] does on an address without code. *)
Lemma createAccount_fresh owner salt c :
  code_at c (getAddress owner salt) = [] ->
  createAccount owner salt c
  = if (length (code_at c accountImplementation) =? 0)%nat then
      inl (LibraryError "ERC1967InvalidImplementation")
    else
      inr (getAddress owner salt,
           {| code := <[getAddress owner salt := runtimeCode]> (code c);
              storage := <[getAddress owner salt :=
                             {| SimpleAccount.owner := owner; SimpleAccount._nonce := 0 |}]>
                           (storage c);
              logs := (logs c
                       ++ [Upgraded (getAddress owner salt) accountImplementation;
                           FromAccount (getAddress owner salt)
                             (SimpleAccount.SimpleAccountInitialized _entryPoint owner)])
                      ++ [AccountCreated (getAddress owner salt) owner salt] |}).
Proof.
  intros Hfresh.
  assert (Hproxy : Create2_computeAddress this salt
                     (Keccak.keccak256
                        (creationCode
                         ++ abi_encode accountImplementation (encodeCall_initialize owner)))
                   = getAddress owner salt) by reflexivity.
  unfold SimpleAccountFactory.createAccount, new_ERC1967Proxy.
  rewrite Hproxy. clear Hproxy. revert Hfresh.
  generalize (getAddress owner salt). intros addr Hfresh.
  rewrite Hfresh. cbn [length Nat.ltb Nat.leb].
  destruct (length (code_at c accountImplementation) =? 0)%nat; [reflexivity|].
  unfold SimpleAccount.initialize, SimpleAccount.bind, SimpleAccount.load,
    SimpleAccount.require, SimpleAccount.store, SimpleAccount.emit,
    SimpleAccount.ret.
  cbn [fst snd app SimpleAccount.owner SimpleAccount._nonce Z.eqb omap].
  reflexivity.
Qed.

(** X22.  On an address without code, a [createAccount] that returns has
    deployed the proxy at the computed address: the address holds the
    proxy's code, its storage is that of an account of the given owner
    with nonce 0, the log grew by [Upgraded], [SimpleAccountInitialized]
    of the new account and [AccountCreated], in this order, and the code
    and storage at every other address are as they were. *)
Theorem createAccount_deploys_for_owner :
  forall owner salt c ret c1,
    code_at c (getAddress owner salt) = [] ->
    createAccount owner salt c = inr (ret, c1) ->
    ret = getAddress owner salt
    /\ code_at c1 ret = runtimeCode
    /\ storage c1 !! ret
       = Some {| SimpleAccount.owner := owner; SimpleAccount._nonce := 0 |}
    /\ logs c1
       = logs c ++ [Upgraded ret accountImplementation;
                    FromAccount ret (SimpleAccount.SimpleAccountInitialized _entryPoint owner);
                    AccountCreated ret owner salt]
    /\ (forall a, a <> ret ->
          code_at c1 a = code_at c a /\ storage c1 !! a = storage c !! a).
Proof.
  intros owner salt c ret c1 Hfresh. rewrite (createAccount_fresh _ _ _ Hfresh).
  destruct (length (code_at c accountImplementation) =? 0)%nat; [discriminate|].
  intros H. injection H as <- <-.
  generalize (getAddress owner salt). intros addr.
  unfold code_at. cbn [code storage logs].
  rewrite !lookup_insert_eq, <- app_assoc. repeat split; try reflexivity.
  - now rewrite lookup_insert_ne by congruence.
  - now rewrite lookup_insert_ne by congruence.
Qed.

(** X23.  The account a [createAccount] has deployed is initialised for
    the given owner: [initialize] on it reverts with "already
    initialized".  The exception is the zero address as owner: that
    account is open, and [initialize] by anyone sets its owner. *)
Theorem created_account_is_initialized :
  forall owner salt c ret c1,
    code_at c (getAddress owner salt) = [] ->
    createAccount owner salt c = inr (ret, c1) ->
    exists st,
      storage c1 !! ret = Some st
      /\ SimpleAccount.owner st = owner
      /\ forall (Chain : Type) (anOwner : Z) (chain : Chain),
           SimpleAccount.initialize Chain _entryPoint anOwner (st, chain)
           = if owner =? 0 then
               (inr (tt, ({| SimpleAccount.owner := anOwner; SimpleAccount._nonce := 0 |},
                          chain)),
                [SimpleAccount.eff_emit
                   (SimpleAccount.SimpleAccountInitialized _entryPoint anOwner)])
             else (inl (Error "already initialized"), []).
Proof.
  intros owner salt c ret c1 Hfresh. rewrite (createAccount_fresh _ _ _ Hfresh).
  destruct (length (code_at c accountImplementation) =? 0)%nat; [discriminate|].
  intros H. injection H as <- <-.
  generalize (getAddress owner salt). intros addr.
  exists {| SimpleAccount.owner := owner; SimpleAccount._nonce := 0 |}.
  cbn [storage SimpleAccount.owner]. rewrite lookup_insert_eq.
  repeat split. intros Chain anOwner chain.
  unfold SimpleAccount.initialize, SimpleAccount.bind, SimpleAccount.load,
    SimpleAccount.require, SimpleAccount.store, SimpleAccount.emit,
    SimpleAccount.revert, SimpleAccount.ret.
  cbn [fst snd app SimpleAccount.owner SimpleAccount._nonce].
  destruct (owner =? 0); reflexivity.
Qed.

(** X24.  Gas aside, [createAccount] reverts in one situation only: the
    computed address holds no code and neither does the account
    implementation, and the revert is the proxy's
    [ERC1967InvalidImplementation].  It never fails on an address that is
    taken, since it returns that address instead of deploying. *)
Theorem createAccount_reverts_only_without_implementation :
  forall owner salt c r,
    createAccount owner salt c = inl r
    <-> code_at c (getAddress owner salt) = []
        /\ code_at c accountImplementation = []
        /\ r = LibraryError "ERC1967InvalidImplementation".
Proof.
  intros owner salt c r.
  destruct (code_at c (getAddress owner salt)) as [|b bytes] eqn:Hcode.
  - rewrite (createAccount_fresh _ _ _ Hcode).
    destruct (code_at c accountImplementation) as [|b bytes]; cbn [length Nat.eqb].
    + split; [intros H; injection H as <-; auto|intros (_ & _ & ->); reflexivity].
    + split; [discriminate|intros (_ & H & _); discriminate].
  - unfold SimpleAccountFactory.createAccount. rewrite Hcode. cbn [length Nat.ltb Nat.leb].
    split; [discriminate|intros (H & _); discriminate].
Qed.

End Deployment.

(** On [fresh_chain], for owner 5 and salt 123. *)
Lemma createAccount_deploys_for_owner_witness :
  fst created = getAddress 0xFAC 0x1A [0x60; 0x80; 0x60; 0x40] 5 123
  /\ code_at (snd created) (fst created) = [0x36; 0x3d]
  /\ storage (snd created) !! fst created
     = Some {| SimpleAccount.owner := 5; SimpleAccount._nonce := 0 |}
  /\ logs (snd created)
     = logs fresh_chain
       ++ [Upgraded (fst created) 0x1A;
           FromAccount (fst created) (SimpleAccount.SimpleAccountInitialized 0xE9 5);
           AccountCreated (fst created) 5 123]
  /\ (forall a, a <> fst created ->
        code_at (snd created) a = code_at fresh_chain a
        /\ storage (snd created) !! a = storage fresh_chain !! a).
Proof.
  apply (createAccount_deploys_for_owner 0xFAC 0x1A 0xE9 [0x60; 0x80; 0x60; 0x40]
           [0x36; 0x3d] 5 123 fresh_chain (fst created) (snd created));
    vm_compute; reflexivity.
Defined.

Lemma created_account_is_initialized_witness :
  exists st,
    storage (snd created) !! fst created = Some st
    /\ SimpleAccount.owner st = 5
    /\ forall (Chain : Type) (anOwner : Z) (chain : Chain),
         SimpleAccount.initialize Chain 0xE9 anOwner (st, chain)
         = if 5 =? 0 then
             (inr (tt, ({| SimpleAccount.owner := anOwner; SimpleAccount._nonce := 0 |},
                        chain)),
              [SimpleAccount.eff_emit
                 (SimpleAccount.SimpleAccountInitialized 0xE9 anOwner)])
           else (inl (Error "already initialized"), []).
Proof.
  apply (created_account_is_initialized 0xFAC 0x1A 0xE9 [0x60; 0x80; 0x60; 0x40]
           [0x36; 0x3d] 5 123 fresh_chain (fst created) (snd created));
    vm_compute; reflexivity.
Defined.

End FactoryFacts.

(** ** VerifyingPaymaster: the validity window and the signer *)

Module PaymasterFacts.

Import Bytes VerifyingPaymaster PaymasterSpec.

(** Bits that do not overlap add up. *)
Lemma lor_shiftl_add (x y n : Z) :
  0 <= n -> 0 <= x < 2 ^ n -> Z.lor x (Z.shiftl y n) = x + y * 2 ^ n.
Proof.
  intros Hn Hx. rewrite Z.shiftl_mul_pow2 by exact Hn.
  assert (Hdisjoint : Z.land x (y * 2 ^ n) = 0).
  { apply Z.bits_inj'. intros i Hi. rewrite Z.land_spec, Z.bits_0.
    destruct (Z.lt_ge_cases i n) as [Hlow|Hhigh].
    - rewrite Z.mul_pow2_bits_low by exact Hlow. apply andb_false_r.
    - rewrite <- (Z.mod_small x (2 ^ n)) by exact Hx.
      rewrite Z.mod_pow2_bits_high by lia. reflexivity. }
  rewrite <- Z.lxor_lor by exact Hdisjoint.
  symmetry. apply Z.add_nocarry_lxor, Hdisjoint.
Qed.

Lemma of_big_endian_from (bs : list Z) :
  Forall is_byte bs ->
  forall acc k, 0 <= k -> 0 <= acc < 2 ^ k ->
    0 <= fold_left (fun acc b => Z.lor (Z.shiftl acc 8) b) bs acc
      < 2 ^ (k + 8 * Z.of_nat (length bs)).
Proof.
  induction 1 as [|b bs Hb Hbs IH]; intros acc k Hk Hacc; cbn [fold_left length].
  - now rewrite Z.mul_0_r, Z.add_0_r.
  - rewrite Z.lor_comm, lor_shiftl_add by (unfold is_byte in Hb; lia).
    replace (k + 8 * Z.of_nat (S (length bs)))
      with ((k + 8) + 8 * Z.of_nat (length bs)) by lia.
    apply IH; [lia|]. unfold is_byte in Hb.
    rewrite Z.pow_add_r by lia. change (2 ^ 8) with 256. nia.
Qed.

Lemma of_big_endian_bound (bs : list Z) :
  Forall is_byte bs -> 0 <= of_big_endian bs < 2 ^ (8 * Z.of_nat (length bs)).
Proof.
  intros Hbs. apply (of_big_endian_from bs Hbs 0 0); [lia|]. cbn. lia.
Qed.

Lemma slice_bytes (first last : nat) (data : list Z) :
  Forall is_byte data -> Forall is_byte (slice first last data).
Proof.
  intros H. unfold slice. apply Forall_take, Forall_drop, H.
Qed.

Lemma slice_length (first last : nat) (data : list Z) :
  (last <= length data)%nat -> length (slice first last data) = (last - first)%nat.
Proof.
  intros H. unfold slice. rewrite length_take, length_drop. lia.
Qed.

(** What the EntryPoint reads back from packed validation data: the
    flag and the window as packed, but for a [validUntil] of 0, which it
    reads as no expiry. *)
Lemma unpack (sigFailed : bool) (until after : Z) :
  0 <= until < 2 ^ 48 -> 0 <= after < 2 ^ 48 ->
  sigFailed_of (_packValidationData sigFailed until after)
  = (if sigFailed then 1 else 0)
  /\ _parseValidationData (_packValidationData sigFailed until after)
     = {| aggregator := if sigFailed then 1 else 0;
          validAfter := after;
          validUntil := if until =? 0 then uint48_max else until |}.
Proof.
  intros Huntil Hafter. unfold _packValidationData.
  set (flag := if sigFailed then 1 else 0).
  assert (Hflag : 0 <= flag < 2) by (subst flag; destruct sigFailed; lia).
  assert (Hsplit : 2 ^ 208 = 2 ^ 48 * 2 ^ 160) by reflexivity.
  assert (Hlow : 2 <= 2 ^ 160) by (vm_compute; discriminate).
  rewrite (lor_shiftl_add flag) by lia.
  change (160 + 48) with 208.
  rewrite lor_shiftl_add by lia.
  set (packed := flag + until * 2 ^ 160 + after * 2 ^ 208).
  assert (Hpacked : packed = flag + (until + after * 2 ^ 48) * 2 ^ 160)
    by (subst packed; rewrite Hsplit; ring).
  assert (Hflag_of : packed mod 2 ^ 160 = flag).
  { rewrite Hpacked, Z.mod_add by lia. apply Z.mod_small. lia. }
  assert (Huntil_of : Z.shiftr packed 160 mod 2 ^ 48 = until).
  { rewrite Z.shiftr_div_pow2 by lia.
    rewrite Hpacked, Z.div_add, Z.div_small by lia.
    rewrite Z.add_0_l, Z.mod_add by lia. apply Z.mod_small. lia. }
  assert (Hafter_of : Z.shiftr packed (48 + 160) mod 2 ^ 48 = after).
  { rewrite Z.shiftr_div_pow2 by lia. change (48 + 160) with 208.
    subst packed. rewrite Z.div_add by lia.
    rewrite Z.div_small by nia. apply Z.mod_small. lia. }
  unfold sigFailed_of, _parseValidationData.
  rewrite Hflag_of, Huntil_of, Hafter_of. split; reflexivity.
Qed.

Section Contract.

Variable toEthSignedMessageHash : list Z -> list Z.
Variable recover : list Z -> list Z -> Revert + Z.

#[local] Abbreviation _validatePaymasterUserOp :=
  (_validatePaymasterUserOp toEthSignedMessageHash recover).

(** What a validation that returns tells. *)
Lemma validation_outcome :
  forall userOp userOpHash maxCost st context validationData,
    Forall is_byte (SimpleAccount.paymasterAndData userOp) ->
    _validatePaymasterUserOp userOp userOpHash maxCost st = inr (context, validationData) ->
    let data := SimpleAccount.paymasterAndData userOp in
    let until := of_big_endian (slice 20 26 data) in
    let after := of_big_endian (slice 26 32 data) in
    (97 <= length data)%nat
    /\ context = []
    /\ _parseValidationData validationData
       = {| aggregator := sigFailed_of validationData;
            validAfter := after;
            validUntil := if until =? 0 then uint48_max else until |}
    /\ (sigFailed_of validationData = 0 \/ sigFailed_of validationData = 1)
    /\ (sigFailed_of validationData = 0 <->
        recover (toEthSignedMessageHash
                   (Keccak.keccak256 (abi_encode userOp until after)))
          (skipn 32 data) = inr (verifyingSigner st)).
Proof.
  intros userOp userOpHash maxCost st context validationData Hbytes.
  unfold VerifyingPaymaster._validatePaymasterUserOp. cbv zeta.
  destruct (97 <=? length (SimpleAccount.paymasterAndData userOp))%nat eqn:Hlong;
    cbn [negb]; [|discriminate].
  apply Nat.leb_le in Hlong.
  set (data := SimpleAccount.paymasterAndData userOp) in *.
  assert (Huntil : 0 <= of_big_endian (slice 20 26 data) < 2 ^ 48).
  { pose proof (of_big_endian_bound _ (slice_bytes 20 26 data Hbytes)) as H.
    rewrite slice_length in H by lia. exact H. }
  assert (Hafter : 0 <= of_big_endian (slice 26 32 data) < 2 ^ 48).
  { pose proof (of_big_endian_bound _ (slice_bytes 26 32 data Hbytes)) as H.
    rewrite slice_length in H by lia. exact H. }
  destruct (recover _ _) as [r|recovered]; [discriminate|].
  destruct (recovered =? verifyingSigner st) eqn:Hsigner; cbn [negb];
    intros H; injection H as <- <-;
    match goal with
    | |- context [_packValidationData ?f ?u ?a] =>
      destruct (unpack f u a Huntil Hafter) as (-> & ->)
    end.
  - apply Z.eqb_eq in Hsigner. subst recovered. repeat split; auto.
  - apply Z.eqb_neq in Hsigner. repeat split; auto; try discriminate.
    intros H. injection H as ->. contradiction.
Qed.

(** X26.  The outcome of the validation depends on the user operation
    only through the fields the paymaster hashes and through
    [paymasterAndData] from byte 20 on: it reads neither the first 20
    bytes (the paymaster's address), nor the signature of the operation,
    nor [userOpHash] or [maxCost]. *)
Theorem approval_ignores_paymaster_address :
  forall userOp userOp' userOpHash userOpHash' maxCost maxCost' st,
    SimpleAccount.sender userOp = SimpleAccount.sender userOp' ->
    SimpleAccount.nonce userOp = SimpleAccount.nonce userOp' ->
    SimpleAccount.initCode userOp = SimpleAccount.initCode userOp' ->
    SimpleAccount.callData userOp = SimpleAccount.callData userOp' ->
    SimpleAccount.accountGasLimits userOp = SimpleAccount.accountGasLimits userOp' ->
    SimpleAccount.preVerificationGas userOp = SimpleAccount.preVerificationGas userOp' ->
    SimpleAccount.gasFees userOp = SimpleAccount.gasFees userOp' ->
    length (SimpleAccount.paymasterAndData userOp)
    = length (SimpleAccount.paymasterAndData userOp') ->
    skipn 20 (SimpleAccount.paymasterAndData userOp)
    = skipn 20 (SimpleAccount.paymasterAndData userOp') ->
    _validatePaymasterUserOp userOp userOpHash maxCost st
    = _validatePaymasterUserOp userOp' userOpHash' maxCost' st.
Proof.
  intros userOp userOp' userOpHash userOpHash' maxCost maxCost' st
    Hsender Hnonce HinitCode HcallData Hlimits Hgas Hfees Hlength Hrest.
  assert (Hfrom : forall data : list Z,
             slice 20 26 data = firstn 6 (skipn 20 data)
             /\ slice 26 32 data = firstn 6 (skipn 6 (skipn 20 data))
             /\ skipn 32 data = skipn 12 (skipn 20 data)).
  { intros data. unfold slice. rewrite !drop_drop. auto. }
  unfold VerifyingPaymaster._validatePaymasterUserOp, abi_encode. cbv zeta.
  destruct (Hfrom (SimpleAccount.paymasterAndData userOp)) as (-> & -> & ->).
  destruct (Hfrom (SimpleAccount.paymasterAndData userOp')) as (-> & -> & ->).
  rewrite Hsender, Hnonce, HinitCode, HcallData, Hlimits, Hgas, Hfees, Hlength, Hrest.
  reflexivity.
Qed.

(** X25.  A validation that returns was given at least 97 bytes of
    [paymasterAndData]; it returns an empty context, and validation data
    with a failure flag that is 0 or 1, which the EntryPoint
    ([_parseValidationData]) reads as: the flag in the place of the
    aggregator; [validAfter] as it stands in bytes 26 to 31 of the data;
    [validUntil] as it stands in bytes 20 to 25 when these are not all
    zero, and the largest [uint48], that is no expiry, when they are. *)
Theorem validationData_carries_window :
  forall userOp userOpHash maxCost st context validationData,
    Forall is_byte (SimpleAccount.paymasterAndData userOp) ->
    _validatePaymasterUserOp userOp userOpHash maxCost st = inr (context, validationData) ->
    (97 <= length (SimpleAccount.paymasterAndData userOp))%nat
    /\ context = []
    /\ _parseValidationData validationData
       = {| aggregator := sigFailed_of validationData;
            validAfter :=
              of_big_endian (slice 26 32 (SimpleAccount.paymasterAndData userOp));
            validUntil :=
              if of_big_endian (slice 20 26 (SimpleAccount.paymasterAndData userOp)) =? 0
              then uint48_max
              else of_big_endian (slice 20 26 (SimpleAccount.paymasterAndData userOp)) |}
    /\ (sigFailed_of validationData = 0 \/ sigFailed_of validationData = 1).
Proof.
  intros userOp userOpHash maxCost st context validationData Hbytes Hrun.
  destruct (validation_outcome _ _ _ _ _ _ Hbytes Hrun) as (? & ? & ? & ? & _).
  auto.
Qed.

(** X27.  [setVerifyingSigner] is for the owner: for any other caller it
    reverts.  For the owner it emits [VerifyingSignerChanged] with the
    signer so far, the new one and the caller, keeps the owner, and from
    then on a validation that returns flags no failure exactly when the
    approval recovers to the new signer. *)
Theorem setVerifyingSigner_rotates :
  forall msg_sender newSigner st,
    (msg_sender <> owner st ->
     setVerifyingSigner msg_sender newSigner st
     = inl (LibraryError "OwnableUnauthorizedAccount"))
    /\ (msg_sender = owner st ->
        exists st',
          setVerifyingSigner msg_sender newSigner st
          = inr (st', [VerifyingSignerChanged (verifyingSigner st) newSigner msg_sender])
          /\ owner st' = owner st
          /\ forall userOp userOpHash maxCost context validationData,
               Forall is_byte (SimpleAccount.paymasterAndData userOp) ->
               _validatePaymasterUserOp userOp userOpHash maxCost st'
               = inr (context, validationData) ->
               (sigFailed_of validationData = 0 <->
                recover
                  (toEthSignedMessageHash
                     (Keccak.keccak256
                        (abi_encode userOp
                           (of_big_endian
                              (slice 20 26 (SimpleAccount.paymasterAndData userOp)))
                           (of_big_endian
                              (slice 26 32 (SimpleAccount.paymasterAndData userOp))))))
                  (skipn 32 (SimpleAccount.paymasterAndData userOp))
                = inr newSigner)).
Proof.
  intros msg_sender newSigner st. unfold setVerifyingSigner, _setVerifyingSigner. split.
  - intros Hother.
    assert (Hcheck : (owner st =? msg_sender) = false) by (apply Z.eqb_neq; congruence).
    now rewrite Hcheck.
  - intros ->. rewrite Z.eqb_refl. cbn [negb].
    eexists. split; [reflexivity|]. split; [reflexivity|].
    intros userOp userOpHash maxCost context validationData Hbytes Hrun.
    destruct (validation_outcome _ _ _ _ _ _ Hbytes Hrun) as (_ & _ & _ & _ & Hsigner).
    exact Hsigner.
Qed.

End Contract.

(** A window from [0x10] to [0xFF] and an approval that recovers to the
    verifying signer 9. *)
Lemma validationData_carries_window_witness :
  (97 <= length (SimpleAccount.paymasterAndData sampleOp))%nat
  /\ @nil Z = []
  /\ _parseValidationData (_packValidationData false 0xFF 0x10)
     = {| aggregator := sigFailed_of (_packValidationData false 0xFF 0x10);
          validAfter :=
            of_big_endian (slice 26 32 (SimpleAccount.paymasterAndData sampleOp));
          validUntil :=
            if of_big_endian (slice 20 26 (SimpleAccount.paymasterAndData sampleOp)) =? 0
            then uint48_max
            else of_big_endian (slice 20 26 (SimpleAccount.paymasterAndData sampleOp)) |}
  /\ (sigFailed_of (_packValidationData false 0xFF 0x10) = 0
      \/ sigFailed_of (_packValidationData false 0xFF 0x10) = 1).
Proof.
  apply (validationData_carries_window (fun h => h) (fun _ _ => inr 9)
           sampleOp [] 0 {| owner := 1; verifyingSigner := 9 |} []
           (_packValidationData false 0xFF 0x10)).
  - unfold sampleOp, sampleData. cbn.
    repeat (constructor; [unfold is_byte; lia|]). constructor.
  - reflexivity.
Defined.

(** A window whose [validUntil] is zero: the validation returns it as it
    stands, and the EntryPoint reads no expiry. *)
Example open_ended_window_never_expires :
  VerifyingPaymaster._validatePaymasterUserOp (fun h => h) (fun _ _ => inr 9)
    openEndedOp [] 0 {| owner := 1; verifyingSigner := 9 |}
  = inr ([], _packValidationData false 0 0x10)
  /\ _parseValidationData (_packValidationData false 0 0x10)
     = {| aggregator := 0; validAfter := 0x10; validUntil := 2 ^ 48 - 1 |}.
Proof. split; reflexivity. Qed.

(** Two operations that differ in the paymaster address, the signature
    and the hash get the same outcome. *)
Lemma approval_ignores_paymaster_address_witness :
  VerifyingPaymaster._validatePaymasterUserOp (fun h => h) (fun _ _ => inr 9)
    sampleOp [1] 5 {| owner := 1; verifyingSigner := 9 |}
  = VerifyingPaymaster._validatePaymasterUserOp (fun h => h) (fun _ _ => inr 9)
      otherOp [2] 6 {| owner := 1; verifyingSigner := 9 |}.
Proof.
  apply (approval_ignores_paymaster_address (fun h => h) (fun _ _ => inr 9)
           sampleOp otherOp [1] [2] 5 6 {| owner := 1; verifyingSigner := 9 |});
    reflexivity.
Defined.

End PaymasterFacts.

(** ** The deployment script: one deployment per contract and network *)

Module DeployFacts.

Import Deploy DeploySpec.

Section Script.

Context {C : Type}.
Variable env : Env C.

(** X28.  A [deployIfChanged] that returns an address leaves a file that
    holds an entry with that address under the key of the contract and the
    network, and every other entry as it was.  When there was no entry
    under the key it has attempted one deployment, of this contract with
    these arguments; when there was one it has done nothing, and the
    address is that of the entry. *)
Theorem deployIfChanged_records_deployment :
  forall contractName args deployer network (s : State C) a s',
    deployIfChanged env contractName args deployer network s = (ok a, s') ->
    (exists entry,
        entries (file s') !! key_of contractName network = Some entry
        /\ address entry = a)
    /\ (forall k, k <> key_of contractName network ->
          entries (file s') !! k = entries (file s) !! k)
    /\ (entries (file s) !! key_of contractName network = None ->
        attempted s' = attempted s ++ [(contractName, args)])
    /\ (forall entry,
          entries (file s) !! key_of contractName network = Some entry ->
          s' = s /\ a = address entry).
Proof.
  intros contractName args deployer network s a s'.
  unfold deployIfChanged, key_of, loadDeployments, ok, throw. cbv zeta.
  destruct (file s) as [|message|deployments] eqn:Hfile; cbn [entries];
    [|discriminate|].
  - rewrite lookup_empty.
    destruct (deploy env contractName args (world s)) as [[e|contract] c1]; [discriminate|].
    destruct (toISOString env c1) as [now c2].
    intros H. injection H as <- <-. cbn [file attempted entries saveDeployments].
    rewrite lookup_insert_eq. repeat split; eauto.
    + intros k Hk. rewrite lookup_insert_ne by (intros Heq; exact (Hk (eq_sym Heq))). reflexivity.
    + discriminate.
    + discriminate.
  - destruct (deployments !! _) as [existing|] eqn:Hexisting.
    + intros H. injection H as <- <-. rewrite Hfile. cbn [entries].
      repeat split; eauto; try congruence.
    + destruct (deploy env contractName args (world s)) as [[e|contract] c1]; [discriminate|].
      destruct (toISOString env c1) as [now c2].
      intros H. injection H as <- <-. cbn [file attempted entries saveDeployments].
      rewrite lookup_insert_eq. repeat split; eauto.
      * intros k Hk. rewrite lookup_insert_ne by (intros Heq; exact (Hk (eq_sym Heq))). reflexivity.
      * discriminate.
      * discriminate.
Qed.

(** X29.  Once [deployIfChanged] has returned an address for a contract
    on a network, every later run for the same contract and network on
    the file it left returns that address, attempts no deployment and
    leaves the file as it is, whatever the constructor arguments and the
    deployer are: a contract on record is not deployed again, changed or
    not. *)
Theorem deployIfChanged_deploys_once :
  forall contractName args deployer network (s : State C) a s',
    deployIfChanged env contractName args deployer network s = (ok a, s') ->
    forall args2 deployer2 log2 c2,
      deployIfChanged env contractName args2 deployer2 network
        {| file := file s'; attempted := log2; world := c2 |}
      = (ok a, {| file := file s'; attempted := log2; world := c2 |}).
Proof.
  intros contractName args deployer network s a s' Hrun args2 deployer2 log2 c2.
  revert Hrun. unfold deployIfChanged, loadDeployments, ok, throw. cbv zeta.
  destruct (file s) as [|message|deployments] eqn:Hfile;
    [|discriminate|].
  - rewrite lookup_empty.
    destruct (deploy env contractName args (world s)) as [[e|contract] c1]; [discriminate|].
    destruct (toISOString env c1) as [now c3].
    intros H. injection H as <- <-. cbn [file saveDeployments loadDeployments].
    rewrite lookup_insert_eq. reflexivity.
  - destruct (deployments !! _) as [existing|] eqn:Hexisting.
    + intros H. injection H as <- <-. rewrite Hfile. cbn [file loadDeployments].
      rewrite Hexisting. reflexivity.
    + destruct (deploy env contractName args (world s)) as [[e|contract] c1]; [discriminate|].
      destruct (toISOString env c1) as [now c3].
      intros H. injection H as <- <-. cbn [file saveDeployments loadDeployments].
      rewrite lookup_insert_eq. reflexivity.
Qed.

End Script.

(** The first run for the factory on [sepolia], from no file at all. *)
Lemma deployIfChanged_records_deployment_witness :
  (exists entry,
      entries (file first_run)
      !! key_of (utf16 "SimpleAccountFactory") sepolia = Some entry
      /\ address entry = utf16 "0x0")
  /\ (forall k, k <> key_of (utf16 "SimpleAccountFactory") sepolia ->
        entries (file first_run) !! k = entries (file start) !! k)
  /\ (entries (file start) !! key_of (utf16 "SimpleAccountFactory") sepolia = None ->
      attempted first_run
      = attempted start ++ [(utf16 "SimpleAccountFactory", [utf16 "0xE9"])])
  /\ (forall entry,
        entries (file start) !! key_of (utf16 "SimpleAccountFactory") sepolia
        = Some entry ->
        first_run = start /\ utf16 "0x0" = address entry).
Proof.
  apply (deployIfChanged_records_deployment counting (utf16 "SimpleAccountFactory")
           [utf16 "0xE9"] {| signer_address := utf16 "0xD0" |} sepolia start
           (utf16 "0x0") first_run).
  vm_compute. reflexivity.
Defined.

(** The key of that entry. *)
Example key_of_factory_on_sepolia :
  key_of (utf16 "SimpleAccountFactory") sepolia
  = utf16 "SimpleAccountFactory-sepolia-11155111".
Proof. vm_compute. reflexivity. Qed.

(** A second run on the file of the first, with other arguments and
    another deployer. *)
Lemma deployIfChanged_deploys_once_witness :
  deployIfChanged counting (utf16 "SimpleAccountFactory") [utf16 "0xEA"]
    {| signer_address := utf16 "0xD1" |} sepolia
    {| file := file first_run; attempted := attempted first_run;
       world := world first_run |}
  = (ok (utf16 "0x0"),
     {| file := file first_run; attempted := attempted first_run;
        world := world first_run |}).
Proof.
  apply (deployIfChanged_deploys_once counting (utf16 "SimpleAccountFactory")
           [utf16 "0xE9"] {| signer_address := utf16 "0xD0" |} sepolia start
           (utf16 "0x0") first_run ltac:(vm_compute; reflexivity)
           [utf16 "0xEA"] {| signer_address := utf16 "0xD1" |}
           (attempted first_run) (world first_run)).
Defined.

End DeployFacts.
